(** * CloudFormation stack-drift detection and repair

    A shallow embedding of [scripts/drift-detection.ts] (class
    [DriftDetector] and the command-line driver at the end of the file) and
    of its callers ([test/drift-helper.ts], [scripts/post-deploy-verify.ts],
    [scripts/pre-test-check.ts]), together with the properties of the drift
    reconciler.

    - Data ([DriftStatus], [ResourceDrift], [DriftAnalysis]) are records, the
      string-literal union types are enumerations.
    - The external collaborators (the [aws] and [cdk] commands run through
      [execSync], the terminal behind [readline], the locale used to format
      a date) are a record of functions over an abstract [World].
    - Effectful methods are functions in a small state-and-exception monad
      whose state holds the detector object ([stackName], [rl]), the output
      produced so far and the world. An [await] is plain sequencing, the
      script having a single flow of control; the one exception is a prompt
      that gets no answer, where the flow is left waiting for good.

    The file has three parts: the model of the code, the vocabulary in which
    the properties are stated (with the scripted collaborators used to run
    the model), and the properties. *)

From Stdlib Require Import String Ascii List Arith NArith Bool Lia DecimalString.
Import ListNotations.
Local Open Scope list_scope.
Local Open Scope string_scope.

(** ** Data model *)

(** [DriftStatus.StackDriftStatus] *)
Inductive StackDriftStatus : Type :=
  | STACK_IN_SYNC
  | STACK_DRIFTED
  | STACK_UNKNOWN
  | STACK_NOT_CHECKED.

(** [DriftStatus.DetectionStatus] *)
Inductive DetectionStatus : Type :=
  | DETECTION_IN_PROGRESS
  | DETECTION_COMPLETE
  | DETECTION_FAILED.

(** [ResourceDrift.StackResourceDriftStatus] *)
Inductive ResourceStatus : Type :=
  | IN_SYNC
  | MODIFIED
  | DELETED
  | NOT_CHECKED.

Definition StackDriftStatus_eqb (a b : StackDriftStatus) : bool :=
  match a, b with
  | STACK_IN_SYNC, STACK_IN_SYNC
  | STACK_DRIFTED, STACK_DRIFTED
  | STACK_UNKNOWN, STACK_UNKNOWN
  | STACK_NOT_CHECKED, STACK_NOT_CHECKED => true
  | _, _ => false
  end.

Definition DetectionStatus_eqb (a b : DetectionStatus) : bool :=
  match a, b with
  | DETECTION_IN_PROGRESS, DETECTION_IN_PROGRESS
  | DETECTION_COMPLETE, DETECTION_COMPLETE
  | DETECTION_FAILED, DETECTION_FAILED => true
  | _, _ => false
  end.

Definition ResourceStatus_eqb (a b : ResourceStatus) : bool :=
  match a, b with
  | IN_SYNC, IN_SYNC
  | MODIFIED, MODIFIED
  | DELETED, DELETED
  | NOT_CHECKED, NOT_CHECKED => true
  | _, _ => false
  end.

Record DriftStatus : Type := mkDriftStatus {
  StackDriftStatus_of : StackDriftStatus;
  DetectionStatus_of : DetectionStatus;
  DriftedStackResourceCount : option nat;
  StatusTimestamp : string;
  StatusReason : option string
}.

Record PropertyDifference : Type := mkPropertyDifference {
  PropertyPath : string;
  DifferenceType : string;
  ActualValue : option string;
  ExpectedValue : option string
}.

Record ResourceDrift : Type := mkResourceDrift {
  LogicalResourceId : string;
  PhysicalResourceId : string;
  ResourceType : string;
  StackResourceDriftStatus : ResourceStatus;
  PropertyDifferences : option (list PropertyDifference);
  Timestamp : string
}.

Record DriftAnalysis : Type := mkDriftAnalysis {
  total : nat;
  drifted : nat;
  deleted : list ResourceDrift;
  modified : list ResourceDrift;
  inSync : nat
}.

(** ** [analyzeDrifts] *)

(** [d.StackResourceDriftStatus === st] *)
Definition has_status (st : ResourceStatus) (d : ResourceDrift) : bool :=
  ResourceStatus_eqb (StackResourceDriftStatus d) st.

Definition analyzeDrifts (drifts : list ResourceDrift) : DriftAnalysis :=
  {| total := length drifts;
     drifted := length (filter (fun d => has_status MODIFIED d || has_status DELETED d) drifts);
     deleted := filter (fun d => has_status DELETED d) drifts;
     modified := filter (fun d => has_status MODIFIED d) drifts;
     inSync := length (filter (fun d => has_status IN_SYNC d) drifts) |}.

(** ** Effects: exceptions, output, collaborators *)

(** A JavaScript [Error]: the code only ever reads its [message]. *)
Record JsError : Type := mkError { message : string }.

(** The shell commands the detector runs through [execSync]. *)
Inductive Command : Type :=
  | aws_describe_stacks (stack_name : string)
  | aws_detect_stack_drift (stack_name : string)
  | aws_describe_stack_drift_detection_status (detection_id : string)
  | aws_describe_stack_resource_drifts (stack_name : string)
  | npx_cdk_deploy.

(** What the process does that can be observed from outside, in order.
    [execSync cmd] is the whole run of the child process. The [aws] commands
    are run with the option [encoding] only, which leaves their standard
    error connected to that of the process; [cdk deploy] is run with
    [stdio: 'inherit'] and shares all three streams. Whatever the child
    prints there is part of that one event: the model does not tell it
    apart, and says nothing of its text. *)
Inductive Event : Type :=
  | console_log (text : string)
  | console_error (text : string)
  | stdout_write (text : string)
  | execSync (cmd : Command)
  | setTimeout (ms : N)
  | readline_createInterface
  | readline_question (query : string)
  | readline_close.

(** [readline.createInterface({input: process.stdin, output: process.stdout})] *)
Inductive Interface : Type := stdio_interface.

(** The collaborators. Each command is taken together with the decoding of its
    output ([JSON.parse] and the field the caller reads): it either throws or
    yields the decoded value, and moves the world on.
    [answer_question] is the line the user types at a [readline] prompt, or
    [None] when the input ends before a line comes, and [toLocaleString] is
    [new Date(t).toLocaleString()]. *)
Record Provider (World : Type) : Type := mkProvider {
  run_describe_stacks : string -> World -> (JsError + nat) * World;
  run_detect_stack_drift : string -> World -> (JsError + string) * World;
  run_describe_detection_status : string -> World -> (JsError + DriftStatus) * World;
  run_describe_resource_drifts : string -> World -> (JsError + list ResourceDrift) * World;
  run_cdk_deploy : World -> (JsError + unit) * World;
  answer_question : string -> World -> option string * World;
  toLocaleString : string -> string
}.

Arguments run_describe_stacks {World}.
Arguments run_detect_stack_drift {World}.
Arguments run_describe_detection_status {World}.
Arguments run_describe_resource_drifts {World}.
Arguments run_cdk_deploy {World}.
Arguments answer_question {World}.
Arguments toLocaleString {World}.

(** The detector object ([stackName], [rl]), the output so far, the world. *)
Record State (World : Type) : Type := mkState {
  stackName : string;
  rl : option Interface;
  output : list Event;
  world : World
}.

Arguments mkState {World}.
Arguments stackName {World}.
Arguments rl {World}.
Arguments output {World}.
Arguments world {World}.

(** How a call ends: it returns; it throws; it is left waiting for a promise
    that nobody settles ([Pending]: the [await] never resumes, so neither the
    rest of the function nor any [catch] or [finally] around it runs); or the
    model's loop budget is used up ([OutOfFuel], shown below never to
    happen). *)
Inductive Outcome (A : Type) : Type :=
  | Return (a : A)
  | Throw (e : JsError)
  | Pending
  | OutOfFuel.

Arguments Return {A}.
Arguments Throw {A}.
Arguments Pending {A}.
Arguments OutOfFuel {A}.

Definition M (World A : Type) : Type := State World -> Outcome A * State World.

Section Monad.
Context {World : Type}.

Definition ret {A} (a : A) : M World A := fun s => (Return a, s).

Definition throw {A} (e : JsError) : M World A := fun s => (Throw e, s).

Definition out_of_fuel {A} : M World A := fun s => (OutOfFuel, s).

Definition bind {A B} (m : M World A) (k : A -> M World B) : M World B :=
  fun s =>
    match m s with
    | (Return a, s') => k a s'
    | (Throw e, s') => (Throw e, s')
    | (Pending, s') => (Pending, s')
    | (OutOfFuel, s') => (OutOfFuel, s')
    end.

(** [try { m } catch (error) { handler error }] *)
Definition try_catch {A} (m : M World A) (handler : JsError -> M World A) : M World A :=
  fun s =>
    match m s with
    | (Throw e, s') => handler e s'
    | r => r
    end.

(** [try { m } finally { fin }], for a [fin] that may itself throw. *)
Definition try_finally {A} (m : M World A) (fin : M World unit) : M World A :=
  fun s =>
    match m s with
    | (Pending, s') => (Pending, s')
    | (OutOfFuel, s') => (OutOfFuel, s')
    | (r, s') =>
        match fin s' with
        | (Return _, s'') => (r, s'')
        | (Throw e, s'') => (Throw e, s'')
        | (Pending, s'') => (Pending, s'')
        | (OutOfFuel, s'') => (OutOfFuel, s'')
        end
    end.

Definition emit (ev : Event) : M World unit :=
  fun s => (Return tt,
            mkState (stackName s) (rl s) (output s ++ [ev])%list (world s)).

Definition get_stackName : M World string := fun s => (Return (stackName s), s).

Definition get_rl : M World (option Interface) := fun s => (Return (rl s), s).

Definition set_rl (r : option Interface) : M World unit :=
  fun s => (Return tt, mkState (stackName s) r (output s) (world s)).

(** Run an external command: the run of the child is observed (and with it
    what the child prints on the streams it shares with the process), the
    collaborator's reply decides between a value and an exception. *)
Definition run_command {A} (cmd : Command)
    (reply : World -> (JsError + A) * World) : M World A :=
  fun s =>
    let (r, w') := reply (world s) in
    let s' := mkState (stackName s) (rl s) (output s ++ [execSync cmd])%list w' in
    match r with
    | inl e => (Throw e, s')
    | inr a => (Return a, s')
    end.

(** [new Promise(resolve => rl.question(query, answer => resolve(...)))],
    awaited: the prompt is shown and the user's line is handed to the
    callback. When the input ends before a line comes the callback is never
    called: the promise has no other way to settle (the source gives it no
    [reject] and listens to no [close]), and the caller is left waiting. *)
Definition question (query : string)
    (reply : World -> option string * World) : M World string :=
  fun s =>
    let (answer, w') := reply (world s) in
    let s' := mkState (stackName s) (rl s)
                (output s ++ [readline_question query])%list w' in
    match answer with
    | Some line => (Return line, s')
    | None => (Pending, s')
    end.

End Monad.

Declare Scope monad_scope.
Delimit Scope monad_scope with monad.
Notation "x <- m ;; k" := (bind m (fun x => k))
  (at level 61, m at next level, right associativity) : monad_scope.
Notation "m ;; k" := (bind m (fun _ => k))
  (at level 61, right associativity) : monad_scope.
Local Open Scope monad_scope.

(** ** Strings *)

(** The line feed that the source writes as a backslash followed by n. *)
Definition nl : string := String (ascii_of_nat 10) EmptyString.

(** [s.includes(sub)] *)
Fixpoint includes (s sub : string) : bool :=
  prefix sub s ||
  match s with
  | EmptyString => false
  | String _ rest => includes rest sub
  end.

(** [toLowerCase] on the letters A to Z. Every other byte is kept; no
    character outside A to Z lowers to a letter of [y], [e], [s], so the
    comparisons of [askForRepair] are not affected. *)
Definition lower_ascii (c : ascii) : ascii :=
  let n := nat_of_ascii c in
  if ((65 <=? n) && (n <=? 90))%nat then ascii_of_nat (n + 32) else c.

Fixpoint toLowerCase (s : string) : string :=
  match s with
  | EmptyString => EmptyString
  | String c rest => String (lower_ascii c) (toLowerCase rest)
  end.

(** A number inside a template literal. *)
Definition nat_text (n : nat) : string := NilEmpty.string_of_uint (Nat.to_uint n).

(** A boolean inside a template literal. *)
Definition bool_text (b : bool) : string := if b then "true" else "false".

(** The status literal behind each [StackDriftStatus]. *)
Definition StackDriftStatus_text (st : StackDriftStatus) : string :=
  match st with
  | STACK_IN_SYNC => "IN_SYNC"
  | STACK_DRIFTED => "DRIFTED"
  | STACK_UNKNOWN => "UNKNOWN"
  | STACK_NOT_CHECKED => "NOT_CHECKED"
  end.

(** [status.StatusReason || default]: an absent or empty reason is falsy. *)
Definition or_default (reason : option string) (default : string) : string :=
  match reason with
  | Some (String c rest) => String c rest
  | Some EmptyString | None => default
  end.

(** ** The detector's methods *)

(** [detectAndReport] returns one of two object shapes; the fields of the
    longer one are optional here. *)
Record DetectionReport : Type := mkDetectionReport {
  needsRepair : bool;
  stackExists : bool;
  driftStatus : option DriftStatus;
  analysis : option DriftAnalysis;
  drifts : option (list ResourceDrift)
}.

(** [{...result, repairAttempted, repairSuccess}] *)
Record ReconciliationResult : Type := mkReconciliationResult {
  result : DetectionReport;
  repairAttempted : bool;
  repairSuccess : bool
}.

Definition maxAttempts : nat := 30.

Section DriftDetector.
Context {World : Type}.
Variable P : Provider World.

(** [console.error(label, error.message)] prints both, separated by a space. *)
Definition console_error_with (label : string) (error : JsError) : M World unit :=
  emit (console_error (label ++ " " ++ message error)).

Fixpoint forEach {A} (l : list A) (f : A -> M World unit) : M World unit :=
  match l with
  | [] => ret tt
  | a :: rest => f a ;; forEach rest f
  end.

Definition createReadlineInterface : M World Interface :=
  r <- get_rl ;;
  match r with
  | None =>
      emit readline_createInterface ;;
      set_rl (Some stdio_interface) ;;
      ret stdio_interface
  | Some i => ret i
  end.

Definition cleanup : M World unit :=
  r <- get_rl ;;
  match r with
  | Some _ => emit readline_close ;; set_rl None
  | None => ret tt
  end.

Definition checkStackExists : M World bool :=
  name <- get_stackName ;;
  try_catch
    (stacks <- run_command (aws_describe_stacks name) (run_describe_stacks P name) ;;
     ret (0 <? stacks)%nat)
    (fun error =>
       if includes (message error) "does not exist" then ret false
       else throw error).

Definition startDriftDetection : M World string :=
  name <- get_stackName ;;
  emit (console_log ("🔍 " ++ name ++ " スタックのドリフト検出を開始しています...")) ;;
  try_catch
    (run_command (aws_detect_stack_drift name) (run_detect_stack_drift P name))
    (fun error =>
       console_error_with "❌ ドリフト検出の開始に失敗しました:" error ;;
       throw error).

(** One turn of the [while] loop of [waitForDriftDetection]: the [try] block
    with its [catch]. [inl status] is the [return status] of the block,
    [inr attempts'] falls through to the loop test with the new counter. *)
Definition poll (detectionId : string) (attempts : nat) : M World (DriftStatus + nat) :=
  try_catch
    (status <- run_command (aws_describe_stack_drift_detection_status detectionId)
                           (run_describe_detection_status P detectionId) ;;
     if DetectionStatus_eqb (DetectionStatus_of status) DETECTION_COMPLETE then
       ret (inl status)
     else if DetectionStatus_eqb (DetectionStatus_of status) DETECTION_FAILED then
       throw (mkError ("ドリフト検出が失敗しました: "
                        ++ or_default (StatusReason status) "不明な理由"))
     else
       emit (setTimeout 10000%N) ;;
       emit (stdout_write ".") ;;
       ret (inr (attempts + 1)))
    (fun error =>
       console_error_with (nl ++ "❌ ドリフト検出ステータスの確認に失敗しました:") error ;;
       throw error).

(** [while (attempts < maxAttempts) { ... }] followed by the timeout [throw].
    [fuel] bounds the number of turns the model may take. *)
Fixpoint wait_loop (fuel : nat) (detectionId : string) (attempts : nat) : M World DriftStatus :=
  if (attempts <? maxAttempts)%nat then
    match fuel with
    | O => out_of_fuel
    | S fuel' =>
        r <- poll detectionId attempts ;;
        match r with
        | inl status => ret status
        | inr attempts' => wait_loop fuel' detectionId attempts'
        end
    end
  else throw (mkError "ドリフト検出がタイムアウトしました").

Definition waitForDriftDetection (detectionId : string) : M World DriftStatus :=
  emit (console_log "⏳ ドリフト検出の完了を待機しています...") ;;
  wait_loop maxAttempts detectionId 0.

Definition getDriftDetails : M World (list ResourceDrift) :=
  name <- get_stackName ;;
  try_catch
    (run_command (aws_describe_stack_resource_drifts name)
                 (run_describe_resource_drifts P name))
    (fun error =>
       console_error_with "❌ ドリフト詳細の取得に失敗しました:" error ;;
       throw error).

Definition displayDriftReport (driftStatus : DriftStatus) (analysis : DriftAnalysis)
    : M World unit :=
  emit (console_log (nl ++ "📊 ドリフト検出レポート")) ;;
  emit (console_log "================") ;;
  emit (console_log ("スタック状態: " ++ StackDriftStatus_text (StackDriftStatus_of driftStatus))) ;;
  emit (console_log ("検出時刻: " ++ toLocaleString P (StatusTimestamp driftStatus))) ;;
  emit (console_log ("総リソース数: " ++ nat_text (total analysis))) ;;
  emit (console_log ("同期済みリソース: " ++ nat_text (inSync analysis))) ;;
  emit (console_log ("ドリフトしたリソース: " ++ nat_text (drifted analysis))) ;;
  (if (0 <? length (deleted analysis))%nat then
     emit (console_log (nl ++ "🗑️  削除されたリソース:")) ;;
     forEach (deleted analysis) (fun resource =>
       emit (console_log ("  - " ++ LogicalResourceId resource
                          ++ " (" ++ ResourceType resource ++ ")")) ;;
       emit (console_log ("    物理ID: " ++ PhysicalResourceId resource)))
   else ret tt) ;;
  (if (0 <? length (modified analysis))%nat then
     emit (console_log (nl ++ "🔧 変更されたリソース:")) ;;
     forEach (modified analysis) (fun resource =>
       emit (console_log ("  - " ++ LogicalResourceId resource
                          ++ " (" ++ ResourceType resource ++ ")")) ;;
       emit (console_log ("    物理ID: " ++ PhysicalResourceId resource)) ;;
       match PropertyDifferences resource with
       | Some (d :: ds) =>
           emit (console_log "    プロパティの差分:") ;;
           forEach (d :: ds) (fun diff =>
             emit (console_log ("      " ++ PropertyPath diff ++ ": " ++ DifferenceType diff)))
       | Some [] | None => ret tt
       end)
   else ret tt).

Definition repair_question : string :=
  "スタックドリフトを修復しますか？これによりスタックが再デプロイされます (y/N): ".

(** [answer.toLowerCase() === 'y' || answer.toLowerCase() === 'yes'] *)
Definition is_yes (answer : string) : bool :=
  String.eqb (toLowerCase answer) "y" || String.eqb (toLowerCase answer) "yes".

Definition askForRepair (analysis : DriftAnalysis) : M World bool :=
  if (drifted analysis =? 0)%nat then
    emit (console_log "✅ スタック状態は正常です。修復は必要ありません") ;;
    ret false
  else
    emit (console_log (nl ++ "⚠️  スタックドリフトが検出されました！")) ;;
    _ <- createReadlineInterface ;;
    answer <- question repair_question (answer_question P repair_question) ;;
    ret (is_yes answer).

(** The [try] block of [repairDrift]: redeploy, then detect again. *)
Definition redeploy_and_verify : M World bool :=
  emit (console_log "スタックを再デプロイしています...") ;;
  run_command npx_cdk_deploy (run_cdk_deploy P) ;;
  emit (console_log "✅ スタック修復が完了しました") ;;
  emit (console_log "🔍 修復結果を検証しています...") ;;
  detectionId <- startDriftDetection ;;
  driftStatus <- waitForDriftDetection detectionId ;;
  if StackDriftStatus_eqb (StackDriftStatus_of driftStatus) STACK_IN_SYNC then
    emit (console_log "✅ スタックドリフトの修復が成功しました。すべてのリソースが同期されています") ;;
    ret true
  else
    emit (console_log "⚠️  スタックにまだドリフトが残っている可能性があります。手動で確認することをお勧めします") ;;
    ret false.

Definition repairDrift : M World bool :=
  emit (console_log "🔧 スタックドリフトの修復を開始しています...") ;;
  try_catch redeploy_and_verify
    (fun error =>
       console_error_with "❌ スタックドリフトの修復に失敗しました:" error ;;
       ret false).

Definition detectAndReport : M World DetectionReport :=
  try_finally
    (try_catch
       (stackExists <- checkStackExists ;;
        if negb stackExists then
          name <- get_stackName ;;
          emit (console_log ("ℹ️  スタック " ++ name ++ " が存在しません。ドリフト検出は不要です")) ;;
          ret (mkDetectionReport false false None None None)
        else
          detectionId <- startDriftDetection ;;
          driftStatus <- waitForDriftDetection detectionId ;;
          emit (console_log (nl ++ "✅ ドリフト検出が完了しました")) ;;
          drifts <- getDriftDetails ;;
          let analysis := analyzeDrifts drifts in
          displayDriftReport driftStatus analysis ;;
          shouldRepair <- askForRepair analysis ;;
          ret (mkDetectionReport shouldRepair true
                 (Some driftStatus) (Some analysis) (Some drifts)))
       (fun error =>
          console_error_with "❌ ドリフト検出プロセス中にエラーが発生しました:" error ;;
          throw error))
    cleanup.

Definition detectAndRepair : M World ReconciliationResult :=
  result <- detectAndReport ;;
  if needsRepair result then
    repairSuccess <- repairDrift ;;
    ret (mkReconciliationResult result true repairSuccess)
  else
    ret (mkReconciliationResult result false false).

(** ** The command-line driver *)

(** The argument of [process.exit] in the [then] callback. *)
Definition exit_code (r : ReconciliationResult) : nat :=
  if stackExists (result r) && (negb (needsRepair (result r)) || repairSuccess r)
  then 0 else 1.

(** [detector.detectAndRepair().then(...).catch(...)]: the value is the code
    the process exits with. *)
Definition driver : M World nat :=
  try_catch
    (r <- detectAndRepair ;;
     emit (console_log (nl ++ "📋 最終結果:")) ;;
     emit (console_log ("スタック存在: " ++ bool_text (stackExists (result r)))) ;;
     (if stackExists (result r) then
        emit (console_log ("修復試行: " ++ bool_text (repairAttempted r))) ;;
        if repairAttempted r then
          emit (console_log ("修復成功: " ++ bool_text (repairSuccess r)))
        else ret tt
      else ret tt) ;;
     ret (exit_code r))
    (fun error =>
       console_error_with "❌ プログラム実行に失敗しました:" error ;;
       ret 1).

End DriftDetector.

(** [new DriftDetector()] in a given world, before any output. *)
Definition new_DriftDetector {World : Type} (w : World) : State World :=
  mkState "IcebergCdkStack" None [] w.

(** Running the script: how its flow ends (a returned value is the argument
    of [process.exit]) and the final state. *)
Definition main {World : Type} (P : Provider World) (w : World)
    : Outcome nat * State World :=
  driver P (new_DriftDetector w).

(** The code the process ends with, from the way the flow of a script ends.
    A call of [process.exit(code)] gives [code]. A flow left waiting at a
    prompt that is never answered leaves the process nothing more to do: it
    ends by itself, with code 0, since nothing has set another. The scripts
    modelled here let no exception through. *)
Definition exit_status (o : Outcome nat) : option nat :=
  match o with
  | Return code => Some code
  | Pending => Some 0
  | Throw _ | OutOfFuel => None
  end.

(** ** Callers of the detector *)

(** *** Calls that end the process

    [process.exit(code)] ends the script where it stands: no [catch] and no
    [finally] runs after it. A script that may call it yields [inl code] when
    it did and [inr a] when it came to its end with the value [a]. *)
Definition Proc (World A : Type) : Type := M World (nat + A).

Section Process.
Context {World : Type}.

(** [process.exit(code)] *)
Definition exit {A} (code : nat) : Proc World A := ret (inl code).

(** A step that does not end the process. *)
Definition lift {A} (m : M World A) : Proc World A := a <- m ;; ret (inr a).

(** Sequencing: nothing runs after [process.exit]. *)
Definition and_then {A B} (m : Proc World A) (k : A -> Proc World B) : Proc World B :=
  r <- m ;;
  match r with
  | inl code => ret (inl code)
  | inr a => k a
  end.

(** [try { m } finally { fin }] around a block that may end the process:
    [fin] runs when the block returns or throws, not when it exits. *)
Definition finally_unless_exited {A} (m : Proc World A) (fin : M World unit)
    : Proc World A :=
  fun s =>
    match m s with
    | (Return (inl code), s') => (Return (inl code), s')
    | (Pending, s') => (Pending, s')
    | (OutOfFuel, s') => (OutOfFuel, s')
    | (r, s') =>
        match fin s' with
        | (Return _, s'') => (r, s'')
        | (Throw e, s'') => (Throw e, s'')
        | (Pending, s'') => (Pending, s'')
        | (OutOfFuel, s'') => (OutOfFuel, s'')
        end
    end.

(** [const detector = new DriftDetector()] *)
Definition construct_DriftDetector : M World unit :=
  fun s => (Return tt, mkState "IcebergCdkStack" None (output s) (world s)).

(** A script run as [f().catch(error => { console.error(label, error.message);
    process.exit(1) })]: the code the process ends with. A script that comes
    to its end without calling [process.exit] ends with code 0. *)
Definition run_script (body : Proc World unit) (label : string) : M World nat :=
  try_catch
    (r <- body ;;
     match r with
     | inl code => ret code
     | inr _ => ret 0
     end)
    (fun error =>
       emit (console_error (label ++ " " ++ message error)) ;;
       ret 1).

End Process.

Notation "x <~ m ;; k" := (and_then m (fun x => k))
  (at level 61, m at next level, right associativity) : monad_scope.
Notation "m ;;; k" := (and_then m (fun _ => k))
  (at level 61, right associativity) : monad_scope.

(** *** [TestDriftHelper] (test/drift-helper.ts) *)

Definition stack_missing_error : JsError :=
  mkError ("スタックが存在しません。" ++ nl ++ "まずデプロイを実行してください: npm run deploy:safe").

Definition stack_check_failed_error : JsError :=
  mkError ("スタック状態の確認に失敗しました。" ++ nl
           ++ "ネットワーク接続やAWS認証情報を確認してください。").

Section TestDriftHelper.
Context {World : Type}.
Variable P : Provider World.

(** [TestDriftHelper.cleanup]: the helper always holds a detector, whose
    [cleanup] is a function. *)
Definition helper_cleanup : M World unit := cleanup.

Definition verifyStackState : M World unit :=
  try_catch
    (stackExists <- checkStackExists P ;;
     if negb stackExists then throw stack_missing_error
     else emit (console_log "✅ スタックの存在を確認しました"))
    (fun error =>
       if includes (message error) "スタックが存在しません" then throw error
       else
         console_error_with "❌ スタック状態チェックに失敗しました:" error ;;
         throw stack_check_failed_error).

Definition ensureStackExists : M World bool :=
  try_catch (checkStackExists P)
    (fun error =>
       console_error_with "❌ スタック状態チェックに失敗しました:" error ;;
       ret false).

End TestDriftHelper.

(** *** [postDeployVerify] (scripts/post-deploy-verify.ts) *)

Section PostDeployVerify.
Context {World : Type}.
Variable P : Provider World.

(** The evaluation of the result: the [if] on the stack status that ends the
    [try] block. *)
Definition evaluate (driftStatus : DriftStatus) (analysis : DriftAnalysis)
    : Proc World unit :=
  if StackDriftStatus_eqb (StackDriftStatus_of driftStatus) STACK_IN_SYNC then
    lift (emit (console_log (nl ++ "🎉 デプロイ後の検証が完了しました。スタックは正常な状態です。"))) ;;;
    lift (emit (console_log "   テストを実行できます: npm test"))
  else
    lift (emit (console_log (nl ++ "⚠️  デプロイ後にドリフトが検出されました。"))) ;;;
    if (0 <? length (deleted analysis))%nat then
      lift (emit (console_log "❌ 重要なリソースが不足しています。再デプロイが必要です。")) ;;;
      lift (emit (console_log "   対処法: npm run deploy:safe")) ;;;
      exit 1
    else if (0 <? length (modified analysis))%nat then
      lift (emit (console_log "ℹ️  一部のリソースが期待と異なりますが、テストには影響しません。")) ;;;
      lift (emit (console_log "   必要に応じて修復してください: npm run drift:detect"))
    else lift (ret tt).

(** The [try] block of [postDeployVerify]. *)
Definition verification : Proc World unit :=
  stackExists <~ lift (checkStackExists P) ;;
  (if negb stackExists then
     lift (emit (console_log "❌ スタックが存在しません。デプロイが失敗した可能性があります。")) ;;;
     exit 1
   else lift (ret tt)) ;;;
  lift (emit (console_log "✅ スタックが存在することを確認しました")) ;;;
  lift (emit (console_log (nl ++ "🔍 デプロイ後のドリフト検出を実行しています..."))) ;;;
  detectionId <~ lift (startDriftDetection P) ;;
  driftStatus <~ lift (waitForDriftDetection P detectionId) ;;
  lift (emit (console_log (nl ++ "✅ ドリフト検出が完了しました"))) ;;;
  drifts <~ lift (getDriftDetails P) ;;
  let analysis := analyzeDrifts drifts in
  lift (displayDriftReport P driftStatus analysis) ;;;
  evaluate driftStatus analysis.

Definition postDeployVerify : Proc World unit :=
  lift (emit (console_log ("🔍 デプロイ後の検証を開始します..." ++ nl))) ;;;
  lift construct_DriftDetector ;;;
  finally_unless_exited
    (try_catch verification
       (fun error =>
          lift (console_error_with "❌ デプロイ後の検証中にエラーが発生しました:" error) ;;;
          exit 1))
    cleanup.

(** The script [post-deploy-verify.ts] run directly. *)
Definition postDeployVerify_script : M World nat :=
  run_script postDeployVerify "❌ デプロイ後の検証に失敗しました:".

End PostDeployVerify.

(** *** [preTestCheck] (scripts/pre-test-check.ts) *)

Definition continue_question : string := "それでもテストを続行しますか？ (y/N): ".

Section PreTestCheck.
Context {World : Type}.
Variable P : Provider World.

(** The prompt of [preTestCheck], on a [readline] interface of its own that
    is closed as soon as the answer is in. *)
Definition askToContinue : M World bool :=
  emit readline_createInterface ;;
  answer <- question continue_question (answer_question P continue_question) ;;
  emit readline_close ;;
  ret (is_yes answer).

(** [result.analysis && result.analysis.drifted > 0 && !result.needsRepair] *)
Definition drift_left_unrepaired (r : ReconciliationResult) : bool :=
  match analysis (result r) with
  | Some a => (0 <? drifted a)%nat && negb (needsRepair (result r))
  | None => false
  end.

(** The checks of [preTestCheck] on the result of [detectAndRepair]. *)
Definition check_result (r : ReconciliationResult) : Proc World unit :=
  (if negb (stackExists (result r)) then
     lift (emit (console_log "ℹ️  スタックが存在しません。まず基盤をデプロイしてください:")) ;;;
     lift (emit (console_log "   npm run deploy")) ;;;
     exit 1
   else lift (ret tt)) ;;;
  (if needsRepair (result r) && negb (repairSuccess r) then
     lift (emit (console_log "❌ スタックドリフトの修復に失敗しました。手動で修復してください。")) ;;;
     exit 1
   else lift (ret tt)) ;;;
  (if drift_left_unrepaired r then
     lift (emit (console_log "⚠️  ドリフトが検出されましたが、修復を選択しませんでした。")) ;;;
     lift (emit (console_log "   テストが失敗する可能性があります。")) ;;;
     continueTest <~ lift askToContinue ;;
     if negb continueTest then
       lift (emit (console_log "テストをキャンセルしました。")) ;;;
       exit 1
     else lift (ret tt)
   else lift (ret tt)) ;;;
  lift (emit (console_log (nl ++ "✅ 事前チェックが完了しました。テストを開始できます。"))).

Definition preTestCheck : Proc World unit :=
  lift (emit (console_log ("🔍 テスト実行前の事前チェックを開始します..." ++ nl))) ;;;
  lift construct_DriftDetector ;;;
  try_catch
    (r <~ lift (detectAndRepair P) ;;
     check_result r)
    (fun error =>
       lift (console_error_with "❌ 事前チェック中にエラーが発生しました:" error) ;;;
       exit 1).

(** The script [pre-test-check.ts] run directly. *)
Definition preTestCheck_script : M World nat :=
  run_script preTestCheck "❌ 事前チェックに失敗しました:".

End PreTestCheck.

(** * Vocabulary of the specification *)

(** ** Classifications *)

(** Number of records of the batch whose status is [st]. *)
Fixpoint count_status (st : ResourceStatus) (drifts : list ResourceDrift) : nat :=
  match drifts with
  | [] => 0
  | d :: rest =>
      match StackResourceDriftStatus d, st with
      | IN_SYNC, IN_SYNC | MODIFIED, MODIFIED
      | DELETED, DELETED | NOT_CHECKED, NOT_CHECKED => S (count_status st rest)
      | _, _ => count_status st rest
      end
  end.

(** [Subseq xs ys]: [xs] is obtained from [ys] by dropping elements, the
    remaining ones keeping their relative order. *)
Inductive Subseq {A : Type} : list A -> list A -> Prop :=
  | Subseq_nil : Subseq [] []
  | Subseq_keep x xs ys : Subseq xs ys -> Subseq (x :: xs) (x :: ys)
  | Subseq_drop y xs ys : Subseq xs ys -> Subseq xs (y :: ys).

(** [Selects st sel drifts]: [sel] is exactly the records of [drifts] with
    status [st], in input order: each record of status [st] is kept and every
    other record is dropped. *)
Inductive Selects (st : ResourceStatus) : list ResourceDrift -> list ResourceDrift -> Prop :=
  | Selects_nil : Selects st [] []
  | Selects_keep d sel drifts :
      StackResourceDriftStatus d = st ->
      Selects st sel drifts -> Selects st (d :: sel) (d :: drifts)
  | Selects_drop d sel drifts :
      StackResourceDriftStatus d <> st ->
      Selects st sel drifts -> Selects st sel (d :: drifts).

(** ** Termination *)

(** A computation terminates when it never uses up the loop budget. *)
Definition terminates {World A} (m : M World A) : Prop :=
  forall s, fst (m s) <> OutOfFuel.

(** A computation settles when it always returns or throws: it neither uses
    up the loop budget nor is left waiting for an answer. *)
Definition settles {World A} (m : M World A) : Prop :=
  forall s, fst (m s) <> OutOfFuel /\ fst (m s) <> Pending.

(** ** Output of the polling loop and of the repair *)

(** The command of one status poll. *)
Definition status_poll (detectionId : string) : Event :=
  execSync (aws_describe_stack_drift_detection_status detectionId).

(** What [k] unsuccessful polls leave in the output: each poll is followed by
    the ten-second sleep and the progress dot. *)
Fixpoint poll_rounds (detectionId : string) (k : nat) : list Event :=
  match k with
  | O => []
  | S k' =>
      [status_poll detectionId; setTimeout 10000%N; stdout_write "."]
        ++ poll_rounds detectionId k'
  end.

Definition wait_banner : Event :=
  console_log "⏳ ドリフト検出の完了を待機しています...".

Definition timeout_error : JsError := mkError "ドリフト検出がタイムアウトしました".

(** The error thrown when a poll reports DETECTION_FAILED. *)
Definition detection_failed_error (status : DriftStatus) : JsError :=
  mkError ("ドリフト検出が失敗しました: " ++ or_default (StatusReason status) "不明な理由").

(** What the [catch] of the loop prints before rethrowing. *)
Definition poll_error_report (error : JsError) : Event :=
  console_error (nl ++ "❌ ドリフト検出ステータスの確認に失敗しました:" ++ " " ++ message error).

Definition repair_banner : Event :=
  console_log "🔧 スタックドリフトの修復を開始しています...".

Definition repair_error_report (error : JsError) : Event :=
  console_error ("❌ スタックドリフトの修復に失敗しました:" ++ " " ++ message error).

(** What the [try] block of [repairDrift] prints up to the start of the
    verifying detection. *)
Definition redeploy_events (name : string) : list Event :=
  [console_log "スタックを再デプロイしています...";
   execSync npx_cdk_deploy;
   console_log "✅ スタック修復が完了しました";
   console_log "🔍 修復結果を検証しています...";
   console_log ("🔍 " ++ name ++ " スタックのドリフト検出を開始しています...");
   execSync (aws_detect_stack_drift name)].

(** The events by which detection, a redeploy or the confirmation prompt
    would show. *)
Definition detection_or_prompt (ev : Event) : bool :=
  match ev with
  | execSync (aws_detect_stack_drift _)
  | execSync (aws_describe_stack_drift_detection_status _)
  | execSync (aws_describe_stack_resource_drifts _)
  | execSync npx_cdk_deploy
  | readline_createInterface
  | readline_question _ => true
  | _ => false
  end.

Definition absent_stack_notice (name : string) : Event :=
  console_log ("ℹ️  スタック " ++ name ++ " が存在しません。ドリフト検出は不要です").

(** What [cleanup] adds to the output. *)
Definition cleanup_events (r : option Interface) : list Event :=
  match r with
  | Some _ => [readline_close]
  | None => []
  end.

Definition is_status_poll (ev : Event) : bool :=
  match ev with
  | execSync (aws_describe_stack_drift_detection_status _) => true
  | _ => false
  end.

(** Number of status polls in a piece of output. *)
Definition polls_in (events : list Event) : nat :=
  length (filter is_status_poll events).

(** Milliseconds slept in a piece of output. *)
Fixpoint slept_in (events : list Event) : N :=
  match events with
  | [] => 0%N
  | setTimeout ms :: rest => (ms + slept_in rest)%N
  | _ :: rest => slept_in rest
  end.

(** ** States and runs *)

Section States.
Context {World : Type}.

(** The state after some more output and a move of the world. *)
Definition advance (s : State World) (events : list Event) (w : World) : State World :=
  mkState (stackName s) (rl s) (output s ++ events)%list w.

(** The state in which the [try] block of [repairDrift] starts. *)
Definition repair_entry (s : State World) : State World :=
  advance s [repair_banner] (world s).

End States.

Section Runs.
Context {World : Type}.
Variable P : Provider World.
Variable detectionId : string.

(** [InProgressRun k w w']: from world [w], [k] successive status queries
    all answer DETECTION_IN_PROGRESS and leave the world at [w']. *)
Inductive InProgressRun : nat -> World -> World -> Prop :=
  | InProgressRun_O w : InProgressRun 0 w w
  | InProgressRun_S k w w1 w2 status :
      run_describe_detection_status P detectionId w = (inr status, w1) ->
      DetectionStatus_of status = DETECTION_IN_PROGRESS ->
      InProgressRun k w1 w2 ->
      InProgressRun (S k) w w2.

(** The four ways a detection run ends, seen from the loop entered with the
    counter at [attempts]: after [k] polls in progress the budget is used up,
    or the next poll reports completion, reports failure, or throws. *)
Inductive WaitResult (s : State World) (attempts : nat)
    : Outcome DriftStatus * State World -> Prop :=
  | wait_timed_out k w1 :
      attempts + k = maxAttempts ->
      InProgressRun k (world s) w1 ->
      WaitResult s attempts
        (Throw timeout_error, advance s (poll_rounds detectionId k) w1)
  | wait_completed k w1 status w2 :
      attempts + k < maxAttempts ->
      InProgressRun k (world s) w1 ->
      run_describe_detection_status P detectionId w1 = (inr status, w2) ->
      DetectionStatus_of status = DETECTION_COMPLETE ->
      WaitResult s attempts
        (Return status,
         advance s (poll_rounds detectionId k ++ [status_poll detectionId]) w2)
  | wait_failed k w1 status w2 :
      attempts + k < maxAttempts ->
      InProgressRun k (world s) w1 ->
      run_describe_detection_status P detectionId w1 = (inr status, w2) ->
      DetectionStatus_of status = DETECTION_FAILED ->
      WaitResult s attempts
        (Throw (detection_failed_error status),
         advance s (poll_rounds detectionId k
                    ++ [status_poll detectionId;
                        poll_error_report (detection_failed_error status)]) w2)
  | wait_query_threw k w1 error w2 :
      attempts + k < maxAttempts ->
      InProgressRun k (world s) w1 ->
      run_describe_detection_status P detectionId w1 = (inl error, w2) ->
      WaitResult s attempts
        (Throw error,
         advance s (poll_rounds detectionId k
                    ++ [status_poll detectionId; poll_error_report error]) w2).

End Runs.

Section Failures.
Context {World : Type}.
Variable P : Provider World.

(** The ways a repair can go wrong, told by what the collaborators answer
    from the world in which [repairDrift] is called: the redeploy fails; the
    verifying detection cannot be started; a status poll throws; a status
    poll reports DETECTION_FAILED; every poll of the budget reports
    DETECTION_IN_PROGRESS. *)
Inductive RepairFailure (s : State World) : Prop :=
  | redeploy_failure error w1 :
      run_cdk_deploy P (world s) = (inl error, w1) ->
      RepairFailure s
  | detection_start_error w1 error w2 :
      run_cdk_deploy P (world s) = (inr tt, w1) ->
      run_detect_stack_drift P (stackName s) w1 = (inl error, w2) ->
      RepairFailure s
  | poll_transport_error w1 id w2 k w3 error w4 :
      run_cdk_deploy P (world s) = (inr tt, w1) ->
      run_detect_stack_drift P (stackName s) w1 = (inr id, w2) ->
      k < maxAttempts ->
      InProgressRun P id k w2 w3 ->
      run_describe_detection_status P id w3 = (inl error, w4) ->
      RepairFailure s
  | detection_reported_failed w1 id w2 k w3 status w4 :
      run_cdk_deploy P (world s) = (inr tt, w1) ->
      run_detect_stack_drift P (stackName s) w1 = (inr id, w2) ->
      k < maxAttempts ->
      InProgressRun P id k w2 w3 ->
      run_describe_detection_status P id w3 = (inr status, w4) ->
      DetectionStatus_of status = DETECTION_FAILED ->
      RepairFailure s
  | poll_budget_timeout w1 id w2 w3 :
      run_cdk_deploy P (world s) = (inr tt, w1) ->
      run_detect_stack_drift P (stackName s) w1 = (inr id, w2) ->
      InProgressRun P id maxAttempts w2 w3 ->
      RepairFailure s.

End Failures.

(** [Verified P s status]: called in state [s], the redeploy succeeds, the
    verifying detection starts, and its polls end with one that reports
    DETECTION_COMPLETE with the snapshot [status]. *)
Definition Verified {World} (P : Provider World) (s : State World)
    (status : DriftStatus) : Prop :=
  exists w1 id w2 k w3 w4,
    run_cdk_deploy P (world s) = (inr tt, w1)
    /\ run_detect_stack_drift P (stackName s) w1 = (inr id, w2)
    /\ k < maxAttempts
    /\ InProgressRun P id k w2 w3
    /\ run_describe_detection_status P id w3 = (inr status, w4)
    /\ DetectionStatus_of status = DETECTION_COMPLETE.

(** ** Classes of events and the protocol of the confirmation channel *)

Definition is_console_log (ev : Event) : bool :=
  match ev with
  | console_log _ => true
  | _ => false
  end.

Definition is_readline (ev : Event) : bool :=
  match ev with
  | readline_createInterface | readline_question _ | readline_close => true
  | _ => false
  end.

Definition is_deploy (ev : Event) : bool :=
  match ev with
  | execSync npx_cdk_deploy => true
  | _ => false
  end.

Definition is_question (ev : Event) : bool :=
  match ev with
  | readline_question _ => true
  | _ => false
  end.

(** What the script writes itself, as against what a child process prints
    while it runs. *)
Definition own_writing (ev : Event) : bool :=
  match ev with
  | console_log _ | console_error _ | stdout_write _ => true
  | _ => false
  end.

(** An error report under the label of the detection process. *)
Definition is_detection_report (ev : Event) : bool :=
  match ev with
  | console_error text => prefix "❌ ドリフト検出プロセス中にエラーが発生しました:" text
  | _ => false
  end.

(** Number of such reports in a piece of output. *)
Definition detection_reports_in (events : list Event) : nat :=
  length (filter is_detection_report events).

(** Anything but a redeploy. *)
Definition no_deploy (ev : Event) : bool := negb (is_deploy ev).

(** Neither a redeploy nor any use of the terminal. *)
Definition read_only (ev : Event) : bool := negb (is_deploy ev) && negb (is_readline ev).

(** Read-only, and no error report of the detection process either. *)
Definition quiet_read (ev : Event) : bool := read_only ev && negb (is_detection_report ev).

(** Any event at all. *)
Definition any_event (ev : Event) : bool := true.

(** The protocol of a [readline] interface, followed along the output: an
    interface is created only when none is open, a question is asked and the
    interface is closed only when one is open. [None] is a breach. *)
Definition replay_event (r : option Interface) (ev : Event) : option (option Interface) :=
  match ev, r with
  | readline_createInterface, None => Some (Some stdio_interface)
  | readline_createInterface, Some _ => None
  | readline_question _, Some i => Some (Some i)
  | readline_question _, None => None
  | readline_close, Some _ => Some None
  | readline_close, None => None
  | _, _ => Some r
  end.

Fixpoint replay (r : option Interface) (events : list Event) : option (option Interface) :=
  match events with
  | [] => Some r
  | ev :: rest =>
      match replay_event r ev with
      | Some r' => replay r' rest
      | None => None
      end
  end.

(** [Tracks Q m]: whatever the state, [m] only adds to the output, every
    event it adds satisfies [Q], the added events follow the protocol of the
    confirmation channel from the detector's [rl], and [rl] ends as the
    events say. *)
Definition Tracks {World A} (Q : Event -> bool) (m : M World A) : Prop :=
  forall s,
    exists events,
      output (snd (m s)) = (output s ++ events)%list
      /\ forallb Q events = true
      /\ replay (rl s) events = Some (rl (snd (m s))).

(** Anything but a use of the terminal. *)
Definition no_terminal (ev : Event) : bool := negb (is_readline ev).

(** [Prints n m]: [m] returns normally, writes [n] lines with [console.log]
    and nothing else, and leaves the detector and the world as they were. *)
Definition Prints {World} (n : nat) (m : M World unit) : Prop :=
  forall s,
    exists events,
      m s = (Return tt, mkState (stackName s) (rl s) (output s ++ events)%list (world s))
      /\ forallb is_console_log events = true
      /\ length events = n.

(** Lines of the report for one modified resource: its name, its physical
    id and, when it has property differences, a heading and a line for each. *)
Definition resource_lines (resource : ResourceDrift) : nat :=
  2 + match PropertyDifferences resource with
      | Some (d :: ds) => 1 + length (d :: ds)
      | Some [] | None => 0
      end.

(** Lines of the whole report: seven of summary, then a heading and two
    lines for each deleted resource when there is one, then a heading and
    the lines of each modified resource when there is one. *)
Definition report_lines (a : DriftAnalysis) : nat :=
  7
  + (if (0 <? length (deleted a))%nat then 1 + 2 * length (deleted a) else 0)
  + (if (0 <? length (modified a))%nat
     then 1 + list_sum (map resource_lines (modified a)) else 0).

(** [NeverThrows m]: [m] always returns. *)
Definition NeverThrows {World A} (m : M World A) : Prop :=
  forall s, exists a s', m s = (Return a, s').

(** [Detected P name w status batch w']: from world [w], the stack [name] is
    described with at least one stack, a detection starts, its polls end
    with one that reports DETECTION_COMPLETE with the snapshot [status], and
    the resource drifts are fetched as [batch], leaving the world at [w']. *)
Definition Detected {World} (P : Provider World) (name : string) (w : World)
    (status : DriftStatus) (batch : list ResourceDrift) (w' : World) : Prop :=
  exists n w1 id w2 k w3 w4,
    run_describe_stacks P name w = (inr n, w1)
    /\ 0 < n
    /\ run_detect_stack_drift P name w1 = (inr id, w2)
    /\ k < maxAttempts
    /\ InProgressRun P id k w2 w3
    /\ run_describe_detection_status P id w3 = (inr status, w4)
    /\ DetectionStatus_of status = DETECTION_COMPLETE
    /\ run_describe_resource_drifts P name w4 = (inr batch, w').

(** [s.includes(sub)], said with concatenation. *)
Definition Substring (sub s : string) : Prop :=
  exists before after, s = before ++ sub ++ after.

(** The state in which a script works once it has printed its banner and
    made its detector. *)
Definition script_entry {World} (banner : string) (s : State World) : State World :=
  mkState "IcebergCdkStack" None (output s ++ [console_log banner])%list (world s).

(** What [startDriftDetection] prints first. *)
Definition start_banner (name : string) : Event :=
  console_log ("🔍 " ++ name ++ " スタックのドリフト検出を開始しています...").

Definition no_repair_needed : Event :=
  console_log "✅ スタック状態は正常です。修復は必要ありません".

Definition drift_warning : Event :=
  console_log (nl ++ "⚠️  スタックドリフトが検出されました！").

(** What opening the confirmation channel adds to the output: nothing when
    it is open already. *)
Definition open_events (r : option Interface) : list Event :=
  match r with
  | Some _ => []
  | None => [readline_createInterface]
  end.

(** Number of questions put to the user in a piece of output. *)
Definition questions_in (events : list Event) : nat :=
  length (filter is_question events).

(** What [TestDriftHelper] prints when a stack check breaks. *)
Definition stack_check_report (error : JsError) : Event :=
  console_error ("❌ スタック状態チェックに失敗しました:" ++ " " ++ message error).

Definition stack_confirmed : Event := console_log "✅ スタックの存在を確認しました".

(** The one command behind every stack check. *)
Definition describe_stacks_command {World} (s : State World) : Event :=
  execSync (aws_describe_stacks (stackName s)).

Definition post_deploy_banner : string := "🔍 デプロイ後の検証を開始します..." ++ nl.

Definition pre_test_banner : string := "🔍 テスト実行前の事前チェックを開始します..." ++ nl.

(** The stack is in sync, or at least no resource of it is deleted. *)
Definition passes_evaluation (status : DriftStatus) (a : DriftAnalysis) : bool :=
  StackDriftStatus_eqb (StackDriftStatus_of status) STACK_IN_SYNC
  || negb (0 <? length (deleted a))%nat.

(** The code a script ends with. *)
Definition code_of (o : nat + unit) : nat :=
  match o with
  | inl code => code
  | inr _ => 0
  end.

(** [ExitsWith1 m]: when [m] ends the process, the code is 1. *)
Definition ExitsWith1 {World A} (m : Proc World A) : Prop :=
  forall s code s', m s = (Return (inl code), s') -> code = 1.

(** What [preTestCheck] decides from the result of [detectAndRepair] and
    from whether the user, if asked, wants to go on. *)
Definition passes_check (r : ReconciliationResult) (go_on : bool) : bool :=
  stackExists (result r)
  && negb (needsRepair (result r) && negb (repairSuccess r))
  && (negb (drift_left_unrepaired r) || go_on).

(** [Reads s s1]: from [s] to [s1] the output has only grown, by events that
    neither redeploy nor use the terminal nor report an error of the
    detection process, and the confirmation channel is as it was. *)
Definition Reads {World} (s s1 : State World) : Prop :=
  exists events,
    output s1 = (output s ++ events)%list
    /\ forallb quiet_read events = true
    /\ rl s1 = rl s.

(** What the [catch] of [detectAndReport] prints before rethrowing. *)
Definition detection_error_report (error : JsError) : Event :=
  console_error ("❌ ドリフト検出プロセス中にエラーが発生しました:" ++ " " ++ message error).

(** The analyses of two batches, put together. *)
Definition merge_analyses (a b : DriftAnalysis) : DriftAnalysis :=
  {| total := total a + total b;
     drifted := drifted a + drifted b;
     deleted := deleted a ++ deleted b;
     modified := modified a ++ modified b;
     inSync := inSync a + inSync b |}.

(** The report on a stack that does not exist. *)
Definition absent_report : DetectionReport := mkDetectionReport false false None None None.

(** ** Scripted collaborators

    A provider whose replies are fixed in advance; its world is the number of
    status polls made so far, so the reply to a status poll may depend on how
    many came before. *)

Record Scenario : Type := mkScenario {
  stacks_reply : JsError + nat;
  detect_reply : JsError + string;
  status_reply : nat -> JsError + DriftStatus;
  drifts_reply : JsError + list ResourceDrift;
  deploy_reply : JsError + unit;
  typed_answer : option string
}.

Definition scripted (sc : Scenario) : Provider nat :=
  {| run_describe_stacks := fun _ polls => (stacks_reply sc, polls);
     run_detect_stack_drift := fun _ polls => (detect_reply sc, polls);
     run_describe_detection_status := fun _ polls => (status_reply sc polls, S polls);
     run_describe_resource_drifts := fun _ polls => (drifts_reply sc, polls);
     run_cdk_deploy := fun polls => (deploy_reply sc, polls);
     answer_question := fun _ polls => (typed_answer sc, polls);
     toLocaleString := fun t => t |}.

Definition status_in_progress : DriftStatus :=
  mkDriftStatus STACK_NOT_CHECKED DETECTION_IN_PROGRESS None "2024-01-01T00:00:00Z" None.

Definition status_complete (st : StackDriftStatus) (n : nat) : DriftStatus :=
  mkDriftStatus st DETECTION_COMPLETE (Some n) "2024-01-01T00:05:00Z" None.

Definition status_failed (reason : option string) : DriftStatus :=
  mkDriftStatus STACK_UNKNOWN DETECTION_FAILED None "2024-01-01T00:05:00Z" reason.

(** A stack that exists and whose detection never leaves DETECTION_IN_PROGRESS. *)
Definition stuck_detection : Scenario :=
  {| stacks_reply := inr 1;
     detect_reply := inr "detection-1";
     status_reply := fun _ => inr status_in_progress;
     drifts_reply := inr [];
     deploy_reply := inr tt;
     typed_answer := Some "" |}.

(** A stack whose detection is reported failed, with a reason, at once. *)
Definition failing_detection : Scenario :=
  {| stacks_reply := inr 1;
     detect_reply := inr "detection-2";
     status_reply := fun _ => inr (status_failed (Some "Internal Failure"));
     drifts_reply := inr [];
     deploy_reply := inr tt;
     typed_answer := Some "" |}.

(** A stack whose status query breaks on the third poll. *)
Definition throttled_error : JsError := mkError "Rate exceeded".

Definition throttled_detection : Scenario :=
  {| stacks_reply := inr 1;
     detect_reply := inr "detection-3";
     status_reply := fun polls =>
       if (polls <? 2)%nat then inr status_in_progress else inl throttled_error;
     drifts_reply := inr [];
     deploy_reply := inr tt;
     typed_answer := Some "" |}.

(** [aws] answers that the stack does not exist. *)
Definition absent_stack : Scenario :=
  {| stacks_reply :=
       inl (mkError "An error occurred (ValidationError) when calling the DescribeStacks operation: Stack with id IcebergCdkStack does not exist");
     detect_reply := inr "detection-4";
     status_reply := fun _ => inr (status_complete STACK_DRIFTED 1);
     drifts_reply := inr [];
     deploy_reply := inr tt;
     typed_answer := Some "y" |}.

(** The redeploy command fails. *)
Definition deploy_error : JsError := mkError "Command failed: npx cdk deploy --require-approval never".

Definition broken_deploy : Scenario :=
  {| stacks_reply := inr 1;
     detect_reply := inr "detection-5";
     status_reply := fun _ => inr (status_complete STACK_IN_SYNC 0);
     drifts_reply := inr [];
     deploy_reply := inl deploy_error;
     typed_answer := Some "y" |}.

(** The redeploy succeeds but the stack is still reported drifted. *)
Definition persistent_drift : Scenario :=
  {| stacks_reply := inr 1;
     detect_reply := inr "detection-6";
     status_reply := fun polls =>
       if (polls <? 1)%nat then inr status_in_progress
       else inr (status_complete STACK_DRIFTED 1);
     drifts_reply := inr [];
     deploy_reply := inr tt;
     typed_answer := Some "y" |}.

(** A batch with a single NOT_CHECKED record. *)
Definition unchecked_resource : ResourceDrift :=
  {| LogicalResourceId := "AthenaWorkGroup";
     PhysicalResourceId := "iceberg-workgroup";
     ResourceType := "AWS::Athena::WorkGroup";
     StackResourceDriftStatus := NOT_CHECKED;
     PropertyDifferences := None;
     Timestamp := "2024-01-01T00:00:00Z" |}.

(** The end-to-end scenario: the stack exists and detection completes with
    three resources, one deleted, one modified, one in sync; asked whether
    to repair, the user answers no. *)
Definition bucket_x : ResourceDrift :=
  {| LogicalResourceId := "BucketX";
     PhysicalResourceId := "iceberg-data-bucket";
     ResourceType := "AWS::S3::Bucket";
     StackResourceDriftStatus := DELETED;
     PropertyDifferences := None;
     Timestamp := "2024-01-01T00:05:00Z" |}.

Definition workgroup_1 : ResourceDrift :=
  {| LogicalResourceId := "Workgroup1";
     PhysicalResourceId := "iceberg-workgroup";
     ResourceType := "AWS::Athena::WorkGroup";
     StackResourceDriftStatus := MODIFIED;
     PropertyDifferences :=
       Some [ {| PropertyPath := "/WorkGroupConfiguration/EngineVersion";
                 DifferenceType := "NOT_EQUAL";
                 ActualValue := Some "Athena engine version 2";
                 ExpectedValue := Some "Athena engine version 3" |} ];
     Timestamp := "2024-01-01T00:05:00Z" |}.

Definition glue_database : ResourceDrift :=
  {| LogicalResourceId := "GlueDatabase";
     PhysicalResourceId := "iceberg_db";
     ResourceType := "AWS::Glue::Database";
     StackResourceDriftStatus := IN_SYNC;
     PropertyDifferences := Some [];
     Timestamp := "2024-01-01T00:05:00Z" |}.

Definition declined_repair : Scenario :=
  {| stacks_reply := inr 1;
     detect_reply := inr "detection-7";
     status_reply := fun _ => inr (status_complete STACK_DRIFTED 2);
     drifts_reply := inr [bucket_x; workgroup_1; glue_database];
     deploy_reply := inr tt;
     typed_answer := Some "N" |}.

(** A drifted stack that the user agrees to repair, and that the redeploy
    brings back in sync. *)
Definition accepted_repair : Scenario :=
  {| stacks_reply := inr 1;
     detect_reply := inr "detection-8";
     status_reply := fun polls =>
       if (polls <? 1)%nat then inr (status_complete STACK_DRIFTED 1)
       else inr (status_complete STACK_IN_SYNC 0);
     drifts_reply := inr [workgroup_1];
     deploy_reply := inr tt;
     typed_answer := Some "Yes" |}.

(** A drifted stack and a terminal whose input has ended: the prompt is
    never answered. *)
Definition unanswered_prompt : Scenario :=
  {| stacks_reply := inr 1;
     detect_reply := inr "detection-14";
     status_reply := fun _ => inr (status_complete STACK_DRIFTED 1);
     drifts_reply := inr [workgroup_1];
     deploy_reply := inr tt;
     typed_answer := None |}.

(** A describe-stacks command that fails for want of credentials. *)
Definition credentials_error : JsError :=
  mkError "Unable to locate credentials. You can configure credentials by running aws configure.".

Definition missing_credentials : Scenario :=
  {| stacks_reply := inl credentials_error;
     detect_reply := inr "detection-10";
     status_reply := fun _ => inr (status_complete STACK_IN_SYNC 0);
     drifts_reply := inr [];
     deploy_reply := inr tt;
     typed_answer := Some "y" |}.

(** A stack in sync, checked after a deploy. *)
Definition healthy_stack : Scenario :=
  {| stacks_reply := inr 1;
     detect_reply := inr "detection-11";
     status_reply := fun polls =>
       if (polls <? 3)%nat then inr status_in_progress
       else inr (status_complete STACK_IN_SYNC 0);
     drifts_reply := inr [glue_database];
     deploy_reply := inr tt;
     typed_answer := Some "" |}.

(** No stack is listed. *)
Definition empty_listing : Scenario :=
  {| stacks_reply := inr 0;
     detect_reply := inr "detection-12";
     status_reply := fun _ => inr (status_complete STACK_IN_SYNC 0);
     drifts_reply := inr [];
     deploy_reply := inr tt;
     typed_answer := Some "" |}.

(** * Properties *)

(** ** Equality tests *)

Lemma ResourceStatus_eqb_eq (a b : ResourceStatus) :
  ResourceStatus_eqb a b = true <-> a = b.
Proof. destruct a, b; simpl; split; congruence. Qed.

Lemma DetectionStatus_eqb_eq (a b : DetectionStatus) :
  DetectionStatus_eqb a b = true <-> a = b.
Proof. destruct a, b; simpl; split; congruence. Qed.

Lemma StackDriftStatus_eqb_eq (a b : StackDriftStatus) :
  StackDriftStatus_eqb a b = true <-> a = b.
Proof. destruct a, b; simpl; split; congruence. Qed.

(** ** Classification of a batch *)

Lemma Selects_Subseq st sel drifts : Selects st sel drifts -> Subseq sel drifts.
Proof. induction 1; constructor; assumption. Qed.

Lemma Selects_length st sel drifts :
  Selects st sel drifts -> length sel = count_status st drifts.
Proof.
  induction 1 as [| d sel drifts Hd _ IH | d sel drifts Hd _ IH]; simpl.
  - reflexivity.
  - rewrite Hd, IH. destruct st; reflexivity.
  - rewrite IH. destruct (StackResourceDriftStatus d), st; congruence.
Qed.

Lemma Selects_Forall st sel drifts :
  Selects st sel drifts -> Forall (fun d => StackResourceDriftStatus d = st) sel.
Proof. induction 1; auto. Qed.

Lemma Selects_functional st sel sel' drifts :
  Selects st sel drifts -> Selects st sel' drifts -> sel = sel'.
Proof.
  intros H; revert sel'.
  induction H; intros sel' H'; inversion H'; subst;
    try reflexivity; try contradiction; try congruence.
  - f_equal; auto.
  - auto.
Qed.

Lemma filter_Selects st drifts :
  Selects st (filter (fun d => has_status st d) drifts) drifts.
Proof.
  induction drifts as [| d rest IH]; simpl.
  - constructor.
  - unfold has_status at 1.
    destruct (ResourceStatus_eqb (StackResourceDriftStatus d) st) eqn:E.
    + apply Selects_keep; [apply ResourceStatus_eqb_eq; exact E | exact IH].
    + apply Selects_drop; [| exact IH].
      intros Heq. apply ResourceStatus_eqb_eq in Heq. congruence.
Qed.

Lemma filter_status_length st drifts :
  length (filter (fun d => has_status st d) drifts) = count_status st drifts.
Proof. apply (Selects_length st), filter_Selects. Qed.

Lemma drifted_length drifts :
  length (filter (fun d => has_status MODIFIED d || has_status DELETED d) drifts)
  = count_status DELETED drifts + count_status MODIFIED drifts.
Proof.
  induction drifts as [| d rest IH]; simpl; [reflexivity |].
  unfold has_status at 1 2.
  destruct (StackResourceDriftStatus d); simpl; rewrite IH; lia.
Qed.

Lemma count_status_total drifts :
  length drifts
  = count_status IN_SYNC drifts + count_status MODIFIED drifts
    + count_status DELETED drifts + count_status NOT_CHECKED drifts.
Proof.
  induction drifts as [| d rest IH]; simpl; [reflexivity |].
  destruct (StackResourceDriftStatus d); lia.
Qed.

(** C1. For every batch of drift records, [analyzeDrifts] returns an analysis
    whose [total] is the length of the batch, whose [drifted] is the number of
    DELETED records plus the number of MODIFIED records, whose [inSync] counts
    exactly the IN_SYNC records (so NOT_CHECKED records are part of [total]
    but of neither [inSync] nor [drifted]), and whose [deleted] and
    [modified] lists are exactly the DELETED and the MODIFIED records, in
    input order. *)
Theorem analyzeDrifts_classification (drifts : list ResourceDrift) :
  let a := analyzeDrifts drifts in
  total a = length drifts
  /\ drifted a = count_status DELETED drifts + count_status MODIFIED drifts
  /\ inSync a = count_status IN_SYNC drifts
  /\ total a = inSync a + drifted a + count_status NOT_CHECKED drifts
  /\ Selects DELETED (deleted a) drifts
  /\ Selects MODIFIED (modified a) drifts.
Proof.
  cbn zeta. unfold analyzeDrifts; simpl.
  rewrite drifted_length, filter_status_length.
  repeat split.
  - rewrite (count_status_total drifts). lia.
  - apply filter_Selects.
  - apply filter_Selects.
Qed.

(** C2, as stated, fails: a batch holding one NOT_CHECKED record has
    [total = 1] while [inSync + drifted = 0]. *)
Lemma analyzeDrifts_total_not_inSync_plus_drifted :
  let a := analyzeDrifts [unchecked_resource] in
  total a = 1 /\ inSync a = 0 /\ drifted a = 0 /\ total a <> inSync a + drifted a.
Proof. cbn. repeat split; discriminate. Qed.

(** C2, amended. For every batch, [total] is [inSync + drifted] plus the
    number of NOT_CHECKED records, [drifted] is [|deleted| + |modified|], and
    so [total = inSync + drifted] holds exactly for the batches without a
    NOT_CHECKED record. *)
Theorem analyzeDrifts_invariants (drifts : list ResourceDrift) :
  let a := analyzeDrifts drifts in
  total a = inSync a + drifted a + count_status NOT_CHECKED drifts
  /\ drifted a = length (deleted a) + length (modified a)
  /\ (total a = inSync a + drifted a <-> count_status NOT_CHECKED drifts = 0).
Proof.
  cbn zeta. unfold analyzeDrifts; simpl.
  rewrite drifted_length, !filter_status_length.
  pose proof (count_status_total drifts) as Ht.
  repeat split; lia.
Qed.

Example declined_repair_analysis :
  analyzeDrifts [bucket_x; workgroup_1; glue_database]
  = {| total := 3; drifted := 2; deleted := [bucket_x];
       modified := [workgroup_1]; inSync := 1 |}.
Proof. reflexivity. Qed.

(** ** Reasoning about the monad *)

Section MonadFacts.
Context {World : Type}.

Lemma terminates_ret {A} (a : A) : terminates (@ret World A a).
Proof. intros s; simpl; discriminate. Qed.

Lemma terminates_throw {A} e : terminates (@throw World A e).
Proof. intros s; simpl; discriminate. Qed.

Lemma terminates_emit ev : terminates (@emit World ev).
Proof. intros s; simpl; discriminate. Qed.

Lemma terminates_get_stackName : terminates (@get_stackName World).
Proof. intros s; simpl; discriminate. Qed.

Lemma terminates_get_rl : terminates (@get_rl World).
Proof. intros s; simpl; discriminate. Qed.

Lemma terminates_set_rl r : terminates (@set_rl World r).
Proof. intros s; simpl; discriminate. Qed.

Lemma terminates_run_command {A} cmd (reply : World -> (JsError + A) * World) :
  terminates (run_command cmd reply).
Proof.
  intros s. unfold run_command.
  destruct (reply (world s)) as [[e | a] w']; simpl; discriminate.
Qed.

Lemma terminates_question query (reply : World -> option string * World) :
  terminates (question query reply).
Proof.
  intros s. unfold question.
  destruct (reply (world s)) as [[answer |] w']; simpl; discriminate.
Qed.

Lemma terminates_bind {A B} (m : M World A) (k : A -> M World B) :
  terminates m -> (forall a, terminates (k a)) -> terminates (bind m k).
Proof.
  intros Hm Hk s. unfold bind. specialize (Hm s).
  destruct (m s) as [[a | e | | ] s']; simpl in *.
  - apply Hk.
  - discriminate.
  - discriminate.
  - congruence.
Qed.

Lemma terminates_try_catch {A} (m : M World A) handler :
  terminates m -> (forall e, terminates (handler e)) -> terminates (try_catch m handler).
Proof.
  intros Hm Hh s. unfold try_catch. specialize (Hm s).
  destruct (m s) as [[a | e | | ] s']; simpl in *.
  - discriminate.
  - apply Hh.
  - discriminate.
  - congruence.
Qed.

Lemma terminates_try_finally {A} (m : M World A) fin :
  terminates m -> terminates fin -> terminates (try_finally m fin).
Proof.
  intros Hm Hf s. unfold try_finally. specialize (Hm s).
  destruct (m s) as [[a | e | | ] s']; simpl in *; try congruence;
    specialize (Hf s'); destruct (fin s') as [[[] | e' | | ] s'']; simpl in *;
    congruence.
Qed.

Lemma terminates_if {A} (b : bool) (m1 m2 : M World A) :
  terminates m1 -> terminates m2 -> terminates (if b then m1 else m2).
Proof. destruct b; auto. Qed.

(** A computation that settles returns or throws. *)
Lemma settles_cases {A} (m : M World A) s :
  settles m ->
  (exists a s', m s = (Return a, s')) \/ (exists e s', m s = (Throw e, s')).
Proof.
  intros Hm. destruct (Hm s) as [Hfuel Hwait].
  destruct (m s) as [[a | e | | ] s']; simpl in *.
  - left; eauto.
  - right; eauto.
  - congruence.
  - congruence.
Qed.

(** A terminating computation returns, throws or is left waiting. *)
Lemma terminates_cases {A} (m : M World A) s :
  terminates m ->
  (exists a s', m s = (Return a, s'))
  \/ (exists e s', m s = (Throw e, s'))
  \/ (exists s', m s = (Pending, s')).
Proof.
  intros Hm. specialize (Hm s).
  destruct (m s) as [[a | e | | ] s']; simpl in *.
  - left; eauto.
  - right; left; eauto.
  - right; right; eauto.
  - congruence.
Qed.

Lemma settles_terminates {A} (m : M World A) : settles m -> terminates m.
Proof. intros Hm s. apply Hm. Qed.

Lemma settles_ret {A} (a : A) : settles (@ret World A a).
Proof. intros s; simpl; split; discriminate. Qed.

Lemma settles_throw {A} e : settles (@throw World A e).
Proof. intros s; simpl; split; discriminate. Qed.

Lemma settles_emit ev : settles (@emit World ev).
Proof. intros s; simpl; split; discriminate. Qed.

Lemma settles_get_stackName : settles (@get_stackName World).
Proof. intros s; simpl; split; discriminate. Qed.

Lemma settles_get_rl : settles (@get_rl World).
Proof. intros s; simpl; split; discriminate. Qed.

Lemma settles_set_rl r : settles (@set_rl World r).
Proof. intros s; simpl; split; discriminate. Qed.

Lemma settles_run_command {A} cmd (reply : World -> (JsError + A) * World) :
  settles (run_command cmd reply).
Proof.
  intros s. unfold run_command.
  destruct (reply (world s)) as [[e | a] w']; simpl; split; discriminate.
Qed.

Lemma settles_bind {A B} (m : M World A) (k : A -> M World B) :
  settles m -> (forall a, settles (k a)) -> settles (bind m k).
Proof.
  intros Hm Hk s. unfold bind. destruct (Hm s) as [Hfuel Hwait].
  destruct (m s) as [[a | e | | ] s']; simpl in *;
    [apply Hk | split; discriminate | congruence | congruence].
Qed.

Lemma settles_try_catch {A} (m : M World A) handler :
  settles m -> (forall e, settles (handler e)) -> settles (try_catch m handler).
Proof.
  intros Hm Hh s. unfold try_catch. destruct (Hm s) as [Hfuel Hwait].
  destruct (m s) as [[a | e | | ] s']; simpl in *;
    [split; discriminate | apply Hh | congruence | congruence].
Qed.

Lemma settles_if {A} (b : bool) (m1 m2 : M World A) :
  settles m1 -> settles m2 -> settles (if b then m1 else m2).
Proof. destruct b; auto. Qed.

End MonadFacts.

Create HintDb terminates.

#[local] Hint Resolve terminates_ret terminates_throw terminates_emit
  terminates_get_stackName terminates_get_rl terminates_set_rl
  terminates_run_command terminates_question : terminates.

Create HintDb settles.

#[local] Hint Resolve settles_ret settles_throw settles_emit
  settles_get_stackName settles_get_rl settles_set_rl
  settles_run_command : settles.

Ltac terminates_step :=
  first
    [ apply terminates_bind; [| intros ? ]
    | apply terminates_try_catch; [| intros ? ]
    | apply terminates_try_finally
    | apply terminates_if
    | solve [ auto with terminates ] ].

Ltac prove_terminates := repeat terminates_step.

Ltac settles_step :=
  first
    [ apply settles_bind; [| intros ? ]
    | apply settles_try_catch; [| intros ? ]
    | apply settles_if
    | solve [ auto with settles ] ].

Ltac prove_settles := repeat settles_step.

(** ** States *)

Section Advance.
Context {World : Type}.

Lemma advance_nil (s : State World) : advance s [] (world s) = s.
Proof. unfold advance. rewrite app_nil_r. destruct s; reflexivity. Qed.

Lemma advance_advance (s : State World) ev1 w1 ev2 w2 :
  advance (advance s ev1 w1) ev2 w2 = advance s (ev1 ++ ev2)%list w2.
Proof. unfold advance; simpl. rewrite app_assoc. reflexivity. Qed.

End Advance.

(** ** The polling loop *)

Section Polling.
Context {World : Type}.
Variable P : Provider World.
Variable detectionId : string.

Lemma wait_loop_unfold fuel attempts :
  wait_loop P fuel detectionId attempts =
  if (attempts <? maxAttempts)%nat then
    match fuel with
    | O => out_of_fuel
    | S fuel' =>
        r <- poll P detectionId attempts ;;
        match r with
        | inl status => ret status
        | inr attempts' => wait_loop P fuel' detectionId attempts'
        end
    end
  else throw timeout_error.
Proof. destruct fuel; reflexivity. Qed.

Lemma poll_in_progress attempts s status w' :
  run_describe_detection_status P detectionId (world s) = (inr status, w') ->
  DetectionStatus_of status = DETECTION_IN_PROGRESS ->
  poll P detectionId attempts s =
  (Return (inr (attempts + 1)),
   advance s (poll_rounds detectionId 1) w').
Proof.
  intros Hq Hst.
  unfold poll, try_catch, bind, run_command, advance. rewrite Hq, Hst. simpl.
  rewrite <- !app_assoc. reflexivity.
Qed.

Lemma poll_complete attempts s status w' :
  run_describe_detection_status P detectionId (world s) = (inr status, w') ->
  DetectionStatus_of status = DETECTION_COMPLETE ->
  poll P detectionId attempts s =
  (Return (inl status),
   advance s [status_poll detectionId] w').
Proof.
  intros Hq Hst.
  unfold poll, try_catch, bind, run_command. rewrite Hq, Hst. reflexivity.
Qed.

Lemma poll_failed attempts s status w' :
  run_describe_detection_status P detectionId (world s) = (inr status, w') ->
  DetectionStatus_of status = DETECTION_FAILED ->
  poll P detectionId attempts s =
  (Throw (detection_failed_error status),
   advance s [status_poll detectionId;
              poll_error_report (detection_failed_error status)] w').
Proof.
  intros Hq Hst.
  unfold poll, try_catch, bind, run_command, advance. rewrite Hq, Hst. simpl.
  rewrite <- !app_assoc. reflexivity.
Qed.

Lemma poll_throws attempts s error w' :
  run_describe_detection_status P detectionId (world s) = (inl error, w') ->
  poll P detectionId attempts s =
  (Throw error,
   advance s [status_poll detectionId; poll_error_report error] w').
Proof.
  intros Hq.
  unfold poll, try_catch, bind, run_command, advance. rewrite Hq. simpl.
  rewrite <- !app_assoc. reflexivity.
Qed.

Lemma poll_rounds_S k :
  poll_rounds detectionId (S k) = (poll_rounds detectionId 1 ++ poll_rounds detectionId k)%list.
Proof. reflexivity. Qed.

(** [k] polls in progress take the loop through [k] turns: the counter and
    the output advance, and nothing else happens. *)
Lemma wait_loop_in_progress k :
  forall fuel attempts s w',
    InProgressRun P detectionId k (world s) w' ->
    attempts + k <= maxAttempts ->
    wait_loop P (k + fuel) detectionId attempts s =
    wait_loop P fuel detectionId (attempts + k)
      (advance s (poll_rounds detectionId k) w').
Proof.
  induction k as [| k IH]; intros fuel attempts s w' Hrun Hle.
  - inversion Hrun; subst. cbn [Nat.add poll_rounds].
    rewrite advance_nil, Nat.add_0_r. reflexivity.
  - inversion Hrun as [| k' w0 w1 w2 status Hq Hst Hrest]; subst.
    rewrite wait_loop_unfold.
    assert (Hlt : (attempts <? maxAttempts)%nat = true) by (apply Nat.ltb_lt; lia).
    rewrite Hlt. cbn [Nat.add].
    unfold bind at 1. rewrite (poll_in_progress attempts s status w1 Hq Hst).
    rewrite (IH fuel (attempts + 1) (advance s (poll_rounds detectionId 1) w1)
               w' Hrest) by lia.
    rewrite advance_advance, <- poll_rounds_S.
    replace (attempts + 1 + k) with (attempts + S k) by lia.
    reflexivity.
Qed.

(** One more poll in progress in front of a run. *)
Lemma WaitResult_step s attempts status w1 r :
  run_describe_detection_status P detectionId (world s) = (inr status, w1) ->
  DetectionStatus_of status = DETECTION_IN_PROGRESS ->
  WaitResult P detectionId (advance s (poll_rounds detectionId 1) w1) (attempts + 1) r ->
  WaitResult P detectionId s attempts r.
Proof.
  intros Hq Hst Hr.
  inversion Hr as [k w2 Hk Hrun | k w2 st w3 Hk Hrun Hq' Hst'
                  | k w2 st w3 Hk Hrun Hq' Hst' | k w2 e w3 Hk Hrun Hq'];
    subst; rewrite advance_advance; cbn [world advance] in Hrun;
    rewrite ?app_assoc; rewrite <- poll_rounds_S.
  - apply wait_timed_out; [lia | econstructor; eassumption].
  - apply wait_completed with (w1 := w2); auto; [lia | econstructor; eassumption].
  - apply wait_failed with (w1 := w2); auto; [lia | econstructor; eassumption].
  - apply wait_query_threw with (w1 := w2); auto; [lia | econstructor; eassumption].
Qed.

(** Entered with the counter within the budget and with fuel for the
    [maxAttempts - attempts] turns that are left, the loop ends in one of the
    four ways; in particular it never stops for lack of fuel. *)
Lemma wait_loop_result fuel :
  forall attempts s,
    attempts <= maxAttempts ->
    maxAttempts - attempts <= fuel ->
    WaitResult P detectionId s attempts (wait_loop P fuel detectionId attempts s).
Proof.
  induction fuel as [| fuel IH]; intros attempts s Hle Hfuel; rewrite wait_loop_unfold;
    destruct (Nat.ltb_spec attempts maxAttempts) as [Hlt | Hge]; try lia.
  - rewrite <- (advance_nil s) at 2.
    apply (wait_timed_out P detectionId s attempts 0); [lia | constructor].
  - unfold bind.
    destruct (run_describe_detection_status P detectionId (world s))
      as [[error | status] w1] eqn:Hq.
    + rewrite (poll_throws attempts s error w1 Hq).
      apply (wait_query_threw P detectionId s attempts 0 (world s) error w1);
        [lia | constructor | exact Hq].
    + destruct (DetectionStatus_of status) eqn:Hst.
      * rewrite (poll_in_progress attempts s status w1 Hq Hst).
        apply (WaitResult_step s attempts status w1); auto.
        apply IH; lia.
      * rewrite (poll_complete attempts s status w1 Hq Hst).
        apply (wait_completed P detectionId s attempts 0 (world s) status w1);
          [lia | constructor | exact Hq | exact Hst].
      * rewrite (poll_failed attempts s status w1 Hq Hst).
        apply (wait_failed P detectionId s attempts 0 (world s) status w1);
          [lia | constructor | exact Hq | exact Hst].
  - rewrite <- (advance_nil s) at 2.
    apply (wait_timed_out P detectionId s attempts 0); [lia | constructor].
Qed.

Lemma waitForDriftDetection_unfold s :
  waitForDriftDetection P detectionId s =
  wait_loop P maxAttempts detectionId 0 (advance s [wait_banner] (world s)).
Proof. reflexivity. Qed.

(** [maxAttempts] polls in progress use up the budget: the loop test fails
    and the timeout error is thrown. *)
Lemma wait_loop_budget_exhausted s w' :
  InProgressRun P detectionId maxAttempts (world s) w' ->
  wait_loop P maxAttempts detectionId 0 s =
  (Throw timeout_error, advance s (poll_rounds detectionId maxAttempts) w').
Proof.
  intros Hrun.
  pose proof (wait_loop_in_progress maxAttempts 0 0 s w' Hrun (le_n _)) as E.
  rewrite Nat.add_0_r in E. rewrite E.
  rewrite wait_loop_unfold. cbn [Nat.add].
  rewrite Nat.ltb_irrefl. reflexivity.
Qed.

(** After [k < maxAttempts] polls in progress the loop makes one more poll. *)
Lemma wait_loop_next_poll k s w1 :
  k < maxAttempts ->
  InProgressRun P detectionId k (world s) w1 ->
  wait_loop P maxAttempts detectionId 0 s =
  bind (poll P detectionId k)
       (fun r => match r with
                 | inl status => ret status
                 | inr attempts' => wait_loop P (maxAttempts - k - 1) detectionId attempts'
                 end)
       (advance s (poll_rounds detectionId k) w1).
Proof.
  intros Hk Hrun.
  pose proof (wait_loop_in_progress k (maxAttempts - k) 0 s w1 Hrun) as E.
  replace (k + (maxAttempts - k)) with maxAttempts in E by lia.
  cbn [Nat.add] in E. rewrite E by lia.
  rewrite wait_loop_unfold.
  assert (Hlt : (k <? maxAttempts)%nat = true) by (apply Nat.ltb_lt; exact Hk).
  rewrite Hlt.
  destruct (maxAttempts - k) as [| fuel] eqn:Hfuel; [lia |].
  cbn [Nat.sub]. rewrite Nat.sub_0_r. reflexivity.
Qed.

Lemma WaitResult_not_OutOfFuel s attempts r :
  WaitResult P detectionId s attempts r -> fst r <> OutOfFuel.
Proof. destruct 1; simpl; discriminate. Qed.

Lemma terminates_wait_loop :
  terminates (wait_loop P maxAttempts detectionId 0).
Proof.
  intros s. apply (WaitResult_not_OutOfFuel s 0), wait_loop_result; lia.
Qed.

Lemma terminates_waitForDriftDetection :
  terminates (waitForDriftDetection P detectionId).
Proof.
  unfold waitForDriftDetection.
  apply terminates_bind; [apply terminates_emit | intros _; apply terminates_wait_loop].
Qed.

Lemma WaitResult_not_Pending s attempts r :
  WaitResult P detectionId s attempts r -> fst r <> Pending.
Proof. destruct 1; simpl; discriminate. Qed.

Lemma settles_waitForDriftDetection :
  settles (waitForDriftDetection P detectionId).
Proof.
  unfold waitForDriftDetection.
  apply settles_bind; [apply settles_emit | intros _].
  intros s. split.
  - apply (WaitResult_not_OutOfFuel s 0), wait_loop_result; lia.
  - apply (WaitResult_not_Pending s 0), wait_loop_result; lia.
Qed.

End Polling.

(** ** Counting what a run did *)

Lemma polls_in_poll_rounds id k : polls_in (poll_rounds id k) = k.
Proof.
  unfold polls_in. induction k as [| k IH]; simpl; [reflexivity |].
  simpl in IH. rewrite IH. reflexivity.
Qed.

Lemma slept_in_poll_rounds id k :
  slept_in (poll_rounds id k) = (10000 * N.of_nat k)%N.
Proof.
  induction k as [| k IH]; [reflexivity |].
  rewrite Nat2N.inj_succ. cbn [poll_rounds app slept_in status_poll]. rewrite IH. lia.
Qed.

Lemma polls_in_banner events : polls_in (wait_banner :: events) = polls_in events.
Proof. reflexivity. Qed.

Lemma slept_in_banner events : slept_in (wait_banner :: events) = slept_in events.
Proof. reflexivity. Qed.

(** ** Bounded polling *)

Lemma always_in_progress_run {World} (P : Provider World) id :
  (forall w, exists status w',
      run_describe_detection_status P id w = (inr status, w')
      /\ DetectionStatus_of status = DETECTION_IN_PROGRESS) ->
  forall k w, exists w', InProgressRun P id k w w'.
Proof.
  intros Hstub. induction k as [| k IH]; intros w.
  - exists w. constructor.
  - destruct (Hstub w) as (status & w1 & Hq & Hst).
    destruct (IH w1) as (w2 & Hrun).
    exists w2. econstructor; eassumption.
Qed.

(** C3. Against a status query that answers DETECTION_IN_PROGRESS on every
    poll, [waitForDriftDetection] ends by throwing the timeout error after
    exactly [maxAttempts = 30] polls, each followed by the ten-second sleep
    (300 seconds in all) and the progress dot; there is no further poll. *)
Theorem waitForDriftDetection_bounded_polling
    {World} (P : Provider World) (detectionId : string) (s : State World) :
  (forall w, exists status w',
      run_describe_detection_status P detectionId w = (inr status, w')
      /\ DetectionStatus_of status = DETECTION_IN_PROGRESS) ->
  exists events w',
    waitForDriftDetection P detectionId s = (Throw timeout_error, advance s events w')
    /\ events = wait_banner :: poll_rounds detectionId maxAttempts
    /\ polls_in events = 30
    /\ slept_in events = 300000%N.
Proof.
  intros Hstub.
  destruct (always_in_progress_run P detectionId Hstub maxAttempts (world s))
    as (w' & Hrun).
  exists (wait_banner :: poll_rounds detectionId maxAttempts), w'.
  split; [| split; [reflexivity | split]].
  - rewrite waitForDriftDetection_unfold.
    rewrite (wait_loop_budget_exhausted P detectionId
               (advance s [wait_banner] (world s)) w' Hrun).
    rewrite advance_advance. reflexivity.
  - rewrite polls_in_banner. apply polls_in_poll_rounds.
  - rewrite slept_in_banner, slept_in_poll_rounds. reflexivity.
Qed.

Lemma waitForDriftDetection_bounded_polling_witness :
  exists events w',
    waitForDriftDetection (scripted stuck_detection) "detection-1" (new_DriftDetector 0)
    = (Throw timeout_error, advance (new_DriftDetector 0) events w')
    /\ events = wait_banner :: poll_rounds "detection-1" maxAttempts
    /\ polls_in events = 30
    /\ slept_in events = 300000%N.
Proof.
  apply (waitForDriftDetection_bounded_polling (scripted stuck_detection)).
  intros w. exists status_in_progress, (S w). split; reflexivity.
Defined.

(** ** Failure and transport errors while polling *)

(** C6. When the first status poll reports DETECTION_FAILED,
    [waitForDriftDetection] throws at once: the output holds that single
    poll and the error report, with no sleep and no second poll, and the
    error message is the failure text followed by the reported
    [StatusReason] (by a fixed text when no reason, or an empty one, is
    reported). *)
Theorem waitForDriftDetection_failed_first_poll
    {World} (P : Provider World) (detectionId : string) (s : State World)
    (status : DriftStatus) (w' : World) :
  run_describe_detection_status P detectionId (world s) = (inr status, w') ->
  DetectionStatus_of status = DETECTION_FAILED ->
  exists error events,
    waitForDriftDetection P detectionId s = (Throw error, advance s events w')
    /\ events = [wait_banner; status_poll detectionId; poll_error_report error]
    /\ polls_in events = 1
    /\ slept_in events = 0%N
    /\ (forall reason,
          StatusReason status = Some reason -> reason <> "" ->
          message error = "ドリフト検出が失敗しました: " ++ reason)
    /\ (StatusReason status = None \/ StatusReason status = Some "" ->
          message error = "ドリフト検出が失敗しました: 不明な理由").
Proof.
  intros Hq Hst.
  exists (detection_failed_error status),
         [wait_banner; status_poll detectionId;
          poll_error_report (detection_failed_error status)].
  split; [| split; [reflexivity | split; [reflexivity | split; [reflexivity | split]]]].
  - rewrite waitForDriftDetection_unfold.
    rewrite (wait_loop_next_poll P detectionId 0 _ (world s));
      [| unfold maxAttempts; lia | constructor].
    unfold bind. cbn [poll_rounds]. rewrite advance_advance, app_nil_r.
    rewrite (poll_failed P detectionId 0 (advance s [wait_banner] (world s))
               status w' Hq Hst).
    rewrite advance_advance. reflexivity.
  - intros reason Hr Hne. unfold detection_failed_error; simpl. rewrite Hr.
    destruct reason; [congruence | reflexivity].
  - intros [Hr | Hr]; unfold detection_failed_error; simpl; rewrite Hr; reflexivity.
Qed.

Lemma waitForDriftDetection_failed_first_poll_witness :
  exists error events,
    waitForDriftDetection (scripted failing_detection) "detection-2" (new_DriftDetector 0)
    = (Throw error, advance (new_DriftDetector 0) events 1)
    /\ events = [wait_banner; status_poll "detection-2"; poll_error_report error]
    /\ polls_in events = 1
    /\ slept_in events = 0%N
    /\ (forall reason,
          StatusReason (status_failed (Some "Internal Failure")) = Some reason ->
          reason <> "" ->
          message error = "ドリフト検出が失敗しました: " ++ reason)
    /\ (StatusReason (status_failed (Some "Internal Failure")) = None
        \/ StatusReason (status_failed (Some "Internal Failure")) = Some "" ->
          message error = "ドリフト検出が失敗しました: 不明な理由").
Proof.
  apply (waitForDriftDetection_failed_first_poll (scripted failing_detection)
           "detection-2" (new_DriftDetector 0)
           (status_failed (Some "Internal Failure")) 1).
  - reflexivity.
  - reflexivity.
Defined.

(** C10. When, after [k < maxAttempts] polls in progress, the status query
    itself throws, [waitForDriftDetection] throws that same error at once:
    the output holds the [k] completed rounds, the poll that threw and the
    error report, so the query is not retried and the [maxAttempts - k - 1]
    attempts that were left are not used. *)
Theorem waitForDriftDetection_transport_error
    {World} (P : Provider World) (detectionId : string) (s : State World)
    (k : nat) (w1 w2 : World) (error : JsError) :
  k < maxAttempts ->
  InProgressRun P detectionId k (world s) w1 ->
  run_describe_detection_status P detectionId w1 = (inl error, w2) ->
  exists events,
    waitForDriftDetection P detectionId s = (Throw error, advance s events w2)
    /\ events = (wait_banner :: poll_rounds detectionId k
                 ++ [status_poll detectionId; poll_error_report error])%list
    /\ polls_in events = k + 1.
Proof.
  intros Hk Hrun Hq.
  eexists. split; [| split; [reflexivity |]].
  - rewrite waitForDriftDetection_unfold.
    rewrite (wait_loop_next_poll P detectionId k
               (advance s [wait_banner] (world s)) w1 Hk Hrun).
    unfold bind.
    rewrite (poll_throws P detectionId k
               (advance (advance s [wait_banner] (world s)) (poll_rounds detectionId k) w1)
               error w2 Hq).
    rewrite !advance_advance. reflexivity.
  - rewrite polls_in_banner. unfold polls_in.
    rewrite filter_app, length_app.
    fold (polls_in (poll_rounds detectionId k)). rewrite polls_in_poll_rounds.
    reflexivity.
Qed.

Lemma waitForDriftDetection_transport_error_witness :
  exists events,
    waitForDriftDetection (scripted throttled_detection) "detection-3" (new_DriftDetector 0)
    = (Throw throttled_error, advance (new_DriftDetector 0) events 3)
    /\ events = (wait_banner :: poll_rounds "detection-3" 2
                 ++ [status_poll "detection-3"; poll_error_report throttled_error])%list
    /\ polls_in events = 2 + 1.
Proof.
  apply (waitForDriftDetection_transport_error (scripted throttled_detection)
           "detection-3" (new_DriftDetector 0) 2 2 3 throttled_error).
  - unfold maxAttempts; lia.
  - apply InProgressRun_S with (w1 := 1) (status := status_in_progress);
      [reflexivity | reflexivity |].
    apply InProgressRun_S with (w1 := 2) (status := status_in_progress);
      [reflexivity | reflexivity |].
    apply InProgressRun_O.
  - reflexivity.
Defined.

(** ** Closing the confirmation channel *)

(** C8. [cleanup] never throws, and calling it a second time changes
    nothing: the first call closes the channel if it is open and forgets it,
    the second call returns normally and leaves the state (detector, output
    and world) exactly as the first call left it, so two calls in a row are
    the same as one. *)
Theorem cleanup_idempotent {World} (s : State World) :
  exists s1,
    cleanup s = (Return tt, s1)
    /\ s1 = mkState (stackName s) None (output s ++ cleanup_events (rl s))%list (world s)
    /\ cleanup s1 = (Return tt, s1)
    /\ (cleanup ;; cleanup) s = cleanup s.
Proof.
  destruct s as [name [i |] out w].
  - eexists. repeat split.
  - eexists. split; [reflexivity |]. cbn [stackName rl output world cleanup_events].
    rewrite app_nil_r. repeat split.
Qed.

(** ** A stack that does not exist *)

(** [checkStackExists] runs the one command, whatever it answers. *)
Lemma checkStackExists_state {World} (P : Provider World) s r s1 :
  checkStackExists P s = (r, s1) ->
  s1 = advance s [execSync (aws_describe_stacks (stackName s))]
                 (snd (run_describe_stacks P (stackName s) (world s))).
Proof.
  unfold checkStackExists, bind, try_catch, run_command, get_stackName, advance.
  destruct (run_describe_stacks P (stackName s) (world s)) as [[e | n] w1]; simpl.
  - destruct (includes (message e) "does not exist"); simpl;
      intros H; inversion H; reflexivity.
  - intros H; inversion H; reflexivity.
Qed.

(** C7. Whenever [checkStackExists] returns false, [detectAndReport]
    returns [{needsRepair: false, stackExists: false}]. Its whole output is
    the describe-stacks command, the notice and what [cleanup] prints: no
    detection is started, polled or described, and nothing is asked; the
    world is the one the describe-stacks command left. *)
Theorem detectAndReport_absent_stack
    {World} (P : Provider World) (s s1 : State World) :
  checkStackExists P s = (Return false, s1) ->
  exists events,
    detectAndReport P s =
      (Return (mkDetectionReport false false None None None),
       mkState (stackName s) None (output s ++ events)%list
               (snd (run_describe_stacks P (stackName s) (world s))))
    /\ events = ([execSync (aws_describe_stacks (stackName s));
                  absent_stack_notice (stackName s)]
                 ++ cleanup_events (rl s))%list
    /\ existsb detection_or_prompt events = false.
Proof.
  intros Hcheck.
  pose proof (checkStackExists_state P s _ s1 Hcheck) as Hs1.
  eexists. split; [| split; [reflexivity |]].
  - unfold detectAndReport, try_finally, try_catch, bind at 1.
    rewrite Hcheck. subst s1.
    destruct s as [name [i |] out w];
      cbv [negb bind get_stackName emit ret cleanup get_rl set_rl advance
           stackName rl output world cleanup_events absent_stack_notice];
      rewrite <- !app_assoc; reflexivity.
  - destruct (rl s); reflexivity.
Qed.

Lemma detectAndReport_absent_stack_witness :
  exists events,
    detectAndReport (scripted absent_stack) (new_DriftDetector 0) =
      (Return (mkDetectionReport false false None None None),
       mkState "IcebergCdkStack" None ([] ++ events)%list 0)
    /\ events = ([execSync (aws_describe_stacks "IcebergCdkStack");
                  absent_stack_notice "IcebergCdkStack"]
                 ++ cleanup_events None)%list
    /\ existsb detection_or_prompt events = false.
Proof.
  apply (detectAndReport_absent_stack (scripted absent_stack) (new_DriftDetector 0)
           (advance (new_DriftDetector 0)
                    [execSync (aws_describe_stacks "IcebergCdkStack")] 0)).
  vm_compute. reflexivity.
Defined.

(** ** Repair *)

Section Repair.
Context {World : Type}.
Variable P : Provider World.

(** How a wait ends after [k] polls in progress, by what comes next. *)
Lemma wait_times_out id s w1 :
  InProgressRun P id maxAttempts (world s) w1 ->
  waitForDriftDetection P id s =
  (Throw timeout_error, advance s (wait_banner :: poll_rounds id maxAttempts) w1).
Proof.
  intros Hrun. rewrite waitForDriftDetection_unfold.
  rewrite (wait_loop_budget_exhausted P id (advance s [wait_banner] (world s)) w1 Hrun).
  rewrite advance_advance. reflexivity.
Qed.

Lemma wait_next_poll id s k w1 :
  k < maxAttempts ->
  InProgressRun P id k (world s) w1 ->
  waitForDriftDetection P id s =
  bind (poll P id k)
       (fun r => match r with
                 | inl status => ret status
                 | inr attempts' => wait_loop P (maxAttempts - k - 1) id attempts'
                 end)
       (advance s (wait_banner :: poll_rounds id k) w1).
Proof.
  intros Hk Hrun. rewrite waitForDriftDetection_unfold.
  rewrite (wait_loop_next_poll P id k (advance s [wait_banner] (world s)) w1 Hk Hrun).
  rewrite advance_advance. reflexivity.
Qed.

Lemma wait_completes id s k w1 status w2 :
  k < maxAttempts ->
  InProgressRun P id k (world s) w1 ->
  run_describe_detection_status P id w1 = (inr status, w2) ->
  DetectionStatus_of status = DETECTION_COMPLETE ->
  waitForDriftDetection P id s =
  (Return status, advance s (wait_banner :: poll_rounds id k ++ [status_poll id]) w2).
Proof.
  intros Hk Hrun Hq Hst. rewrite (wait_next_poll id s k w1 Hk Hrun). unfold bind.
  rewrite (poll_complete P id k (advance s (wait_banner :: poll_rounds id k) w1)
             status w2 Hq Hst).
  unfold ret. rewrite advance_advance. reflexivity.
Qed.

Lemma wait_fails id s k w1 status w2 :
  k < maxAttempts ->
  InProgressRun P id k (world s) w1 ->
  run_describe_detection_status P id w1 = (inr status, w2) ->
  DetectionStatus_of status = DETECTION_FAILED ->
  exists s', waitForDriftDetection P id s = (Throw (detection_failed_error status), s').
Proof.
  intros Hk Hrun Hq Hst. rewrite (wait_next_poll id s k w1 Hk Hrun). unfold bind.
  rewrite (poll_failed P id k (advance s (wait_banner :: poll_rounds id k) w1)
             status w2 Hq Hst).
  eauto.
Qed.

Lemma wait_throws id s k w1 error w2 :
  k < maxAttempts ->
  InProgressRun P id k (world s) w1 ->
  run_describe_detection_status P id w1 = (inl error, w2) ->
  exists s', waitForDriftDetection P id s = (Throw error, s').
Proof.
  intros Hk Hrun Hq. rewrite (wait_next_poll id s k w1 Hk Hrun). unfold bind.
  rewrite (poll_throws P id k (advance s (wait_banner :: poll_rounds id k) w1)
             error w2 Hq).
  eauto.
Qed.

(** Conversely, a wait that returns a status has seen it reported complete. *)
Lemma wait_returns id s status s' :
  waitForDriftDetection P id s = (Return status, s') ->
  exists k w1 w2,
    k < maxAttempts
    /\ InProgressRun P id k (world s) w1
    /\ run_describe_detection_status P id w1 = (inr status, w2)
    /\ DetectionStatus_of status = DETECTION_COMPLETE.
Proof.
  intros Hw. rewrite waitForDriftDetection_unfold in Hw.
  pose proof (wait_loop_result P id maxAttempts 0 (advance s [wait_banner] (world s))
                (Nat.le_0_l _) (Nat.le_sub_l _ _)) as Hr.
  rewrite Hw in Hr.
  inversion Hr as [| k w1 st w2 Hk Hrun Hq Hst | |]; subst.
  exists k, w1, w2. auto.
Qed.

Lemma redeploy_fails s error w1 :
  run_cdk_deploy P (world s) = (inl error, w1) ->
  exists s', redeploy_and_verify P s = (Throw error, s').
Proof.
  intros Hd. unfold redeploy_and_verify, bind, emit, run_command; simpl.
  rewrite Hd. eauto.
Qed.

Lemma redeploy_start_fails s w1 error w2 :
  run_cdk_deploy P (world s) = (inr tt, w1) ->
  run_detect_stack_drift P (stackName s) w1 = (inl error, w2) ->
  exists s', redeploy_and_verify P s = (Throw error, s').
Proof.
  intros Hd Hs.
  unfold redeploy_and_verify, startDriftDetection, console_error_with,
    bind, try_catch, emit, run_command, get_stackName, throw; simpl.
  rewrite Hd; simpl. rewrite Hs; simpl. eauto.
Qed.

Lemma redeploy_then_wait s w1 id w2 :
  run_cdk_deploy P (world s) = (inr tt, w1) ->
  run_detect_stack_drift P (stackName s) w1 = (inr id, w2) ->
  redeploy_and_verify P s =
  bind (waitForDriftDetection P id)
       (fun driftStatus =>
          if StackDriftStatus_eqb (StackDriftStatus_of driftStatus) STACK_IN_SYNC then
            emit (console_log "✅ スタックドリフトの修復が成功しました。すべてのリソースが同期されています") ;;
            ret true
          else
            emit (console_log "⚠️  スタックにまだドリフトが残っている可能性があります。手動で確認することをお勧めします") ;;
            ret false)
       (advance s (redeploy_events (stackName s)) w2).
Proof.
  intros Hd Hs.
  unfold redeploy_and_verify, startDriftDetection at 1.
  unfold bind at 1 2 3 4 5 6 7. unfold try_catch, emit, run_command, get_stackName; simpl.
  rewrite Hd; simpl. rewrite Hs; simpl.
  unfold advance, redeploy_events. rewrite <- !app_assoc. reflexivity.
Qed.

End Repair.

Section RepairDrift.
Context {World : Type}.
Variable P : Provider World.

Lemma terminates_startDriftDetection : terminates (startDriftDetection P).
Proof. unfold startDriftDetection, console_error_with. prove_terminates. Qed.

Lemma terminates_redeploy_and_verify : terminates (redeploy_and_verify P).
Proof.
  unfold redeploy_and_verify.
  repeat (apply terminates_bind; [solve [auto with terminates] | intros _]).
  apply terminates_bind; [apply terminates_startDriftDetection | intros id].
  apply terminates_bind; [apply terminates_waitForDriftDetection | intros st].
  prove_terminates.
Qed.

Lemma repairDrift_caught s error s1 :
  redeploy_and_verify P (repair_entry s) = (Throw error, s1) ->
  repairDrift P s = (Return false, advance s1 [repair_error_report error] (world s1)).
Proof.
  intros H. unfold repairDrift, bind at 1, try_catch.
  change (emit (console_log "🔧 スタックドリフトの修復を開始しています...") s)
    with (Return tt, repair_entry s).
  cbv iota beta. rewrite H. reflexivity.
Qed.

Lemma repairDrift_returned s b s1 :
  redeploy_and_verify P (repair_entry s) = (Return b, s1) ->
  repairDrift P s = (Return b, s1).
Proof.
  intros H. unfold repairDrift, bind at 1, try_catch.
  change (emit (console_log "🔧 スタックドリフトの修復を開始しています...") s)
    with (Return tt, repair_entry s).
  cbv iota beta. rewrite H. reflexivity.
Qed.

Lemma settles_startDriftDetection : settles (startDriftDetection P).
Proof. unfold startDriftDetection, console_error_with. prove_settles. Qed.

Lemma settles_redeploy_and_verify : settles (redeploy_and_verify P).
Proof.
  unfold redeploy_and_verify.
  repeat (apply settles_bind; [solve [auto with settles] | intros _]).
  apply settles_bind; [apply settles_startDriftDetection | intros id].
  apply settles_bind; [apply settles_waitForDriftDetection | intros st].
  prove_settles.
Qed.

Lemma repairDrift_returns s : exists b s', repairDrift P s = (Return b, s').
Proof.
  destruct (settles_cases (redeploy_and_verify P) (repair_entry s)
              settles_redeploy_and_verify) as [(b & s1 & H) | (e & s1 & H)].
  - exists b, s1. apply repairDrift_returned, H.
  - exists false. eexists. apply repairDrift_caught, H.
Qed.

Lemma RepairFailure_throws s :
  RepairFailure P s ->
  exists error s1, redeploy_and_verify P (repair_entry s) = (Throw error, s1).
Proof.
  intros [e w1 Hd | w1 e w2 Hd Hs | w1 id w2 k w3 e w4 Hd Hs Hk Hrun Hq
         | w1 id w2 k w3 st w4 Hd Hs Hk Hrun Hq Hst | w1 id w2 w3 Hd Hs Hrun].
  - exists e. apply (redeploy_fails P (repair_entry s) e w1 Hd).
  - exists e. apply (redeploy_start_fails P (repair_entry s) w1 e w2 Hd Hs).
  - rewrite (redeploy_then_wait P (repair_entry s) w1 id w2 Hd Hs). unfold bind.
    destruct (wait_throws P id (advance (repair_entry s) (redeploy_events (stackName s)) w2)
                k w3 e w4 Hk Hrun Hq) as (s' & Hw).
    cbn [stackName repair_entry advance] in *. rewrite Hw. eauto.
  - rewrite (redeploy_then_wait P (repair_entry s) w1 id w2 Hd Hs). unfold bind.
    destruct (wait_fails P id (advance (repair_entry s) (redeploy_events (stackName s)) w2)
                k w3 st w4 Hk Hrun Hq Hst) as (s' & Hw).
    cbn [stackName repair_entry advance] in *. rewrite Hw. eauto.
  - rewrite (redeploy_then_wait P (repair_entry s) w1 id w2 Hd Hs). unfold bind.
    pose proof (wait_times_out P id
                  (advance (repair_entry s) (redeploy_events (stackName s)) w2)
                  w3 Hrun) as Hw.
    cbn [stackName repair_entry advance] in *. rewrite Hw. eauto.
Qed.

End RepairDrift.

(** C9. [repairDrift] always returns a boolean and never throws; and whenever
    the repair goes wrong (the redeploy fails, the verifying detection cannot
    be started, a status poll throws, detection is reported failed, or the
    poll budget runs out) the boolean is [false]. *)
Theorem repairDrift_never_throws {World} (P : Provider World) (s : State World) :
  (exists b s', repairDrift P s = (Return b, s'))
  /\ (RepairFailure P s -> exists s', repairDrift P s = (Return false, s')).
Proof.
  split.
  - apply repairDrift_returns.
  - intros Hfail.
    destruct (RepairFailure_throws P s Hfail) as (error & s1 & Hthrow).
    eexists. apply repairDrift_caught, Hthrow.
Qed.

Example repairDrift_after_timeout :
  fst (repairDrift (scripted stuck_detection) (new_DriftDetector 0)) = Return false.
Proof. vm_compute. reflexivity. Qed.

Example repairDrift_after_failed_detection :
  fst (repairDrift (scripted failing_detection) (new_DriftDetector 0)) = Return false.
Proof. vm_compute. reflexivity. Qed.

Example repairDrift_after_transport_error :
  fst (repairDrift (scripted throttled_detection) (new_DriftDetector 0)) = Return false.
Proof. vm_compute. reflexivity. Qed.

Lemma repairDrift_never_throws_witness :
  (exists b s', repairDrift (scripted broken_deploy) (new_DriftDetector 0) = (Return b, s'))
  /\ (exists s', repairDrift (scripted broken_deploy) (new_DriftDetector 0)
                 = (Return false, s')).
Proof.
  destruct (repairDrift_never_throws (scripted broken_deploy) (new_DriftDetector 0))
    as [Htotal Hfalse].
  split; [exact Htotal |].
  apply Hfalse. apply (redeploy_failure _ _ deploy_error 0). reflexivity.
Defined.

(** ** What [repairDrift] returns *)

Section RepairOutcome.
Context {World : Type}.
Variable P : Provider World.

Lemma Verified_redeploy_and_verify s status :
  Verified P s status ->
  exists s1,
    redeploy_and_verify P (repair_entry s) =
    (Return (StackDriftStatus_eqb (StackDriftStatus_of status) STACK_IN_SYNC), s1).
Proof.
  intros (w1 & id & w2 & k & w3 & w4 & Hd & Hs & Hk & Hrun & Hq & Hst).
  rewrite (redeploy_then_wait P (repair_entry s) w1 id w2 Hd Hs). unfold bind at 1.
  rewrite (wait_completes P id
             (advance (repair_entry s) (redeploy_events (stackName (repair_entry s))) w2)
             k w3 status w4 Hk Hrun Hq Hst).
  destruct (StackDriftStatus_eqb (StackDriftStatus_of status) STACK_IN_SYNC);
    eexists; reflexivity.
Qed.

Lemma redeploy_and_verify_true s s1 :
  redeploy_and_verify P (repair_entry s) = (Return true, s1) ->
  exists status, Verified P s status /\ StackDriftStatus_of status = STACK_IN_SYNC.
Proof.
  intros Htrue.
  destruct (run_cdk_deploy P (world s)) as [[e | []] w1] eqn:Hd.
  - destruct (redeploy_fails P (repair_entry s) e w1 Hd) as (s' & H). congruence.
  - destruct (run_detect_stack_drift P (stackName s) w1) as [[e | id] w2] eqn:Hs.
    + destruct (redeploy_start_fails P (repair_entry s) w1 e w2 Hd Hs) as (s' & H).
      congruence.
    + rewrite (redeploy_then_wait P (repair_entry s) w1 id w2 Hd Hs) in Htrue.
      unfold bind at 1 in Htrue.
      destruct (waitForDriftDetection P id
                  (advance (repair_entry s) (redeploy_events (stackName (repair_entry s))) w2))
        as [[status | e | | ] s2] eqn:Hw; try discriminate.
      destruct (wait_returns P id _ status s2 Hw) as (k & w3 & w4 & Hk & Hrun & Hq & Hst).
      exists status. split.
      * exists w1, id, w2, k, w3, w4. repeat split; assumption.
      * destruct (StackDriftStatus_eqb (StackDriftStatus_of status) STACK_IN_SYNC) eqn:E.
        -- apply StackDriftStatus_eqb_eq, E.
        -- discriminate.
Qed.

End RepairOutcome.

(** C4, as stated, fails in its last part: when the redeploy command itself
    fails, [repairDrift] reports the error and returns [false]; nothing is
    thrown to the caller. *)
Lemma repairDrift_swallows_redeploy_failure :
  run_cdk_deploy (scripted broken_deploy) (world (new_DriftDetector 0))
  = (inl deploy_error, 0)
  /\ repairDrift (scripted broken_deploy) (new_DriftDetector 0)
     = (Return false,
        advance (new_DriftDetector 0)
          [repair_banner;
           console_log "スタックを再デプロイしています...";
           execSync npx_cdk_deploy;
           repair_error_report deploy_error] 0).
Proof. split; reflexivity. Qed.

(** C4, amended. [repairDrift] returns [true] exactly when the redeploy
    succeeds and the verifying detection completes with the stack IN_SYNC; it
    returns [false], without throwing, when that detection completes with
    any other stack status; and when the redeploy command itself fails it
    also returns [false]: no error reaches the caller. *)
Theorem repairDrift_outcomes {World} (P : Provider World) (s : State World) :
  ((exists s', repairDrift P s = (Return true, s'))
   <-> (exists status,
          Verified P s status /\ StackDriftStatus_of status = STACK_IN_SYNC))
  /\ (forall status,
        Verified P s status -> StackDriftStatus_of status <> STACK_IN_SYNC ->
        exists s', repairDrift P s = (Return false, s'))
  /\ (forall error w1,
        run_cdk_deploy P (world s) = (inl error, w1) ->
        exists s', repairDrift P s = (Return false, s'))
  /\ (forall error s', repairDrift P s <> (Throw error, s')).
Proof.
  repeat split.
  - intros (s' & Htrue).
    destruct (settles_cases (redeploy_and_verify P) (repair_entry s)
                (settles_redeploy_and_verify P)) as [(b & s1 & H) | (e & s1 & H)].
    + rewrite (repairDrift_returned P s b s1 H) in Htrue.
      inversion Htrue; subst. apply (redeploy_and_verify_true P s s' H).
    + rewrite (repairDrift_caught P s e s1 H) in Htrue. discriminate.
  - intros (status & Hv & Hsync).
    destruct (Verified_redeploy_and_verify P s status Hv) as (s1 & H).
    rewrite Hsync in H. exists s1. apply repairDrift_returned, H.
  - intros status Hv Hdrift.
    destruct (Verified_redeploy_and_verify P s status Hv) as (s1 & H).
    destruct (StackDriftStatus_eqb (StackDriftStatus_of status) STACK_IN_SYNC) eqn:E.
    + apply StackDriftStatus_eqb_eq in E. contradiction.
    + exists s1. apply repairDrift_returned, H.
  - intros error w1 Hd.
    destruct (redeploy_fails P (repair_entry s) error w1 Hd) as (s1 & H).
    eexists. apply repairDrift_caught, H.
  - intros error s' Hthrow.
    destruct (repairDrift_returns P s) as (b & s1 & H). congruence.
Qed.

Lemma repairDrift_outcomes_witness :
  exists s', repairDrift (scripted persistent_drift) (new_DriftDetector 0)
             = (Return false, s').
Proof.
  apply (proj1 (proj2 (repairDrift_outcomes (scripted persistent_drift)
                         (new_DriftDetector 0)))
           (status_complete STACK_DRIFTED 1)).
  - exists 0, "detection-6", 0, 1, 1, 2.
    repeat split.
    + unfold maxAttempts; lia.
    + apply InProgressRun_S with (w1 := 1) (status := status_in_progress);
        [reflexivity | reflexivity | apply InProgressRun_O].
  - discriminate.
Defined.

(** ** Inversion of the control operators *)

Section Inversion.
Context {World : Type}.

Lemma bind_Return {A B} (m : M World A) (k : A -> M World B) s b s' :
  bind m k s = (Return b, s') ->
  exists a s1, m s = (Return a, s1) /\ k a s1 = (Return b, s').
Proof.
  unfold bind. destruct (m s) as [[a | e | | ] s1]; intros H; try discriminate.
  exists a, s1. auto.
Qed.

(** A [catch] that reports and rethrows does not change what is returned. *)
Lemma rethrow_Return {A} (m : M World A) label s a s' :
  try_catch m (fun error => console_error_with label error ;; throw error) s
  = (Return a, s') ->
  m s = (Return a, s').
Proof.
  unfold try_catch. destruct (m s) as [[a0 | e | | ] s1]; intros H;
    try discriminate; assumption.
Qed.

Lemma try_finally_Return {A} (m : M World A) fin s a s' :
  try_finally m fin s = (Return a, s') ->
  exists s1, m s = (Return a, s1).
Proof.
  unfold try_finally. destruct (m s) as [[a0 | e | | ] s1]; intros H;
    try discriminate; destruct (fin s1) as [[[] | e' | | ] s2]; try discriminate.
  inversion H; subst. eauto.
Qed.

Lemma terminates_forEach {A} (l : list A) (f : A -> M World unit) :
  (forall a, terminates (f a)) -> terminates (forEach l f).
Proof.
  intros Hf. induction l as [| a rest IH]; simpl.
  - apply terminates_ret.
  - apply terminates_bind; [apply Hf | intros _; exact IH].
Qed.

Lemma terminates_cleanup : terminates (@cleanup World).
Proof.
  unfold cleanup. apply terminates_bind; [apply terminates_get_rl |].
  intros [i |]; prove_terminates.
Qed.

Lemma terminates_createReadlineInterface : terminates (@createReadlineInterface World).
Proof.
  unfold createReadlineInterface. apply terminates_bind; [apply terminates_get_rl |].
  intros [i |]; prove_terminates.
Qed.

End Inversion.

(** ** The full flow and the exit code *)

Section Driver.
Context {World : Type}.
Variable P : Provider World.

Lemma terminates_checkStackExists : terminates (checkStackExists P).
Proof. unfold checkStackExists. prove_terminates. Qed.

Lemma terminates_getDriftDetails : terminates (getDriftDetails P).
Proof. unfold getDriftDetails, console_error_with. prove_terminates. Qed.

Lemma terminates_displayDriftReport driftStatus analysis :
  terminates (displayDriftReport P driftStatus analysis).
Proof.
  unfold displayDriftReport.
  repeat (apply terminates_bind; [solve [auto with terminates] | intros _]).
  apply terminates_bind; [| intros _].
  - apply terminates_if; [| apply terminates_ret].
    apply terminates_bind; [apply terminates_emit | intros _].
    apply terminates_forEach. intros resource. prove_terminates.
  - apply terminates_if; [| apply terminates_ret].
    apply terminates_bind; [apply terminates_emit | intros _].
    apply terminates_forEach. intros resource.
    apply terminates_bind; [apply terminates_emit | intros _].
    apply terminates_bind; [apply terminates_emit | intros _].
    destruct (PropertyDifferences resource) as [[| d ds] |];
      try apply terminates_ret.
    apply terminates_bind; [apply terminates_emit | intros _].
    apply terminates_forEach. intros diff. apply terminates_emit.
Qed.

Lemma terminates_askForRepair analysis : terminates (askForRepair P analysis).
Proof.
  unfold askForRepair. apply terminates_if; [prove_terminates |].
  apply terminates_bind; [apply terminates_emit | intros _].
  apply terminates_bind; [apply terminates_createReadlineInterface | intros _].
  prove_terminates.
Qed.

Lemma terminates_detectAndReport : terminates (detectAndReport P).
Proof.
  unfold detectAndReport, console_error_with.
  apply terminates_try_finally; [| apply terminates_cleanup].
  apply terminates_try_catch; [| intros e; prove_terminates].
  apply terminates_bind; [apply terminates_checkStackExists | intros b].
  apply terminates_if; [prove_terminates |].
  apply terminates_bind; [apply terminates_startDriftDetection | intros id].
  apply terminates_bind; [apply terminates_waitForDriftDetection | intros st].
  apply terminates_bind; [apply terminates_emit | intros _].
  apply terminates_bind; [apply terminates_getDriftDetails | intros ds].
  apply terminates_bind; [apply terminates_displayDriftReport | intros _].
  apply terminates_bind; [apply terminates_askForRepair | intros b'].
  apply terminates_ret.
Qed.

Lemma terminates_repairDrift : terminates (repairDrift P).
Proof.
  intros s. destruct (repairDrift_returns P s) as (b & s' & H).
  rewrite H. discriminate.
Qed.

Lemma terminates_detectAndRepair : terminates (detectAndRepair P).
Proof.
  unfold detectAndRepair.
  apply terminates_bind; [apply terminates_detectAndReport | intros r].
  apply terminates_if; [| apply terminates_ret].
  apply terminates_bind; [apply terminates_repairDrift | intros b].
  apply terminates_ret.
Qed.

(** Without drift nothing is asked and no repair is requested. *)
Lemma askForRepair_in_sync analysis s b s' :
  askForRepair P analysis s = (Return b, s') ->
  drifted analysis = 0 -> b = false.
Proof.
  intros H Hz. unfold askForRepair in H. rewrite Hz in H.
  simpl in H. inversion H. reflexivity.
Qed.

(** A report on an existing stack carries the analysis of the fetched
    drifts, and requests a repair only when that analysis found drift. *)
Lemma detectAndReport_existing s r s' :
  detectAndReport P s = (Return r, s') ->
  stackExists r = true ->
  exists batch,
    drifts r = Some batch
    /\ analysis r = Some (analyzeDrifts batch)
    /\ (drifted (analyzeDrifts batch) = 0 -> needsRepair r = false).
Proof.
  intros H Hexists. unfold detectAndReport in H.
  apply try_finally_Return in H. destruct H as (s1 & H).
  apply rethrow_Return in H.
  apply bind_Return in H. destruct H as (b & s2 & _ & H).
  destruct b; cbn [negb] in H.
  - apply bind_Return in H. destruct H as (id & s3 & _ & H).
    apply bind_Return in H. destruct H as (st & s4 & _ & H).
    apply bind_Return in H. destruct H as (u & s5 & _ & H).
    apply bind_Return in H. destruct H as (batch & s6 & _ & H).
    cbv zeta in H.
    apply bind_Return in H. destruct H as (u' & s7 & _ & H).
    apply bind_Return in H. destruct H as (shouldRepair & s8 & Hask & H).
    inversion H; subst. exists batch. cbn.
    repeat split. intros Hz. apply (askForRepair_in_sync _ _ _ _ Hask Hz).
  - apply bind_Return in H. destruct H as (name & s3 & _ & H).
    apply bind_Return in H. destruct H as (u & s4 & _ & H).
    inversion H; subst. discriminate.
Qed.

(** [detectAndRepair] passes the report on and attempts the repair exactly
    when the report asks for it. *)
Lemma detectAndRepair_result s r s' :
  detectAndRepair P s = (Return r, s') ->
  (exists s1, detectAndReport P s = (Return (result r), s1))
  /\ repairAttempted r = needsRepair (result r)
  /\ (repairSuccess r = true -> repairAttempted r = true).
Proof.
  intros H. unfold detectAndRepair in H.
  apply bind_Return in H. destruct H as (report & s1 & Hreport & H).
  destruct (needsRepair report) eqn:Hneeds.
  - apply bind_Return in H. destruct H as (ok & s2 & _ & H).
    inversion H; subst. cbn. rewrite Hneeds. eauto.
  - inversion H; subst. cbn. rewrite Hneeds. split; [eauto | split; auto].
Qed.

Lemma driver_returned s r s1 :
  detectAndRepair P s = (Return r, s1) ->
  exists s', driver P s = (Return (exit_code r), s').
Proof.
  intros H. unfold driver, try_catch, bind at 1. rewrite H.
  unfold bind, emit, ret.
  destruct (stackExists (result r)); [destruct (repairAttempted r) |];
    eexists; reflexivity.
Qed.

Lemma driver_caught s error s1 :
  detectAndRepair P s = (Throw error, s1) ->
  exists s', driver P s = (Return 1, s').
Proof.
  intros H. unfold driver, try_catch, bind at 1. rewrite H.
  eexists; reflexivity.
Qed.

Lemma exit_code_zero r :
  exit_code r = 0 <->
  stackExists (result r) = true
  /\ (needsRepair (result r) = false \/ repairSuccess r = true).
Proof.
  unfold exit_code.
  destruct (stackExists (result r)), (needsRepair (result r)), (repairSuccess r);
    simpl; split; intros H; try discriminate; try tauto;
    destruct H as [H1 [H2 | H2]]; discriminate.
Qed.

Lemma exit_code_values r : exit_code r = 0 \/ exit_code r = 1.
Proof.
  unfold exit_code.
  destruct (stackExists (result r) && (negb (needsRepair (result r)) || repairSuccess r));
    auto.
Qed.

End Driver.

(** C5, as stated, fails: in the end-to-end scenario the stack exists, two
    resources have drifted, the user declines, no repair is attempted, and
    the script exits with code 0. *)
Lemma exit_code_zero_with_unrepaired_drift :
  exists s1,
    detectAndRepair (scripted declined_repair) (new_DriftDetector 0)
    = (Return
         {| result :=
              {| needsRepair := false;
                 stackExists := true;
                 driftStatus := Some (status_complete STACK_DRIFTED 2);
                 analysis := Some {| total := 3; drifted := 2; deleted := [bucket_x];
                                     modified := [workgroup_1]; inSync := 1 |};
                 drifts := Some [bucket_x; workgroup_1; glue_database] |};
            repairAttempted := false;
            repairSuccess := false |},
       s1)
    /\ fst (main (scripted declined_repair) 0) = Return 0.
Proof. eexists. split; vm_compute; reflexivity. Qed.

Example accepted_repair_exit : fst (main (scripted accepted_repair) 0) = Return 0.
Proof. vm_compute. reflexivity. Qed.

Example absent_stack_exit : fst (main (scripted absent_stack) 0) = Return 1.
Proof. vm_compute. reflexivity. Qed.

Example broken_deploy_exit :
  fst (main (scripted
         {| stacks_reply := inr 1;
            detect_reply := inr "detection-9";
            status_reply := fun _ => inr (status_complete STACK_DRIFTED 1);
            drifts_reply := inr [bucket_x];
            deploy_reply := inl deploy_error;
            typed_answer := Some "y" |}) 0) = Return 1.
Proof. vm_compute. reflexivity. Qed.

Example accepted_repair_result :
  exists r s',
    detectAndRepair (scripted accepted_repair) (new_DriftDetector 0) = (Return r, s')
    /\ needsRepair (result r) = true
    /\ repairAttempted r = true
    /\ repairSuccess r = true.
Proof. do 2 eexists. split; [vm_compute; reflexivity |]. repeat split. Qed.

Example is_yes_answers :
  is_yes "y" = true /\ is_yes "Y" = true /\ is_yes "yes" = true /\ is_yes "YES" = true
  /\ is_yes "" = false /\ is_yes "n" = false /\ is_yes "yes please" = false.
Proof. repeat split. Qed.

(** * Further properties of the detector and of its callers *)

(** ** Strings *)

Lemma prefix_app (sub s : string) :
  prefix sub s = true <-> exists after, s = sub ++ after.
Proof.
  revert s. induction sub as [| c sub IH]; intros s; simpl.
  - split; [intros _; exists s; reflexivity | intros _; destruct s; reflexivity].
  - destruct s as [| d s]; simpl.
    + split; [discriminate | intros (after & H); discriminate].
    + destruct (ascii_dec c d) as [Heq | Hne].
      * subst d. rewrite IH. split.
        -- intros (after & H). exists after. rewrite H. reflexivity.
        -- intros (after & H). inversion H. exists after. reflexivity.
      * split; [discriminate |].
        intros (after & H). inversion H. congruence.
Qed.

(** [includes] finds exactly the substrings. *)
Lemma includes_Substring (s sub : string) :
  includes s sub = true <-> Substring sub s.
Proof.
  unfold Substring. induction s as [| c s IH]; cbn [includes].
  - rewrite orb_false_r, prefix_app. split.
    + intros (after & H). exists "", after. exact H.
    + intros (before & after & H). destruct before as [| b before]; simpl in H.
      * exists after. exact H.
      * discriminate.
  - rewrite orb_true_iff, IH, prefix_app. split.
    + intros [(after & H) | (before & after & H)].
      * exists "", after. exact H.
      * exists (String c before), after. simpl. rewrite H. reflexivity.
    + intros (before & after & H). destruct before as [| b before]; simpl in H.
      * left. exists after. exact H.
      * right. inversion H. exists before, after. reflexivity.
Qed.

Lemma lower_ascii_letter (c : ascii) :
  (Ascii.eqb (lower_ascii c) "y" = Ascii.eqb c "y" || Ascii.eqb c "Y")
  /\ (Ascii.eqb (lower_ascii c) "e" = Ascii.eqb c "e" || Ascii.eqb c "E")
  /\ (Ascii.eqb (lower_ascii c) "s" = Ascii.eqb c "s" || Ascii.eqb c "S").
Proof.
  destruct c as [[] [] [] [] [] [] [] []]; vm_compute; repeat split.
Qed.

Lemma lower_ascii_y c : lower_ascii c = "y"%char <-> c = "y"%char \/ c = "Y"%char.
Proof.
  rewrite <- !Ascii.eqb_eq, <- orb_true_iff.
  rewrite (proj1 (lower_ascii_letter c)). reflexivity.
Qed.

Lemma lower_ascii_e c : lower_ascii c = "e"%char <-> c = "e"%char \/ c = "E"%char.
Proof.
  rewrite <- !Ascii.eqb_eq, <- orb_true_iff.
  rewrite (proj1 (proj2 (lower_ascii_letter c))). reflexivity.
Qed.

Lemma lower_ascii_s c : lower_ascii c = "s"%char <-> c = "s"%char \/ c = "S"%char.
Proof.
  rewrite <- !Ascii.eqb_eq, <- orb_true_iff.
  rewrite (proj2 (proj2 (lower_ascii_letter c))). reflexivity.
Qed.

(** X1. The answers that [askForRepair] (and the prompt of [preTestCheck])
    take for a yes are exactly [y] and [yes] in any mix of upper and lower
    case: nothing else, not even one with a space around it, is accepted. *)
Theorem is_yes_answers_exactly (answer : string) :
  is_yes answer = true <->
  In answer ["y"; "Y"; "yes"; "yeS"; "yEs"; "yES"; "Yes"; "YeS"; "YEs"; "YES"].
Proof.
  split.
  - unfold is_yes. rewrite orb_true_iff, !String.eqb_eq.
    destruct answer as [| c1 [| c2 [| c3 [| c4 rest]]]]; simpl;
      intros [H | H]; try discriminate.
    + injection H as H1.
      apply lower_ascii_y in H1. destruct H1; subst; auto.
    + injection H as H1 H2 H3.
      apply lower_ascii_y in H1. apply lower_ascii_e in H2. apply lower_ascii_s in H3.
      destruct H1, H2, H3; subst; simpl; auto 12.
  - simpl. intros H.
    repeat (destruct H as [H | H]; [subst; reflexivity |]). contradiction.
Qed.

(** ** Running a sequence step by step *)

Section Running.
Context {World : Type}.

Lemma bind_run {A B} (m : M World A) (k : A -> M World B) s a s1 :
  m s = (Return a, s1) -> bind m k s = k a s1.
Proof. intros H. unfold bind. rewrite H. reflexivity. Qed.

Lemma bind_throw {A B} (m : M World A) (k : A -> M World B) s e s1 :
  m s = (Throw e, s1) -> bind m k s = (Throw e, s1).
Proof. intros H. unfold bind. rewrite H. reflexivity. Qed.

Lemma and_then_run {A B} (m : M World A) (k : A -> Proc World B) s a s1 :
  m s = (Return a, s1) -> and_then (lift m) k s = k a s1.
Proof. intros H. unfold and_then, lift, bind. rewrite H. reflexivity. Qed.

Lemma and_then_throw {A B} (m : M World A) (k : A -> Proc World B) s e s1 :
  m s = (Throw e, s1) -> and_then (lift m) k s = (Throw e, s1).
Proof. intros H. unfold and_then, lift, bind. rewrite H. reflexivity. Qed.

Lemma bind_wait {A B} (m : M World A) (k : A -> M World B) s s1 :
  m s = (Pending, s1) -> bind m k s = (Pending, s1).
Proof. intros H. unfold bind. rewrite H. reflexivity. Qed.

Lemma and_then_wait {A B} (m : M World A) (k : A -> Proc World B) s s1 :
  m s = (Pending, s1) -> and_then (lift m) k s = (Pending, s1).
Proof. intros H. unfold and_then, lift, bind. rewrite H. reflexivity. Qed.

(** A [catch] has nothing to do when the block does not throw. *)
Lemma try_catch_quiet {A} (m : M World A) handler s o s1 :
  m s = (o, s1) -> (forall e, o <> Throw e) -> try_catch m handler s = (o, s1).
Proof.
  intros H Ho. unfold try_catch. rewrite H.
  destruct o as [a | e | | ]; try reflexivity. contradiction (Ho e eq_refl).
Qed.

Lemma emit_run ev (s : State World) :
  emit ev s = (Return tt, advance s [ev] (world s)).
Proof. reflexivity. Qed.

Lemma and_then_Return {A B} (m : M World A) (k : A -> Proc World B) s b s' :
  and_then (lift m) k s = (Return (inr b), s') ->
  exists a s1, m s = (Return a, s1) /\ k a s1 = (Return (inr b), s').
Proof.
  unfold and_then, lift, bind.
  destruct (m s) as [[a | e | | ] s1]; intros H; try discriminate.
  exists a, s1. auto.
Qed.

End Running.

(** ** The single commands *)

Section Commands.
Context {World : Type}.
Variable P : Provider World.

Lemma checkStackExists_listed s n w1 :
  run_describe_stacks P (stackName s) (world s) = (inr n, w1) ->
  checkStackExists P s =
  (Return (0 <? n)%nat, advance s [execSync (aws_describe_stacks (stackName s))] w1).
Proof.
  intros H. unfold checkStackExists, bind, try_catch, run_command, get_stackName.
  cbn [fst snd stackName world]. rewrite H. reflexivity.
Qed.

Lemma checkStackExists_not_found s error w1 :
  run_describe_stacks P (stackName s) (world s) = (inl error, w1) ->
  includes (message error) "does not exist" = true ->
  checkStackExists P s =
  (Return false, advance s [execSync (aws_describe_stacks (stackName s))] w1).
Proof.
  intros H Hinc. unfold checkStackExists, bind, try_catch, run_command, get_stackName.
  cbn [fst snd stackName world]. rewrite H. cbv iota beta. rewrite Hinc. reflexivity.
Qed.

Lemma checkStackExists_broken s error w1 :
  run_describe_stacks P (stackName s) (world s) = (inl error, w1) ->
  includes (message error) "does not exist" = false ->
  checkStackExists P s =
  (Throw error, advance s [execSync (aws_describe_stacks (stackName s))] w1).
Proof.
  intros H Hinc. unfold checkStackExists, bind, try_catch, run_command, get_stackName.
  cbn [fst snd stackName world]. rewrite H. cbv iota beta. rewrite Hinc. reflexivity.
Qed.

Lemma startDriftDetection_started s id w1 :
  run_detect_stack_drift P (stackName s) (world s) = (inr id, w1) ->
  startDriftDetection P s =
  (Return id,
   advance s [start_banner (stackName s); execSync (aws_detect_stack_drift (stackName s))] w1).
Proof.
  intros H.
  unfold startDriftDetection, bind, try_catch, run_command, get_stackName, emit.
  cbn [fst snd stackName world rl output]. rewrite H.
  unfold advance. rewrite <- app_assoc. reflexivity.
Qed.

Lemma startDriftDetection_refused s error w1 :
  run_detect_stack_drift P (stackName s) (world s) = (inl error, w1) ->
  exists s1,
    startDriftDetection P s = (Throw error, s1)
    /\ s1 = advance s [start_banner (stackName s);
                       execSync (aws_detect_stack_drift (stackName s));
                       console_error ("❌ ドリフト検出の開始に失敗しました:" ++ " " ++ message error)]
                    w1.
Proof.
  intros H. eexists. split; [| reflexivity].
  unfold startDriftDetection, console_error_with, bind, try_catch, run_command,
    get_stackName, emit, throw.
  cbn [fst snd stackName world rl output]. rewrite H.
  cbn [fst snd stackName world rl output].
  unfold advance. rewrite <- !app_assoc. reflexivity.
Qed.

Lemma getDriftDetails_fetched s batch w1 :
  run_describe_resource_drifts P (stackName s) (world s) = (inr batch, w1) ->
  getDriftDetails P s =
  (Return batch, advance s [execSync (aws_describe_stack_resource_drifts (stackName s))] w1).
Proof.
  intros H. unfold getDriftDetails, bind, try_catch, run_command, get_stackName.
  cbn [fst snd stackName world]. rewrite H. reflexivity.
Qed.

Lemma getDriftDetails_refused s error w1 :
  run_describe_resource_drifts P (stackName s) (world s) = (inl error, w1) ->
  exists s1,
    getDriftDetails P s = (Throw error, s1)
    /\ s1 = advance s [execSync (aws_describe_stack_resource_drifts (stackName s));
                       console_error ("❌ ドリフト詳細の取得に失敗しました:" ++ " " ++ message error)]
                    w1.
Proof.
  intros H. eexists. split; [| reflexivity].
  unfold getDriftDetails, console_error_with, bind, try_catch, run_command,
    get_stackName, emit, throw.
  cbn [fst snd stackName world rl output]. rewrite H.
  cbn [fst snd stackName world rl output].
  unfold advance. rewrite <- !app_assoc. reflexivity.
Qed.

(** What a returned value tells about the command behind it. *)
Lemma checkStackExists_true s s1 :
  checkStackExists P s = (Return true, s1) ->
  exists n,
    run_describe_stacks P (stackName s) (world s) = (inr n, world s1)
    /\ 0 < n
    /\ s1 = advance s [execSync (aws_describe_stacks (stackName s))] (world s1).
Proof.
  intros H.
  destruct (run_describe_stacks P (stackName s) (world s)) as [[e | n] w1] eqn:Hq.
  - destruct (includes (message e) "does not exist") eqn:Hinc.
    + rewrite (checkStackExists_not_found s e w1 Hq Hinc) in H. discriminate.
    + rewrite (checkStackExists_broken s e w1 Hq Hinc) in H. discriminate.
  - rewrite (checkStackExists_listed s n w1 Hq) in H. inversion H; subst.
    exists n. cbn [world advance]. repeat split.
    apply Nat.ltb_lt. assumption.
Qed.

Lemma startDriftDetection_Return s id s1 :
  startDriftDetection P s = (Return id, s1) ->
  run_detect_stack_drift P (stackName s) (world s) = (inr id, world s1)
  /\ stackName s1 = stackName s /\ rl s1 = rl s.
Proof.
  intros H.
  destruct (run_detect_stack_drift P (stackName s) (world s)) as [[e | id'] w1] eqn:Hq.
  - destruct (startDriftDetection_refused s e w1 Hq) as (s' & H' & _). congruence.
  - rewrite (startDriftDetection_started s id' w1 Hq) in H. inversion H; subst.
    repeat split.
Qed.

Lemma getDriftDetails_Return s batch s1 :
  getDriftDetails P s = (Return batch, s1) ->
  run_describe_resource_drifts P (stackName s) (world s) = (inr batch, world s1)
  /\ stackName s1 = stackName s /\ rl s1 = rl s.
Proof.
  intros H.
  destruct (run_describe_resource_drifts P (stackName s) (world s))
    as [[e | batch'] w1] eqn:Hq.
  - destruct (getDriftDetails_refused s e w1 Hq) as (s' & H' & _). congruence.
  - rewrite (getDriftDetails_fetched s batch' w1 Hq) in H. inversion H; subst.
    repeat split.
Qed.

(** A wait that returns a status has seen it reported complete, and leaves
    the world where that poll left it. *)
Lemma wait_returns_world id s status s' :
  waitForDriftDetection P id s = (Return status, s') ->
  exists k w1,
    k < maxAttempts
    /\ InProgressRun P id k (world s) w1
    /\ run_describe_detection_status P id w1 = (inr status, world s')
    /\ DetectionStatus_of status = DETECTION_COMPLETE
    /\ stackName s' = stackName s /\ rl s' = rl s.
Proof.
  intros Hw. rewrite waitForDriftDetection_unfold in Hw.
  pose proof (wait_loop_result P id maxAttempts 0 (advance s [wait_banner] (world s))
                (Nat.le_0_l _) (Nat.le_sub_l _ _)) as Hr.
  rewrite Hw in Hr.
  inversion Hr as [| k w1 st w2 Hk Hrun Hq Hst | |]; subst.
  exists k, w1. cbn [world advance stackName rl]. repeat split; assumption.
Qed.

End Commands.

(** X2. [checkStackExists] runs the describe-stacks command exactly once and
    does nothing else that can be observed: it writes nothing itself (no
    [console.log], no [console.error], no write to the standard output),
    does not sleep, uses no [readline] and runs no other command. What the
    [aws] child prints on the standard error it shares with the process
    belongs to the run of the command. It returns whether at least one
    stack is listed; it returns [false] when the command fails with a
    message containing [does not exist]; any other failure is thrown on
    unchanged. *)
Theorem checkStackExists_outcomes
    {World} (P : Provider World) (s : State World) (reply : JsError + nat) (w1 : World) :
  run_describe_stacks P (stackName s) (world s) = (reply, w1) ->
  (exists events,
     snd (checkStackExists P s) = advance s events w1
     /\ events = [execSync (aws_describe_stacks (stackName s))]
     /\ filter own_writing events = [])
  /\ (forall n, reply = inr n ->
        fst (checkStackExists P s) = Return (0 <? n)%nat)
  /\ (forall error, reply = inl error ->
        Substring "does not exist" (message error) ->
        fst (checkStackExists P s) = Return false)
  /\ (forall error, reply = inl error ->
        ~ Substring "does not exist" (message error) ->
        fst (checkStackExists P s) = Throw error).
Proof.
  intros Hq. destruct reply as [e | n].
  - destruct (includes (message e) "does not exist") eqn:Hinc.
    + rewrite (checkStackExists_not_found P s e w1 Hq Hinc).
      split; [eexists; repeat split |].
      repeat split; intros; try discriminate.
      exfalso. match goal with H : ~ _ , H' : inl _ = inl _ |- _ =>
        inversion H'; subst; apply H, includes_Substring, Hinc end.
    + rewrite (checkStackExists_broken P s e w1 Hq Hinc).
      split; [eexists; repeat split |].
      repeat split; intros; try discriminate.
      * exfalso. match goal with H : Substring _ _ , H' : inl _ = inl _ |- _ =>
          inversion H'; subst; apply includes_Substring in H; congruence end.
      * match goal with H' : inl _ = inl _ |- _ => inversion H'; reflexivity end.
  - rewrite (checkStackExists_listed P s n w1 Hq).
    split; [eexists; repeat split |].
    repeat split; intros; try discriminate.
    match goal with H' : inr _ = inr _ |- _ => inversion H'; reflexivity end.
Qed.

Lemma checkStackExists_outcomes_witness :
  fst (checkStackExists (scripted missing_credentials) (new_DriftDetector 0))
  = Throw credentials_error.
Proof.
  apply (proj2 (proj2 (proj2
           (checkStackExists_outcomes (scripted missing_credentials) (new_DriftDetector 0)
              (inl credentials_error) 0 eq_refl)))
           credentials_error eq_refl).
  intros H. apply includes_Substring in H. vm_compute in H. discriminate.
Defined.

Example checkStackExists_empty_listing :
  fst (checkStackExists (scripted empty_listing) (new_DriftDetector 0)) = Return false.
Proof. vm_compute. reflexivity. Qed.

(** ** More on the polling loop *)

Lemma polls_in_app ev1 ev2 : polls_in (ev1 ++ ev2) = polls_in ev1 + polls_in ev2.
Proof. unfold polls_in. rewrite filter_app, length_app. reflexivity. Qed.

Lemma slept_in_app ev1 ev2 : slept_in (ev1 ++ ev2) = (slept_in ev1 + slept_in ev2)%N.
Proof.
  induction ev1 as [| ev rest IH]; [reflexivity |].
  destruct ev; cbn [app slept_in]; rewrite IH; lia.
Qed.

(** X3. When, after [k < maxAttempts] polls in progress, a poll reports
    DETECTION_COMPLETE, [waitForDriftDetection] returns that poll's snapshot:
    it has made [k + 1] polls, slept ten seconds after each of the first [k]
    and not after the last, and it reports no error. *)
Theorem waitForDriftDetection_completes
    {World} (P : Provider World) (detectionId : string) (s : State World)
    (k : nat) (w1 w2 : World) (status : DriftStatus) :
  k < maxAttempts ->
  InProgressRun P detectionId k (world s) w1 ->
  run_describe_detection_status P detectionId w1 = (inr status, w2) ->
  DetectionStatus_of status = DETECTION_COMPLETE ->
  exists events,
    waitForDriftDetection P detectionId s = (Return status, advance s events w2)
    /\ events = (wait_banner :: poll_rounds detectionId k ++ [status_poll detectionId])%list
    /\ polls_in events = k + 1
    /\ slept_in events = (10000 * N.of_nat k)%N.
Proof.
  intros Hk Hrun Hq Hst. eexists.
  split; [apply (wait_completes P detectionId s k w1 status w2 Hk Hrun Hq Hst) |].
  split; [reflexivity |]. split.
  - rewrite polls_in_banner, polls_in_app, polls_in_poll_rounds. reflexivity.
  - rewrite slept_in_banner, slept_in_app, slept_in_poll_rounds.
    cbn [slept_in status_poll]. lia.
Qed.

Lemma waitForDriftDetection_completes_witness :
  exists events,
    waitForDriftDetection (scripted healthy_stack) "detection-11" (new_DriftDetector 0)
    = (Return (status_complete STACK_IN_SYNC 0), advance (new_DriftDetector 0) events 4)
    /\ events = (wait_banner :: poll_rounds "detection-11" 3
                 ++ [status_poll "detection-11"])%list
    /\ polls_in events = 3 + 1
    /\ slept_in events = (10000 * N.of_nat 3)%N.
Proof.
  apply (waitForDriftDetection_completes (scripted healthy_stack) "detection-11"
           (new_DriftDetector 0) 3 3 4 (status_complete STACK_IN_SYNC 0)).
  - unfold maxAttempts; lia.
  - apply InProgressRun_S with (w1 := 1) (status := status_in_progress);
      [reflexivity | reflexivity |].
    apply InProgressRun_S with (w1 := 2) (status := status_in_progress);
      [reflexivity | reflexivity |].
    apply InProgressRun_S with (w1 := 3) (status := status_in_progress);
      [reflexivity | reflexivity |].
    apply InProgressRun_O.
  - reflexivity.
  - reflexivity.
Defined.

(** X4. Whatever the status query answers, [waitForDriftDetection] ends, by
    a status or by an error: it makes at most [maxAttempts = 30] polls,
    sleeps at most 300 seconds, ten seconds for each poll but possibly the
    last, keeps the detector as it was, and a status it returns is one that
    was reported DETECTION_COMPLETE. *)
Theorem waitForDriftDetection_always_bounded
    {World} (P : Provider World) (detectionId : string) (s : State World) :
  exists events w',
    snd (waitForDriftDetection P detectionId s) = advance s events w'
    /\ fst (waitForDriftDetection P detectionId s) <> OutOfFuel
    /\ fst (waitForDriftDetection P detectionId s) <> Pending
    /\ 1 <= polls_in events <= maxAttempts
    /\ (slept_in events <= 300000)%N
    /\ (slept_in events = 10000 * N.of_nat (polls_in events)
        \/ slept_in events = 10000 * N.of_nat (polls_in events - 1))%N
    /\ (forall status,
          fst (waitForDriftDetection P detectionId s) = Return status ->
          DetectionStatus_of status = DETECTION_COMPLETE).
Proof.
  rewrite waitForDriftDetection_unfold.
  pose proof (wait_loop_result P detectionId maxAttempts 0
                (advance s [wait_banner] (world s))
                (Nat.le_0_l _) (Nat.le_sub_l _ _)) as Hr.
  destruct (wait_loop P maxAttempts detectionId 0 (advance s [wait_banner] (world s)))
    as [o s1].
  inversion Hr as [k w1 Hk Hrun | k w1 st w2 Hk Hrun Hq Hst
                  | k w1 st w2 Hk Hrun Hq Hst | k w1 e w2 Hk Hrun Hq]; subst;
    rewrite advance_advance; cbn [fst snd]; eexists; eexists;
    (split; [reflexivity |]); (split; [discriminate |]); (split; [discriminate |]);
    cbn [app]; rewrite polls_in_banner, slept_in_banner;
    rewrite ?polls_in_app, ?slept_in_app, polls_in_poll_rounds, slept_in_poll_rounds;
    cbn [Nat.add] in Hk; unfold maxAttempts in *;
    cbn [polls_in filter is_status_poll status_poll length slept_in poll_error_report].
  - split; [lia |]. split; [lia |]. split; [left; lia |].
    intros status H; discriminate.
  - split; [lia |]. split; [lia |]. split; [right; lia |].
    intros status H. inversion H; subst. assumption.
  - split; [lia |]. split; [lia |]. split; [right; lia |].
    intros status H; discriminate.
  - split; [lia |]. split; [lia |]. split; [right; lia |].
    intros status H; discriminate.
Qed.

(** ** Following the output of a computation *)

Lemma replay_app r ev1 ev2 :
  replay r (ev1 ++ ev2) =
  match replay r ev1 with
  | Some r' => replay r' ev2
  | None => None
  end.
Proof.
  revert r. induction ev1 as [| ev rest IH]; intros r; cbn [app replay].
  - reflexivity.
  - destruct (replay_event r ev) as [r' |]; [apply IH | reflexivity].
Qed.

Lemma replay_event_other r ev : is_readline ev = false -> replay_event r ev = Some r.
Proof. destruct ev, r; simpl; intros H; try discriminate; reflexivity. Qed.

(** Output without any use of the terminal replays to the same [rl]. *)
Lemma replay_no_readline r events :
  forallb (fun ev => negb (is_readline ev)) events = true -> replay r events = Some r.
Proof.
  induction events as [| ev rest IH]; cbn [forallb replay]; [reflexivity |].
  intros H. apply andb_true_iff in H. destruct H as [Hev Hrest].
  rewrite (replay_event_other r ev) by (destruct (is_readline ev); [discriminate | reflexivity]).
  apply IH, Hrest.
Qed.

Section Tracking.
Context {World : Type}.
Variable Q : Event -> bool.

Lemma Tracks_ret {A} (a : A) : Tracks Q (@ret World A a).
Proof. intros s. exists []. cbn. rewrite app_nil_r. auto. Qed.

Lemma Tracks_throw {A} e : Tracks Q (@throw World A e).
Proof. intros s. exists []. cbn. rewrite app_nil_r. auto. Qed.

Lemma Tracks_get_stackName : Tracks Q (@get_stackName World).
Proof. intros s. exists []. cbn. rewrite app_nil_r. auto. Qed.

Lemma Tracks_get_rl : Tracks Q (@get_rl World).
Proof. intros s. exists []. cbn. rewrite app_nil_r. auto. Qed.

Lemma Tracks_emit ev :
  Q ev = true -> is_readline ev = false -> Tracks Q (@emit World ev).
Proof.
  intros HQ Hev s. exists [ev]. cbn [emit snd output rl forallb replay].
  rewrite HQ, (replay_event_other (rl s) ev Hev). auto.
Qed.

Lemma Tracks_run_command {A} cmd (reply : World -> (JsError + A) * World) :
  Q (execSync cmd) = true -> Tracks Q (run_command cmd reply).
Proof.
  intros HQ s. exists [execSync cmd]. unfold run_command.
  destruct (reply (world s)) as [[e | a] w']; cbn [snd output rl forallb replay];
    rewrite HQ; destruct (rl s); auto.
Qed.

Lemma Tracks_bind {A B} (m : M World A) (k : A -> M World B) :
  Tracks Q m -> (forall a, Tracks Q (k a)) -> Tracks Q (bind m k).
Proof.
  intros Hm Hk s. destruct (Hm s) as (ev1 & Ho & HQ & Hr). unfold bind.
  destruct (m s) as [[a | e | | ] s1]; cbn [snd] in *.
  - destruct (Hk a s1) as (ev2 & Ho2 & HQ2 & Hr2).
    exists (ev1 ++ ev2)%list.
    rewrite Ho2, Ho, app_assoc, forallb_app, HQ, HQ2, replay_app, Hr, Hr2. auto.
  - exists ev1. auto.
  - exists ev1. auto.
  - exists ev1. auto.
Qed.

Lemma Tracks_try_catch {A} (m : M World A) handler :
  Tracks Q m -> (forall e, Tracks Q (handler e)) -> Tracks Q (try_catch m handler).
Proof.
  intros Hm Hh s. destruct (Hm s) as (ev1 & Ho & HQ & Hr). unfold try_catch.
  destruct (m s) as [[a | e | | ] s1]; cbn [snd] in *.
  - exists ev1. auto.
  - destruct (Hh e s1) as (ev2 & Ho2 & HQ2 & Hr2).
    exists (ev1 ++ ev2)%list.
    rewrite Ho2, Ho, app_assoc, forallb_app, HQ, HQ2, replay_app, Hr, Hr2. auto.
  - exists ev1. auto.
  - exists ev1. auto.
Qed.

Lemma Tracks_try_finally {A} (m : M World A) fin :
  Tracks Q m -> Tracks Q fin -> Tracks Q (try_finally m fin).
Proof.
  intros Hm Hf s. destruct (Hm s) as (ev1 & Ho & HQ & Hr). unfold try_finally.
  destruct (m s) as [[a | e | | ] s1]; cbn [snd] in *;
    try (exists ev1; auto; fail);
    destruct (Hf s1) as (ev2 & Ho2 & HQ2 & Hr2);
    exists (ev1 ++ ev2)%list;
    destruct (fin s1) as [[[] | e' | | ] s2]; cbn [snd] in *;
    rewrite Ho2, Ho, app_assoc, forallb_app, HQ, HQ2, replay_app, Hr, Hr2; auto.
Qed.

Lemma Tracks_finally_unless_exited {A} (m : Proc World A) fin :
  Tracks Q m -> Tracks Q fin -> Tracks Q (finally_unless_exited m fin).
Proof.
  intros Hm Hf s. destruct (Hm s) as (ev1 & Ho & HQ & Hr). unfold finally_unless_exited.
  destruct (m s) as [[[code | a] | e | | ] s1]; cbn [snd] in *;
    try (exists ev1; auto; fail);
    destruct (Hf s1) as (ev2 & Ho2 & HQ2 & Hr2);
    exists (ev1 ++ ev2)%list;
    destruct (fin s1) as [[[] | e' | | ] s2]; cbn [snd] in *;
    rewrite Ho2, Ho, app_assoc, forallb_app, HQ, HQ2, replay_app, Hr, Hr2; auto.
Qed.

Lemma Tracks_if {A} (b : bool) (m1 m2 : M World A) :
  Tracks Q m1 -> Tracks Q m2 -> Tracks Q (if b then m1 else m2).
Proof. destruct b; auto. Qed.

Lemma Tracks_lift {A} (m : M World A) : Tracks Q m -> Tracks Q (lift m).
Proof.
  intros Hm. unfold lift. apply Tracks_bind; [exact Hm | intros a; apply Tracks_ret].
Qed.

Lemma Tracks_exit {A} code : Tracks Q (@exit World A code).
Proof. apply Tracks_ret. Qed.

Lemma Tracks_and_then {A B} (m : Proc World A) (k : A -> Proc World B) :
  Tracks Q m -> (forall a, Tracks Q (k a)) -> Tracks Q (and_then m k).
Proof.
  intros Hm Hk. unfold and_then. apply Tracks_bind; [exact Hm |].
  intros [code | a]; [apply Tracks_ret | apply Hk].
Qed.

Lemma Tracks_forEach {A} (l : list A) (f : A -> M World unit) :
  (forall a, Tracks Q (f a)) -> Tracks Q (forEach l f).
Proof.
  intros Hf. induction l as [| a rest IH]; cbn [forEach].
  - apply Tracks_ret.
  - apply Tracks_bind; [apply Hf | intros _; exact IH].
Qed.

End Tracking.

Lemma Tracks_weaken {World A} (Q Q' : Event -> bool) (m : M World A) :
  (forall ev, Q ev = true -> Q' ev = true) -> Tracks Q m -> Tracks Q' m.
Proof.
  intros Himp Hm s. destruct (Hm s) as (events & Ho & HQ & Hr).
  exists events. repeat split; auto.
  rewrite forallb_forall in *. auto.
Qed.

Ltac tracks_step :=
  first
    [ apply Tracks_and_then; [| intros ? ]
    | apply Tracks_lift
    | apply Tracks_exit
    | apply Tracks_ret
    | apply Tracks_throw
    | apply Tracks_get_stackName
    | apply Tracks_get_rl
    | apply Tracks_emit; reflexivity
    | apply Tracks_run_command; reflexivity
    | apply Tracks_bind; [| intros ? ]
    | apply Tracks_try_catch; [| intros ? ]
    | apply Tracks_try_finally
    | apply Tracks_finally_unless_exited
    | apply Tracks_if ].

Ltac prove_tracks := repeat tracks_step.

(** ** Printing *)

Section Printing.
Context {World : Type}.

Lemma Prints_ret : Prints 0 (@ret World unit tt).
Proof. intros s. exists []. rewrite app_nil_r. destruct s; auto. Qed.

Lemma Prints_emit text : Prints 1 (@emit World (console_log text)).
Proof. intros s. exists [console_log text]. auto. Qed.

Lemma Prints_bind n1 n2 (m : M World unit) (k : unit -> M World unit) :
  Prints n1 m -> Prints n2 (k tt) -> Prints (n1 + n2) (bind m k).
Proof.
  intros Hm Hk s. destruct (Hm s) as (ev1 & Hrun & Hlog & Hlen).
  unfold bind. rewrite Hrun.
  destruct (Hk (mkState (stackName s) (rl s) (output s ++ ev1)%list (world s)))
    as (ev2 & Hrun2 & Hlog2 & Hlen2).
  exists (ev1 ++ ev2)%list. rewrite Hrun2. cbn [stackName rl output world].
  rewrite app_assoc, forallb_app, Hlog, Hlog2, length_app, Hlen, Hlen2. auto.
Qed.

Lemma Prints_forEach {A} (l : list A) (f : A -> M World unit) (lines : A -> nat) :
  (forall a, Prints (lines a) (f a)) ->
  Prints (list_sum (map lines l)) (forEach l f).
Proof.
  intros Hf. induction l as [| a rest IH]; cbn [forEach map list_sum].
  - apply Prints_ret.
  - apply Prints_bind; [apply Hf | exact IH].
Qed.

Lemma Prints_eq n n' (m : M World unit) : n = n' -> Prints n m -> Prints n' m.
Proof. intros <-. auto. Qed.

End Printing.

Lemma list_sum_const {A} (l : list A) (c : nat) :
  list_sum (map (fun _ => c) l) = c * length l.
Proof. induction l as [| a rest IH]; simpl; [lia | rewrite IH; lia]. Qed.

(** The report, counted line by line. *)
Lemma displayDriftReport_prints
    {World} (P : Provider World) (status : DriftStatus) (a : DriftAnalysis) :
  Prints (report_lines a) (displayDriftReport P status a).
Proof.
  unfold displayDriftReport, report_lines.
  set (X := if (0 <? length (deleted a))%nat then 1 + 2 * length (deleted a) else 0).
  set (Y := if (0 <? length (modified a))%nat
            then 1 + list_sum (map resource_lines (modified a)) else 0).
  apply (Prints_eq (1 + (1 + (1 + (1 + (1 + (1 + (1 + (X + Y))))))))); [lia |].
  do 7 (apply (Prints_bind 1); [apply Prints_emit |]).
  subst X Y.
  apply Prints_bind.
  - destruct (0 <? length (deleted a))%nat; [| apply Prints_ret].
    apply (Prints_bind 1); [apply Prints_emit |].
    rewrite <- (list_sum_const (deleted a) 2).
    apply Prints_forEach. intros resource.
    apply (Prints_bind 1 1); apply Prints_emit.
  - destruct (0 <? length (modified a))%nat; [| apply Prints_ret].
    apply (Prints_bind 1); [apply Prints_emit |].
    apply Prints_forEach. intros resource. unfold resource_lines.
    apply (Prints_bind 1 (1 + _)); [apply Prints_emit |].
    apply (Prints_bind 1); [apply Prints_emit |].
    destruct (PropertyDifferences resource) as [[| d ds] |]; try apply Prints_ret.
    apply (Prints_bind 1); [apply Prints_emit |].
    rewrite <- (Nat.mul_1_l (length (d :: ds))), <- list_sum_const.
    apply Prints_forEach. intros diff. apply Prints_emit.
Qed.

(** X5. [displayDriftReport] only observes: for every status and analysis it
    returns normally, leaves the detector and the world untouched, and
    writes nothing but [console.log] lines: seven lines of summary, a
    heading and two lines for each deleted resource if any, a heading and,
    for each modified resource if any, two lines plus a heading and a line
    for each of its property differences. *)
Theorem displayDriftReport_observational
    {World} (P : Provider World) (status : DriftStatus) (a : DriftAnalysis)
    (s : State World) :
  exists events,
    displayDriftReport P status a s = (Return tt, advance s events (world s))
    /\ forallb is_console_log events = true
    /\ length events = report_lines a.
Proof.
  destruct (displayDriftReport_prints P status a s) as (events & Hrun & Hlog & Hlen).
  exists events. unfold advance. repeat split; assumption.
Qed.

(** ** What each method adds to the output *)

Lemma read_only_no_deploy ev : read_only ev = true -> no_deploy ev = true.
Proof. unfold read_only, no_deploy. intros H. apply andb_true_iff in H. tauto. Qed.

Lemma read_only_no_terminal ev : read_only ev = true -> no_terminal ev = true.
Proof. unfold read_only, no_terminal. intros H. apply andb_true_iff in H. tauto. Qed.

Section MethodOutput.
Context {World : Type}.
Variable P : Provider World.

Lemma Tracks_checkStackExists : Tracks read_only (checkStackExists P).
Proof. unfold checkStackExists. prove_tracks. Qed.

Lemma Tracks_startDriftDetection : Tracks read_only (startDriftDetection P).
Proof. unfold startDriftDetection, console_error_with. prove_tracks. Qed.

Lemma Tracks_poll id attempts : Tracks read_only (poll P id attempts).
Proof. unfold poll, console_error_with. prove_tracks. Qed.

Lemma Tracks_wait_loop fuel :
  forall id attempts, Tracks read_only (wait_loop P fuel id attempts).
Proof.
  induction fuel as [| fuel IH]; intros id attempts; rewrite wait_loop_unfold;
    destruct (attempts <? maxAttempts)%nat; try apply Tracks_throw.
  - intros s. exists []. cbn. rewrite app_nil_r. auto.
  - apply Tracks_bind; [apply Tracks_poll |].
    intros [status | attempts']; [apply Tracks_ret | apply IH].
Qed.

Lemma Tracks_waitForDriftDetection id : Tracks read_only (waitForDriftDetection P id).
Proof.
  unfold waitForDriftDetection.
  apply Tracks_bind; [apply Tracks_emit; reflexivity | intros _; apply Tracks_wait_loop].
Qed.

Lemma Tracks_getDriftDetails : Tracks read_only (getDriftDetails P).
Proof. unfold getDriftDetails, console_error_with. prove_tracks. Qed.

Lemma Prints_Tracks n (m : M World unit) : Prints n m -> Tracks read_only m.
Proof.
  intros Hm s. destruct (Hm s) as (events & Hrun & Hlog & _).
  exists events. rewrite Hrun. cbn [snd output rl].
  assert (Hro : forallb read_only events = true).
  { rewrite forallb_forall in *. intros ev Hin. specialize (Hlog ev Hin).
    destruct ev; try discriminate; reflexivity. }
  repeat split; [exact Hro |].
  apply replay_no_readline. rewrite forallb_forall in *.
  intros ev Hin. specialize (Hro ev Hin). unfold read_only in Hro.
  apply andb_true_iff in Hro. tauto.
Qed.

Lemma Tracks_displayDriftReport status a :
  Tracks read_only (displayDriftReport P status a).
Proof. apply (Prints_Tracks _ _ (displayDriftReport_prints P status a)). Qed.

End MethodOutput.

(** ** The confirmation prompt *)

Section Prompt.
Context {World : Type}.
Variable P : Provider World.

Lemma askForRepair_no_drift a (s : State World) :
  drifted a = 0 ->
  askForRepair P a s = (Return false, advance s [no_repair_needed] (world s)).
Proof. intros Hz. unfold askForRepair. rewrite Hz. reflexivity. Qed.

Lemma askForRepair_asks a (s : State World) answer w' :
  drifted a <> 0 ->
  answer_question P repair_question (world s) = (Some answer, w') ->
  askForRepair P a s =
  (Return (is_yes answer),
   mkState (stackName s) (Some stdio_interface)
     (output s ++ drift_warning :: open_events (rl s) ++ [readline_question repair_question])%list
     w').
Proof.
  intros Hnz Hq. unfold askForRepair.
  destruct (drifted a =? 0)%nat eqn:E; [apply Nat.eqb_eq in E; contradiction |].
  unfold createReadlineInterface, bind, emit, get_rl, set_rl, question, ret.
  destruct s as [name [[] |] out w]; cbn [stackName rl output world] in *;
    cbv beta iota; cbn [stackName rl output world fst snd];
    rewrite Hq; cbn [open_events app]; rewrite <- !app_assoc; reflexivity.
Qed.

(** With drift and no answer to the prompt, [askForRepair] is left waiting,
    the question asked and the channel open. *)
Lemma askForRepair_unanswered a (s : State World) w' :
  drifted a <> 0 ->
  answer_question P repair_question (world s) = (None, w') ->
  askForRepair P a s =
  (Pending,
   mkState (stackName s) (Some stdio_interface)
     (output s ++ drift_warning :: open_events (rl s) ++ [readline_question repair_question])%list
     w').
Proof.
  intros Hnz Hq. unfold askForRepair.
  destruct (drifted a =? 0)%nat eqn:E; [apply Nat.eqb_eq in E; contradiction |].
  unfold createReadlineInterface, bind, emit, get_rl, set_rl, question, ret.
  destruct s as [name [[] |] out w]; cbn [stackName rl output world] in *;
    cbv beta iota; cbn [stackName rl output world fst snd];
    rewrite Hq; cbn [open_events app]; rewrite <- !app_assoc; reflexivity.
Qed.

Lemma Tracks_askForRepair a : Tracks no_deploy (askForRepair P a).
Proof.
  intros s. destruct (Nat.eq_dec (drifted a) 0) as [Hz | Hnz].
  - rewrite (askForRepair_no_drift a s Hz).
    exists [no_repair_needed]. cbn. destruct (rl s); auto.
  - destruct (answer_question P repair_question (world s)) as [[answer |] w'] eqn:Hq;
      [rewrite (askForRepair_asks a s answer w' Hnz Hq)
      | rewrite (askForRepair_unanswered a s w' Hnz Hq)];
      exists (drift_warning :: open_events (rl s) ++ [readline_question repair_question])%list;
      cbn [snd output rl]; destruct (rl s) as [[] |]; cbn; auto.
Qed.

Lemma Tracks_cleanup : Tracks no_deploy (@cleanup World).
Proof.
  intros s. exists (cleanup_events (rl s)).
  destruct s as [name [[] |] out w]; cbn; rewrite ?app_nil_r; auto.
Qed.

Lemma cleanup_closes (s : State World) :
  exists s', cleanup s = (Return tt, s') /\ rl s' = None.
Proof. destruct s as [name [[] |] out w]; eexists; split; reflexivity. Qed.

Lemma Tracks_detectAndReport : Tracks no_deploy (detectAndReport P).
Proof.
  unfold detectAndReport, console_error_with.
  apply Tracks_try_finally; [| apply Tracks_cleanup].
  apply Tracks_try_catch; [| intros e; prove_tracks].
  apply Tracks_bind;
    [apply (Tracks_weaken read_only), Tracks_checkStackExists; apply read_only_no_deploy |].
  intros b. apply Tracks_if; [prove_tracks |].
  apply Tracks_bind;
    [apply (Tracks_weaken read_only), Tracks_startDriftDetection; apply read_only_no_deploy |].
  intros id. apply Tracks_bind;
    [apply (Tracks_weaken read_only), Tracks_waitForDriftDetection; apply read_only_no_deploy |].
  intros st. apply Tracks_bind; [apply Tracks_emit; reflexivity | intros _].
  apply Tracks_bind;
    [apply (Tracks_weaken read_only), Tracks_getDriftDetails; apply read_only_no_deploy |].
  intros batch. cbv zeta. apply Tracks_bind;
    [apply (Tracks_weaken read_only), Tracks_displayDriftReport; apply read_only_no_deploy |].
  intros _. apply Tracks_bind; [apply Tracks_askForRepair | intros b'; apply Tracks_ret].
Qed.

(** However [detectAndReport] returns or throws, [cleanup] has run. *)
Lemma detectAndReport_closes (s : State World) :
  fst (detectAndReport P s) <> Pending -> rl (snd (detectAndReport P s)) = None.
Proof.
  pose proof (terminates_detectAndReport P s) as Hterm.
  unfold detectAndReport, try_finally in *.
  match goal with
  | |- context [match ?body s with _ => _ end] => destruct (body s) as [[r | e | | ] s1]
  end.
  - intros _. destruct (cleanup_closes s1) as (s' & Hc & Hrl). rewrite Hc. exact Hrl.
  - intros _. destruct (cleanup_closes s1) as (s' & Hc & Hrl). rewrite Hc. exact Hrl.
  - cbn. congruence.
  - cbn in Hterm. congruence.
Qed.

End Prompt.



(** X7. [detectAndReport] releases the confirmation channel on every way
    out, return or throw: the detector ends with no interface, the output it
    adds follows the protocol of the channel from the state it started in
    (created only when closed, asked and closed only when open) and ends
    with the channel closed; and it never runs the redeploy command. The
    one run that is no way out is the one left waiting at the prompt: there
    too the output follows the protocol and holds no redeploy, and the
    channel is as the output says. *)
Theorem detectAndReport_releases_channel
    {World} (P : Provider World) (s : State World) :
  exists events,
    output (snd (detectAndReport P s)) = (output s ++ events)%list
    /\ (fst (detectAndReport P s) <> Pending ->
        rl (snd (detectAndReport P s)) = None
        /\ replay (rl s) events = Some None)
    /\ replay (rl s) events = Some (rl (snd (detectAndReport P s)))
    /\ forallb no_deploy events = true
    /\ fst (detectAndReport P s) <> OutOfFuel.
Proof.
  destruct (Tracks_detectAndReport P s) as (events & Ho & HQ & Hr).
  exists events.
  split; [exact Ho |]. split; [| split; [exact Hr | split; [exact HQ |]]].
  - intros Hset. pose proof (detectAndReport_closes P s Hset) as Hrl.
    split; [exact Hrl | congruence].
  - apply terminates_detectAndReport.
Qed.

(** ** The report on a stack that exists *)

Section Report.
Context {World : Type}.
Variable P : Provider World.

(** The steps of [detectAndReport] up to the report, when all succeed. *)
Lemma detection_steps (s : State World) status batch w5
    (k : DriftStatus -> list ResourceDrift -> M World DetectionReport) :
  Detected P (stackName s) (world s) status batch w5 ->
  exists events,
    forallb read_only events = true
    /\ (stackExists <- checkStackExists P ;;
        if negb stackExists then
          name <- get_stackName ;;
          emit (console_log ("ℹ️  スタック " ++ name ++ " が存在しません。ドリフト検出は不要です")) ;;
          ret (mkDetectionReport false false None None None)
        else
          detectionId <- startDriftDetection P ;;
          driftStatus <- waitForDriftDetection P detectionId ;;
          emit (console_log (nl ++ "✅ ドリフト検出が完了しました")) ;;
          drifts <- getDriftDetails P ;;
          let analysis := analyzeDrifts drifts in
          displayDriftReport P driftStatus analysis ;;
          k driftStatus drifts) s
       = k status batch (advance s events w5).
Proof.
  intros (n & w1 & id & w2 & j & w3 & w4 & Hq1 & Hn & Hq2 & Hj & Hrun & Hq3 & Hst & Hq4).
  rewrite (bind_run _ _ s _ _ (checkStackExists_listed P s n w1 Hq1)).
  replace (0 <? n)%nat with true by (symmetry; apply Nat.ltb_lt; exact Hn).
  cbn [negb].
  set (s1 := advance s [execSync (aws_describe_stacks (stackName s))] w1).
  rewrite (bind_run _ _ s1 _ _ (startDriftDetection_started P s1 id w2 Hq2)).
  set (s2 := advance s1 _ w2).
  rewrite (bind_run _ _ s2 _ _ (wait_completes P id s2 j w3 status w4 Hj Hrun Hq3 Hst)).
  set (s3 := advance s2 _ w4).
  rewrite (bind_run _ _ s3 _ _ (emit_run _ s3)).
  set (s4 := advance s3 _ (world s3)).
  rewrite (bind_run _ _ s4 _ _ (getDriftDetails_fetched P s4 batch w5 Hq4)).
  set (s5 := advance s4 _ w5). cbv zeta.
  destruct (displayDriftReport_prints P status (analyzeDrifts batch) s5)
    as (lines & Hprint & Hlog & _).
  rewrite (bind_run _ _ s5 _ _ Hprint).
  destruct (Tracks_displayDriftReport P status (analyzeDrifts batch) s5)
    as (lines' & Ho & Hro & _).
  rewrite Hprint in Ho. cbn [snd output] in Ho. apply app_inv_head in Ho. subst lines'.
  eexists. split; [| f_equal].
  2: { subst s5 s4 s3 s2 s1. unfold advance. cbn [stackName rl output world].
       rewrite <- !app_assoc. reflexivity. }
  rewrite !forallb_app. rewrite Hro. cbn [forallb]. rewrite !andb_true_r.
  clear. induction j as [| j IH]; [reflexivity | exact IH].
Qed.

End Report.

Lemma cleanup_state {World} (s : State World) :
  cleanup s =
  (Return tt,
   mkState (stackName s) None (output s ++ cleanup_events (rl s))%list (world s)).
Proof.
  destruct s as [name [[] |] out w]; cbn; rewrite ?app_nil_r; reflexivity.
Qed.



(** ** Repairing only on request *)

Lemma no_deploy_free events :
  forallb no_deploy events = true -> existsb is_deploy events = false.
Proof.
  induction events as [| ev rest IH]; cbn [forallb existsb]; [reflexivity |].
  intros H. apply andb_true_iff in H. destruct H as [Hev Hrest].
  unfold no_deploy in Hev. destruct (is_deploy ev); [discriminate |].
  apply IH, Hrest.
Qed.

Section Consent.
Context {World : Type}.
Variable P : Provider World.

Lemma Tracks_redeploy_and_verify : Tracks no_terminal (redeploy_and_verify P).
Proof.
  unfold redeploy_and_verify.
  do 4 (apply Tracks_bind; [prove_tracks | intros _]).
  apply Tracks_bind;
    [apply (Tracks_weaken read_only), Tracks_startDriftDetection;
     apply read_only_no_terminal |].
  intros id. apply Tracks_bind;
    [apply (Tracks_weaken read_only), Tracks_waitForDriftDetection;
     apply read_only_no_terminal |].
  intros st. prove_tracks.
Qed.

Lemma Tracks_repairDrift : Tracks no_terminal (repairDrift P).
Proof.
  unfold repairDrift, console_error_with.
  apply Tracks_bind; [prove_tracks | intros _].
  apply Tracks_try_catch; [apply Tracks_redeploy_and_verify | intros e; prove_tracks].
Qed.

(** [repairDrift] leaves the confirmation channel alone. *)
Lemma repairDrift_keeps_rl (s : State World) : rl (snd (repairDrift P s)) = rl s.
Proof.
  destruct (Tracks_repairDrift s) as (events & _ & HQ & Hr).
  rewrite (replay_no_readline (rl s) events HQ) in Hr. congruence.
Qed.

(** [repairDrift] always runs the redeploy command, third thing it does. *)
Lemma repairDrift_deploys (s : State World) :
  exists events,
    output (snd (repairDrift P s))
    = (output s ++ repair_banner :: console_log "スタックを再デプロイしています..."
                :: execSync npx_cdk_deploy :: events)%list.
Proof.
  unfold repairDrift, redeploy_and_verify, console_error_with.
  unfold bind at 1, try_catch, bind at 1, bind at 1, run_command at 1.
  cbn [emit fst snd stackName rl output world].
  destruct (run_cdk_deploy P (world s)) as [[e | []] w1].
  - eexists. cbn [snd output bind emit ret]. cbn. rewrite <- !app_assoc. reflexivity.
  - match goal with
    | |- context [match ?rest ?s1 with _ => _ end] =>
        assert (Ht : Tracks no_terminal rest);
        [| destruct (Ht s1) as (ev1 & Ho & _ & _);
           destruct (rest s1) as [[b | e | | ] s2]; cbn [snd] in Ho ]
    end.
    + do 2 (apply Tracks_bind; [prove_tracks | intros _]).
      apply Tracks_bind;
        [apply (Tracks_weaken read_only), Tracks_startDriftDetection;
         apply read_only_no_terminal |].
      intros id. apply Tracks_bind;
        [apply (Tracks_weaken read_only), Tracks_waitForDriftDetection;
         apply read_only_no_terminal |].
      intros st. prove_tracks.
    + exists ev1. cbn [snd]. rewrite Ho. cbn [output]. rewrite <- !app_assoc. reflexivity.
    + eexists. cbn [snd bind emit ret output]. cbn. rewrite Ho. cbn [output].
      rewrite <- !app_assoc. reflexivity.
    + exists ev1. cbn [snd]. rewrite Ho. cbn [output]. rewrite <- !app_assoc. reflexivity.
    + exists ev1. cbn [snd]. rewrite Ho. cbn [output]. rewrite <- !app_assoc. reflexivity.
Qed.

(** A report that asks for a repair comes from drift and a yes. *)
Lemma detectAndReport_consent (s : State World) r s' :
  detectAndReport P s = (Return r, s') ->
  needsRepair r = true ->
  exists batch w answer w',
    analysis r = Some (analyzeDrifts batch)
    /\ drifted (analyzeDrifts batch) <> 0
    /\ answer_question P repair_question w = (Some answer, w')
    /\ is_yes answer = true.
Proof.
  intros H Hneeds. unfold detectAndReport in H.
  apply try_finally_Return in H. destruct H as (s1 & H).
  apply rethrow_Return in H.
  apply bind_Return in H. destruct H as (b & s2 & _ & H).
  destruct b; cbn [negb] in H.
  - apply bind_Return in H. destruct H as (id & s3 & _ & H).
    apply bind_Return in H. destruct H as (st & s4 & _ & H).
    apply bind_Return in H. destruct H as (u & s5 & _ & H).
    apply bind_Return in H. destruct H as (batch & s6 & _ & H).
    cbv zeta in H.
    apply bind_Return in H. destruct H as (u' & s7 & _ & H).
    apply bind_Return in H. destruct H as (shouldRepair & s8 & Hask & H).
    inversion H; subst. cbn in Hneeds. subst shouldRepair.
    destruct (Nat.eq_dec (drifted (analyzeDrifts batch)) 0) as [Hz | Hnz].
    + rewrite (askForRepair_no_drift P _ s7 Hz) in Hask. discriminate.
    + destruct (answer_question P repair_question (world s7)) as [[answer |] w'] eqn:Hq.
      * rewrite (askForRepair_asks P _ s7 answer w' Hnz Hq) in Hask.
        exists batch, (world s7), answer, w'.
        split; [reflexivity |]. split; [exact Hnz |]. split; [exact Hq |].
        inversion Hask. reflexivity.
      * rewrite (askForRepair_unanswered P _ s7 w' Hnz Hq) in Hask. discriminate.
  - apply bind_Return in H. destruct H as (name & s3 & _ & H).
    apply bind_Return in H. destruct H as (u & s4 & _ & H).
    inversion H; subst. discriminate.
Qed.

End Consent.

(** X9. [detectAndRepair] runs the redeploy command exactly when its result
    asks for a repair, and a result asks for one only if the analysis found
    drift and the prompt was answered with a yes. An error it throws is the
    one [detectAndReport] threw, and the confirmation channel is closed when
    it ends, by a result or by an error; it is left waiting exactly when
    [detectAndReport] is. *)
Theorem detectAndRepair_redeploys_on_consent
    {World} (P : Provider World) (s : State World) :
  exists events,
    output (snd (detectAndRepair P s)) = (output s ++ events)%list
    /\ (existsb is_deploy events = true <->
        exists r, fst (detectAndRepair P s) = Return r /\ needsRepair (result r) = true)
    /\ (forall r,
          fst (detectAndRepair P s) = Return r -> needsRepair (result r) = true ->
          exists batch w answer w',
            analysis (result r) = Some (analyzeDrifts batch)
            /\ drifted (analyzeDrifts batch) <> 0
            /\ answer_question P repair_question w = (Some answer, w')
            /\ is_yes answer = true)
    /\ (forall error,
          fst (detectAndRepair P s) = Throw error ->
          fst (detectAndReport P s) = Throw error)
    /\ (fst (detectAndRepair P s) <> Pending -> rl (snd (detectAndRepair P s)) = None)
    /\ (fst (detectAndRepair P s) = Pending <-> fst (detectAndReport P s) = Pending)
    /\ fst (detectAndRepair P s) <> OutOfFuel.
Proof.
  destruct (Tracks_detectAndReport P s) as (ev1 & Ho & HQ & _).
  pose proof (detectAndReport_closes P s) as Hrl.
  pose proof (terminates_detectAndReport P s) as Hterm.
  apply no_deploy_free in HQ.
  unfold detectAndRepair, bind.
  destruct (detectAndReport P s) as [[r | e | | ] s1] eqn:Hrep; cbn [fst snd] in *.
  - assert (Hclosed : rl s1 = None) by (apply Hrl; discriminate).
    clear Hrl. rename Hclosed into Hrl.
    destruct (needsRepair r) eqn:Hneeds.
    + destruct (repairDrift_deploys P s1) as (ev2 & Ho2).
      pose proof (repairDrift_keeps_rl P s1) as Hkeep.
      destruct (repairDrift_returns P s1) as (b & s2 & Hrun).
      rewrite Hrun in *. cbn [fst snd ret] in *.
      eexists. split; [rewrite Ho2, Ho, <- app_assoc; reflexivity |].
      split; [| split; [| split; [| split; [| split]]]].
      * split; [intros _; eexists; split; [reflexivity | exact Hneeds] |].
        intros _. rewrite existsb_app. cbn. apply orb_true_r.
      * intros r' Hr' _. inversion Hr'; subst. cbn [result].
        apply (detectAndReport_consent P s r s1 Hrep Hneeds).
      * intros error H; discriminate.
      * intros _. congruence.
      * split; discriminate.
      * discriminate.
    + exists ev1. cbn [ret fst snd].
      split; [exact Ho |]. split; [| split; [| split; [| split; [| split]]]].
      * rewrite HQ. split; [discriminate |].
        intros (r' & Hr' & Hn). inversion Hr'; subst. cbn in Hn. congruence.
      * intros r' Hr' Hn. inversion Hr'; subst. cbn in Hn. congruence.
      * intros error H; discriminate.
      * intros _. exact Hrl.
      * split; discriminate.
      * discriminate.
  - exists ev1. split; [exact Ho |]. split; [| split; [| split; [| split; [| split]]]].
    + rewrite HQ. split; [discriminate | intros (r' & Hr' & _); discriminate].
    + intros r' Hr'; discriminate.
    + intros error H; inversion H; reflexivity.
    + intros _. apply Hrl. discriminate.
    + split; discriminate.
    + discriminate.
  - exists ev1. split; [exact Ho |]. split; [| split; [| split; [| split; [| split]]]].
    + rewrite HQ. split; [discriminate | intros (r' & Hr' & _); discriminate].
    + intros r' Hr'; discriminate.
    + intros error H; discriminate.
    + intros H; contradiction H; reflexivity.
    + split; reflexivity.
    + discriminate.
  - congruence.
Qed.

(** ** [TestDriftHelper] *)

Lemma stack_missing_error_marked :
  includes (message stack_missing_error) "スタックが存在しません" = true.
Proof. vm_compute. reflexivity. Qed.

(** X10. [ensureStackExists] never throws. It returns [true] exactly when
    the describe-stacks command lists at least one stack; when the command
    fails it returns [false], with no report of its own if the failure says
    that the stack does not exist and after reporting the error otherwise. *)
Theorem ensureStackExists_never_throws
    {World} (P : Provider World) (s : State World) (reply : JsError + nat) (w1 : World) :
  run_describe_stacks P (stackName s) (world s) = (reply, w1) ->
  exists b events,
    ensureStackExists P s = (Return b, advance s (describe_stacks_command s :: events) w1)
    /\ (b = true <-> exists n, reply = inr n /\ 0 < n)
    /\ events = match reply with
                | inr _ => []
                | inl error =>
                    if includes (message error) "does not exist" then []
                    else [stack_check_report error]
                end.
Proof.
  intros Hq. unfold ensureStackExists, try_catch. destruct reply as [e | n].
  - destruct (includes (message e) "does not exist") eqn:Hinc.
    + rewrite (checkStackExists_not_found P s e w1 Hq Hinc).
      exists false, []. repeat split; try discriminate.
      intros (n & H & _); discriminate.
    + rewrite (checkStackExists_broken P s e w1 Hq Hinc).
      exists false, [stack_check_report e].
      split; [| split; [split; [discriminate | intros (n & H & _); discriminate]
                       | reflexivity]].
      unfold console_error_with, bind, emit, ret, advance.
      cbn [fst snd stackName rl output world]. rewrite <- app_assoc. reflexivity.
  - rewrite (checkStackExists_listed P s n w1 Hq).
    exists (0 <? n)%nat, []. repeat split.
    + intros H. exists n. split; [reflexivity | apply Nat.ltb_lt, H].
    + intros (n' & H & Hn). inversion H; subst. apply Nat.ltb_lt, Hn.
Qed.

Lemma ensureStackExists_never_throws_witness :
  exists b events,
    ensureStackExists (scripted missing_credentials) (new_DriftDetector 0)
    = (Return b,
       advance (new_DriftDetector 0)
         (describe_stacks_command (new_DriftDetector 0) :: events) 0)
    /\ (b = true <-> exists n, @inl JsError nat credentials_error = inr n /\ 0 < n)
    /\ events = if includes (message credentials_error) "does not exist" then []
                else [stack_check_report credentials_error].
Proof.
  apply (ensureStackExists_never_throws (scripted missing_credentials)
           (new_DriftDetector 0) (inl credentials_error) 0).
  reflexivity.
Defined.

(** X11. [verifyStackState] returns normally exactly when the
    describe-stacks command lists at least one stack. When no stack is listed,
    or the command fails saying that the stack does not exist, it throws the
    deploy-first error, with no report of its own. Any other failure is
    reported and replaced by the fixed check-failed error, unless its message
    already carries the marker of the deploy-first error, in which case it is
    thrown on unchanged. *)
Theorem verifyStackState_outcomes
    {World} (P : Provider World) (s : State World) (reply : JsError + nat) (w1 : World) :
  run_describe_stacks P (stackName s) (world s) = (reply, w1) ->
  (forall n, reply = inr n -> 0 < n ->
     verifyStackState P s
     = (Return tt, advance s [describe_stacks_command s; stack_confirmed] w1))
  /\ (reply = inr 0
      \/ (exists error, reply = inl error
                        /\ Substring "does not exist" (message error)) ->
      verifyStackState P s
      = (Throw stack_missing_error, advance s [describe_stacks_command s] w1))
  /\ (forall error,
        reply = inl error ->
        ~ Substring "does not exist" (message error) ->
        ~ Substring "スタックが存在しません" (message error) ->
        verifyStackState P s
        = (Throw stack_check_failed_error,
           advance s [describe_stacks_command s; stack_check_report error] w1))
  /\ (forall error,
        reply = inl error ->
        ~ Substring "does not exist" (message error) ->
        Substring "スタックが存在しません" (message error) ->
        verifyStackState P s
        = (Throw error, advance s [describe_stacks_command s] w1)).
Proof.
  intros Hq. unfold verifyStackState, try_catch.
  split; [| split; [| split]].
  - intros n -> Hn. rewrite (bind_run _ _ s _ _ (checkStackExists_listed P s n w1 Hq)).
    replace (0 <? n)%nat with true by (symmetry; apply Nat.ltb_lt; exact Hn).
    cbn [negb]. rewrite emit_run, advance_advance. reflexivity.
  - intros [-> | (e & -> & Hsub)].
    + rewrite (bind_run _ _ s _ _ (checkStackExists_listed P s 0 w1 Hq)).
      cbn [Nat.ltb Nat.leb negb throw]. rewrite stack_missing_error_marked. reflexivity.
    + apply includes_Substring in Hsub.
      rewrite (bind_run _ _ s _ _ (checkStackExists_not_found P s e w1 Hq Hsub)).
      cbn [negb throw]. rewrite stack_missing_error_marked. reflexivity.
  - intros e -> Hnot Hunmarked.
    assert (Hinc : includes (message e) "does not exist" = false).
    { destruct (includes (message e) "does not exist") eqn:E; [| reflexivity].
      exfalso. apply Hnot, includes_Substring, E. }
    assert (Hmark : includes (message e) "スタックが存在しません" = false).
    { destruct (includes (message e) "スタックが存在しません") eqn:E; [| reflexivity].
      exfalso. apply Hunmarked, includes_Substring, E. }
    rewrite (bind_throw _ _ s _ _ (checkStackExists_broken P s e w1 Hq Hinc)).
    rewrite Hmark. unfold console_error_with, bind, emit, throw.
    cbn [fst snd stackName rl output world advance]. unfold advance.
    cbn [stackName rl output world]. rewrite <- app_assoc. reflexivity.
  - intros e -> Hnot Hmarked.
    assert (Hinc : includes (message e) "does not exist" = false).
    { destruct (includes (message e) "does not exist") eqn:E; [| reflexivity].
      exfalso. apply Hnot, includes_Substring, E. }
    apply includes_Substring in Hmarked.
    rewrite (bind_throw _ _ s _ _ (checkStackExists_broken P s e w1 Hq Hinc)).
    rewrite Hmarked. reflexivity.
Qed.

Lemma verifyStackState_outcomes_witness :
  verifyStackState (scripted absent_stack) (new_DriftDetector 0)
  = (Throw stack_missing_error,
     advance (new_DriftDetector 0) [describe_stacks_command (new_DriftDetector 0)] 0).
Proof.
  apply (proj1 (proj2 (verifyStackState_outcomes (scripted absent_stack)
                         (new_DriftDetector 0) _ 0 eq_refl))).
  right. eexists. split; [reflexivity |].
  apply includes_Substring. vm_compute. reflexivity.
Defined.

Example verifyStackState_credentials :
  verifyStackState (scripted missing_credentials) (new_DriftDetector 0)
  = (Throw stack_check_failed_error,
     advance (new_DriftDetector 0)
       [describe_stacks_command (new_DriftDetector 0);
        stack_check_report credentials_error] 0).
Proof. vm_compute. reflexivity. Qed.

(** ** Scripts that may end the process *)

Section Processes.
Context {World : Type}.

Lemma and_then_inr {A B} (m : Proc World A) (k : A -> Proc World B) s b s' :
  and_then m k s = (Return (inr b), s') ->
  exists a s1, m s = (Return (inr a), s1) /\ k a s1 = (Return (inr b), s').
Proof.
  unfold and_then, bind.
  destruct (m s) as [[[code | a] | e | | ] s1]; intros H; try discriminate.
  exists a, s1. auto.
Qed.

Lemma lift_inr {A} (m : M World A) s a s1 :
  lift m s = (Return (inr a), s1) -> m s = (Return a, s1).
Proof.
  unfold lift, bind. destruct (m s) as [[a0 | e | | ] s0]; intros H; try discriminate.
  inversion H; subst. reflexivity.
Qed.

Lemma terminates_lift {A} (m : M World A) : terminates m -> terminates (lift m).
Proof.
  intros Hm. unfold lift. apply terminates_bind; [exact Hm | intros a; apply terminates_ret].
Qed.

Lemma terminates_exit {A} code : terminates (@exit World A code).
Proof. apply terminates_ret. Qed.

Lemma terminates_and_then {A B} (m : Proc World A) (k : A -> Proc World B) :
  terminates m -> (forall a, terminates (k a)) -> terminates (and_then m k).
Proof.
  intros Hm Hk. unfold and_then. apply terminates_bind; [exact Hm |].
  intros [code | a]; [apply terminates_ret | apply Hk].
Qed.

Lemma settles_lift {A} (m : M World A) : settles m -> settles (lift m).
Proof.
  intros Hm. unfold lift. apply settles_bind; [exact Hm | intros a; apply settles_ret].
Qed.

Lemma settles_exit {A} code : settles (@exit World A code).
Proof. apply settles_ret. Qed.

Lemma settles_and_then {A B} (m : Proc World A) (k : A -> Proc World B) :
  settles m -> (forall a, settles (k a)) -> settles (and_then m k).
Proof.
  intros Hm Hk. unfold and_then. apply settles_bind; [exact Hm |].
  intros [code | a]; [apply settles_ret | apply Hk].
Qed.

(** A [catch] that ends the process makes of a block that settles one that
    always returns: with [inl 1] where the block threw. *)
Lemma try_catch_exit {A} (m : Proc World A) label s :
  settles m ->
  (exists o s', m s = (Return o, s')
                /\ try_catch m (fun error => lift (console_error_with label error) ;;; exit 1) s
                   = (Return o, s'))
  \/ (exists e s1,
        m s = (Throw e, s1)
        /\ try_catch m (fun error => lift (console_error_with label error) ;;; exit 1) s
           = (Return (inl 1),
              advance s1 [console_error (label ++ " " ++ message e)] (world s1))).
Proof.
  intros Hm. unfold try_catch.
  destruct (settles_cases m s Hm) as [(o & s' & H) | (e & s1 & H)]; rewrite H.
  - left. eauto.
  - right. exists e, s1. split; reflexivity.
Qed.

End Processes.

Ltac proc_terminates_step :=
  first
    [ apply terminates_and_then; [| intros ? ]
    | apply terminates_lift
    | apply terminates_exit
    | terminates_step ].

Ltac prove_proc_terminates := repeat proc_terminates_step.

Ltac proc_settles_step :=
  first
    [ apply settles_and_then; [| intros ? ]
    | apply settles_lift
    | apply settles_exit
    | settles_step ].

Ltac prove_proc_settles := repeat proc_settles_step.

(** The steps of a detection ask nothing: each of them returns or throws. *)
Section Settled.
Context {World : Type}.
Variable P : Provider World.

Lemma settles_checkStackExists : settles (checkStackExists P).
Proof. unfold checkStackExists. prove_settles. Qed.

Lemma settles_getDriftDetails : settles (getDriftDetails P).
Proof. unfold getDriftDetails, console_error_with. prove_settles. Qed.

Lemma settles_displayDriftReport status a : settles (displayDriftReport P status a).
Proof.
  intros s. destruct (displayDriftReport_prints P status a s) as (events & Hrun & _).
  rewrite Hrun. split; discriminate.
Qed.

End Settled.

(** ** [postDeployVerify] *)

Section PostDeploy.
Context {World : Type}.
Variable P : Provider World.

Lemma postDeployVerify_entry (s : State World) :
  postDeployVerify P s =
  finally_unless_exited
    (try_catch (verification P)
       (fun error =>
          lift (console_error_with "❌ デプロイ後の検証中にエラーが発生しました:" error) ;;;
          exit 1))
    cleanup
    (script_entry post_deploy_banner s).
Proof. reflexivity. Qed.

Lemma evaluate_run status a (s : State World) :
  exists events,
    evaluate status a s
    = (Return (if passes_evaluation status a then inr tt else inl 1),
       advance s events (world s))
    /\ forallb is_console_log events = true.
Proof.
  unfold evaluate, passes_evaluation.
  destruct (StackDriftStatus_eqb (StackDriftStatus_of status) STACK_IN_SYNC);
    [| destruct (0 <? length (deleted a))%nat;
       [| destruct (0 <? length (modified a))%nat]];
    cbn [orb negb]; eexists;
    unfold and_then, lift, exit, bind, emit, ret, advance;
    cbn [fst snd stackName rl output world];
    rewrite <- ?app_assoc; (split; [reflexivity | reflexivity]).
Qed.

Lemma settles_evaluate status a : settles (@evaluate World status a).
Proof.
  intros s. destruct (evaluate_run status a s) as (events & H & _).
  rewrite H. split; discriminate.
Qed.

Lemma settles_verification : settles (verification P).
Proof.
  unfold verification.
  apply settles_and_then;
    [apply settles_lift, settles_checkStackExists | intros b].
  apply settles_and_then; [destruct b; prove_proc_settles | intros _].
  do 2 (apply settles_and_then; [prove_proc_settles | intros _]).
  apply settles_and_then;
    [apply settles_lift, settles_startDriftDetection | intros id].
  apply settles_and_then;
    [apply settles_lift, settles_waitForDriftDetection | intros st].
  apply settles_and_then; [prove_proc_settles | intros _].
  apply settles_and_then;
    [apply settles_lift, settles_getDriftDetails | intros batch].
  cbv zeta. apply settles_and_then;
    [apply settles_lift, settles_displayDriftReport | intros _].
  apply settles_evaluate.
Qed.

Lemma Tracks_evaluate status a : Tracks read_only (@evaluate World status a).
Proof. unfold evaluate. prove_tracks. Qed.

Lemma Tracks_verification : Tracks read_only (verification P).
Proof.
  unfold verification.
  apply Tracks_and_then; [apply Tracks_lift, Tracks_checkStackExists | intros b].
  apply Tracks_and_then; [prove_tracks | intros _].
  do 2 (apply Tracks_and_then; [prove_tracks | intros _]).
  apply Tracks_and_then; [apply Tracks_lift, Tracks_startDriftDetection | intros id].
  apply Tracks_and_then; [apply Tracks_lift, Tracks_waitForDriftDetection | intros st].
  apply Tracks_and_then; [prove_tracks | intros _].
  apply Tracks_and_then; [apply Tracks_lift, Tracks_getDriftDetails | intros batch].
  cbv zeta. apply Tracks_and_then;
    [apply Tracks_lift, Tracks_displayDriftReport | intros _].
  apply Tracks_evaluate.
Qed.

(** The steps of the verification up to the evaluation, when all succeed. *)
Lemma verification_steps (s : State World) status batch w5 :
  Detected P (stackName s) (world s) status batch w5 ->
  exists events,
    verification P s = evaluate status (analyzeDrifts batch) (advance s events w5).
Proof.
  intros (n & w1 & id & w2 & j & w3 & w4 & Hq1 & Hn & Hq2 & Hj & Hrun & Hq3 & Hst & Hq4).
  unfold verification.
  rewrite (and_then_run _ _ s _ _ (checkStackExists_listed P s n w1 Hq1)).
  replace (0 <? n)%nat with true by (symmetry; apply Nat.ltb_lt; exact Hn).
  cbn [negb].
  set (s1 := advance s [execSync (aws_describe_stacks (stackName s))] w1).
  rewrite (and_then_run (ret tt) _ s1 tt s1 eq_refl).
  rewrite (and_then_run _ _ s1 _ _ (emit_run _ s1)).
  set (s1a := advance s1 _ (world s1)).
  rewrite (and_then_run _ _ s1a _ _ (emit_run _ s1a)).
  set (s1b := advance s1a _ (world s1a)).
  rewrite (and_then_run _ _ s1b _ _ (startDriftDetection_started P s1b id w2 Hq2)).
  set (s2 := advance s1b _ w2).
  rewrite (and_then_run _ _ s2 _ _ (wait_completes P id s2 j w3 status w4 Hj Hrun Hq3 Hst)).
  set (s3 := advance s2 _ w4).
  rewrite (and_then_run _ _ s3 _ _ (emit_run _ s3)).
  set (s4 := advance s3 _ (world s3)).
  rewrite (and_then_run _ _ s4 _ _ (getDriftDetails_fetched P s4 batch w5 Hq4)).
  set (s5 := advance s4 _ w5). cbv zeta.
  destruct (displayDriftReport_prints P status (analyzeDrifts batch) s5)
    as (lines & Hprint & _ & _).
  rewrite (and_then_run _ _ s5 _ _ Hprint).
  eexists. f_equal.
  subst s5 s4 s3 s2 s1b s1a s1. unfold advance. cbn [stackName rl output world].
  rewrite <- !app_assoc. reflexivity.
Qed.

(** A verification that comes to its end has gone through every step. *)
Lemma verification_ends (s s' : State World) :
  verification P s = (Return (inr tt), s') ->
  exists status batch s6,
    Detected P (stackName s) (world s) status batch (world s6)
    /\ evaluate status (analyzeDrifts batch) s6 = (Return (inr tt), s').
Proof.
  intros H. unfold verification in H.
  apply and_then_inr in H. destruct H as (b & s1 & Hc & H). apply lift_inr in Hc.
  apply and_then_inr in H. destruct H as (u1 & s1' & Hif & H).
  destruct b; [| discriminate]. cbn [negb] in Hif. apply lift_inr in Hif.
  inversion Hif; subst s1'. clear Hif.
  apply and_then_inr in H. destruct H as (u2 & s1a & He & H). apply lift_inr in He.
  rewrite emit_run in He. inversion He; subst s1a. clear He.
  apply and_then_inr in H. destruct H as (u3 & s1b & He & H). apply lift_inr in He.
  rewrite emit_run in He. inversion He; subst s1b. clear He.
  apply and_then_inr in H. destruct H as (id & s2 & Hs & H). apply lift_inr in Hs.
  apply and_then_inr in H. destruct H as (status & s3 & Hw & H). apply lift_inr in Hw.
  apply and_then_inr in H. destruct H as (u4 & s4 & He & H). apply lift_inr in He.
  rewrite emit_run in He. inversion He; subst s4. clear He.
  apply and_then_inr in H. destruct H as (batch & s5 & Hg & H). apply lift_inr in Hg.
  cbv zeta in H.
  apply and_then_inr in H. destruct H as (u5 & s6 & Hd & H). apply lift_inr in Hd.
  exists status, batch, s6. split; [| exact H].
  destruct (checkStackExists_true P s s1 Hc) as (n & Hq1 & Hn & Hs1).
  assert (Hname1 : stackName s1 = stackName s) by (rewrite Hs1; reflexivity).
  destruct (startDriftDetection_Return P _ id s2 Hs) as (Hq2 & Hname2 & _).
  cbn [stackName world advance] in Hq2, Hname2.
  destruct (wait_returns_world P id s2 status s3 Hw)
    as (j & w3 & Hj & Hrun & Hq3 & Hst & Hname3 & _).
  destruct (getDriftDetails_Return P _ batch s5 Hg) as (Hq4 & Hname5 & _).
  cbn [stackName world advance] in Hq4, Hname5.
  destruct (displayDriftReport_prints P status (analyzeDrifts batch) s5)
    as (lines & Hprint & _ & _).
  rewrite Hprint in Hd. inversion Hd; subst s6. cbn [world].
  rewrite Hname1 in Hq2. rewrite Hname3, Hname2, Hname1 in Hq4.
  exists n, (world s1), id, (world s2), j, w3, (world s3).
  repeat split; assumption.
Qed.

End PostDeploy.

Section ExitCodes.
Context {World : Type}.

Lemma ExitsWith1_lift {A} (m : M World A) : ExitsWith1 (lift m).
Proof.
  intros s code s'. unfold lift, bind.
  destruct (m s) as [[a | e | | ] s1]; intros H; discriminate.
Qed.

Lemma ExitsWith1_exit {A} : ExitsWith1 (@exit World A 1).
Proof. intros s code s' H. inversion H. reflexivity. Qed.

Lemma ExitsWith1_and_then {A B} (m : Proc World A) (k : A -> Proc World B) :
  ExitsWith1 m -> (forall a, ExitsWith1 (k a)) -> ExitsWith1 (and_then m k).
Proof.
  intros Hm Hk s code s'. unfold and_then, bind.
  destruct (m s) as [[[c | a] | e | | ] s1] eqn:E; intros H; try discriminate.
  - inversion H; subst. apply (Hm s code s' E).
  - apply (Hk a s1 code s' H).
Qed.

Lemma ExitsWith1_if {A} (b : bool) (m1 m2 : Proc World A) :
  ExitsWith1 m1 -> ExitsWith1 m2 -> ExitsWith1 (if b then m1 else m2).
Proof. destruct b; auto. Qed.

End ExitCodes.

Ltac exits_step :=
  first
    [ apply ExitsWith1_and_then; [| intros ? ]
    | apply ExitsWith1_lift
    | apply ExitsWith1_exit
    | apply ExitsWith1_if ].

Ltac prove_exits := repeat exits_step.

Lemma no_resource_deleted (l : list ResourceDrift) :
  negb (0 <? length l)%nat = true <-> l = [].
Proof. destruct l; simpl; split; intros H; congruence. Qed.

Lemma passes_evaluation_true status a :
  passes_evaluation status a = true <->
  StackDriftStatus_of status = STACK_IN_SYNC \/ deleted a = [].
Proof.
  unfold passes_evaluation.
  rewrite orb_true_iff, StackDriftStatus_eqb_eq, no_resource_deleted. reflexivity.
Qed.

Section PostDeployVerdict.
Context {World : Type}.
Variable P : Provider World.

Lemma ExitsWith1_verification : ExitsWith1 (verification P).
Proof. unfold verification, evaluate. cbv zeta. prove_exits. Qed.

(** The guarded [try] block of [postDeployVerify], started with the
    confirmation channel closed. *)
Lemma guarded_verification (s0 : State World) :
  rl s0 = None ->
  exists o s1 events,
    try_catch (verification P)
      (fun error =>
         lift (console_error_with "❌ デプロイ後の検証中にエラーが発生しました:" error) ;;;
         exit 1) s0
    = (Return o, s1)
    /\ (o = inl 1 \/ o = inr tt)
    /\ (o = inr tt -> verification P s0 = (Return (inr tt), s1))
    /\ (forall o' s', verification P s0 = (Return o', s') -> o' = o)
    /\ output s1 = (output s0 ++ events)%list
    /\ forallb read_only events = true
    /\ rl s1 = None.
Proof.
  intros Hrl.
  assert (Ht : Tracks read_only
                 (try_catch (verification P)
                    (fun error =>
                       lift (console_error_with
                               "❌ デプロイ後の検証中にエラーが発生しました:" error) ;;;
                       exit 1))).
  { apply Tracks_try_catch; [apply Tracks_verification |].
    intros e. unfold console_error_with. prove_tracks. }
  destruct (Ht s0) as (events & Ho & Hro & Hr).
  assert (Hnt : forallb (fun ev => negb (is_readline ev)) events = true).
  { rewrite forallb_forall in *. intros ev Hin.
    apply read_only_no_terminal, Hro, Hin. }
  rewrite (replay_no_readline _ _ Hnt), Hrl in Hr.
  destruct (try_catch_exit (verification P)
              "❌ デプロイ後の検証中にエラーが発生しました:" s0 (settles_verification P))
    as [(o & s1 & Hv & Hc) | (e & s1 & Hv & Hc)]; rewrite Hc in *; cbn [snd] in *.
  - exists o, s1, events. split; [reflexivity |].
    split; [| split; [| split; [| split; [| split]]]]; try assumption.
    + destruct o as [code | []]; [left | right; reflexivity].
      rewrite (ExitsWith1_verification s0 code s1 Hv). reflexivity.
    + intros ->. exact Hv.
    + intros o' s' H. congruence.
    + congruence.
  - eexists. eexists. exists events. split; [reflexivity |].
    split; [left; reflexivity |].
    split; [discriminate |]. split; [intros o' s' H; congruence |].
    split; [exact Ho |]. split; [exact Hro | congruence].
Qed.

End PostDeployVerdict.

(** X12. [postDeployVerify] never throws: it comes to its end or ends the
    process with code 1. It comes to its end exactly when the stack
    [IcebergCdkStack] is listed, a detection starts and completes, the drifts
    are fetched, and the stack is IN_SYNC or has no deleted resource; in
    every other case (stack not found, any error, a drifted stack with a
    deleted resource) it exits with 1. It never runs the redeploy command
    and never uses the terminal; run as a script it ends with code 0 or 1
    accordingly. *)
Theorem postDeployVerify_verdict {World} (P : Provider World) (s : State World) :
  exists o s',
    postDeployVerify P s = (Return o, s')
    /\ (o = inl 1 \/ o = inr tt)
    /\ (o = inr tt <->
        exists status batch w',
          Detected P "IcebergCdkStack" (world s) status batch w'
          /\ (StackDriftStatus_of status = STACK_IN_SYNC
              \/ deleted (analyzeDrifts batch) = []))
    /\ (exists events,
          output s' = (output s ++ events)%list /\ forallb read_only events = true)
    /\ postDeployVerify_script P s = (Return (code_of o), s').
Proof.
  destruct (guarded_verification P (script_entry post_deploy_banner s) eq_refl)
    as (o & s1 & events & Hc & Hcode & Hend & Hdet & Ho & Hro & Hrl).
  assert (Hrun : exists s',
             postDeployVerify P s = (Return o, s')
             /\ output s' = output s1).
  { rewrite postDeployVerify_entry. unfold finally_unless_exited. rewrite Hc.
    destruct Hcode as [-> | ->]; [eexists; split; reflexivity |].
    rewrite cleanup_state, Hrl. cbn [cleanup_events]. rewrite app_nil_r.
    eexists; split; reflexivity. }
  destruct Hrun as (s' & Hrun & Hout).
  exists o, s'. split; [exact Hrun |]. split; [exact Hcode |].
  split; [| split].
  - split.
    + intros Heq. destruct (verification_ends P _ s1 (Hend Heq))
        as (status & batch & s6 & Hd & He).
      exists status, batch, (world s6). split; [exact Hd |].
      destruct (evaluate_run status (analyzeDrifts batch) s6) as (lines & Hev & _).
      rewrite Hev in He.
      destruct (passes_evaluation status (analyzeDrifts batch)) eqn:Epass;
        [| discriminate].
      apply passes_evaluation_true, Epass.
    + intros (status & batch & w' & Hd & Hpass).
      destruct (verification_steps P (script_entry post_deploy_banner s)
                  status batch w' Hd) as (evs & Hv).
      destruct (evaluate_run status (analyzeDrifts batch)
                  (advance (script_entry post_deploy_banner s) evs w'))
        as (lines & Hev & _).
      rewrite Hev in Hv.
      rewrite (proj2 (passes_evaluation_true status (analyzeDrifts batch)) Hpass) in Hv.
      symmetry. apply (Hdet _ _ Hv).
  - exists (console_log post_deploy_banner :: events)%list.
    rewrite Hout, Ho. cbn [script_entry output]. rewrite <- app_assoc.
    split; [reflexivity |]. cbn [forallb app]. exact Hro.
  - unfold postDeployVerify_script, run_script, try_catch, bind. rewrite Hrun.
    destruct o as [code | []]; reflexivity.
Qed.

Example postDeployVerify_healthy :
  fst (postDeployVerify_script (scripted healthy_stack) (new_DriftDetector 0)) = Return 0.
Proof. vm_compute. reflexivity. Qed.

Example postDeployVerify_deleted_resource :
  fst (postDeployVerify_script (scripted declined_repair) (new_DriftDetector 0)) = Return 1.
Proof. vm_compute. reflexivity. Qed.

Example postDeployVerify_modified_resource :
  fst (postDeployVerify_script (scripted accepted_repair) (new_DriftDetector 0)) = Return 0.
Proof. vm_compute. reflexivity. Qed.

Example postDeployVerify_absent_stack :
  fst (postDeployVerify_script (scripted absent_stack) (new_DriftDetector 0)) = Return 1.
Proof. vm_compute. reflexivity. Qed.

Example postDeployVerify_timeout :
  fst (postDeployVerify_script (scripted stuck_detection) (new_DriftDetector 0)) = Return 1.
Proof. vm_compute. reflexivity. Qed.

(** ** [preTestCheck] *)

Section PreTest.
Context {World : Type}.
Variable P : Provider World.

Lemma preTestCheck_entry (s : State World) :
  preTestCheck P s =
  try_catch
    (r <~ lift (detectAndRepair P) ;; check_result P r)
    (fun error =>
       lift (console_error_with "❌ 事前チェック中にエラーが発生しました:" error) ;;;
       exit 1)
    (script_entry pre_test_banner s).
Proof. reflexivity. Qed.

(** The checks never throw; the user is asked whether to go on only when
    the stack exists, no repair failed and drift was left unrepaired, and
    the checks are left waiting when that question gets no answer. *)
Lemma check_result_run r (s1 : State World) answer w' :
  answer_question P continue_question (world s1) = (answer, w') ->
  exists events,
    check_result P r s1
    = (match answer with
       | Some line => Return (if passes_check r (is_yes line) then inr tt else inl 1)
       | None =>
           if stackExists (result r)
              && negb (needsRepair (result r) && negb (repairSuccess r))
              && drift_left_unrepaired r
           then Pending
           else Return (if passes_check r false then inr tt else inl 1)
       end,
       advance s1 events
         (if stackExists (result r)
             && negb (needsRepair (result r) && negb (repairSuccess r))
             && drift_left_unrepaired r
          then w' else world s1))
    /\ questions_in events
       = (if stackExists (result r)
             && negb (needsRepair (result r) && negb (repairSuccess r))
             && drift_left_unrepaired r
          then 1 else 0)
    /\ forallb no_deploy events = true.
Proof.
  intros Hq. unfold check_result, passes_check, askToContinue.
  destruct (stackExists (result r)), (needsRepair (result r)), (repairSuccess r),
    (drift_left_unrepaired r), answer as [line |];
    cbn [negb andb orb];
    unfold and_then, lift, exit, bind, emit, ret, question;
    cbn [fst snd stackName rl output world]; rewrite ?Hq;
    try (destruct (is_yes line));
    cbn [negb fst snd stackName rl output world];
    eexists; unfold advance; cbn [stackName rl output world];
    rewrite <- ?app_assoc; (split; [reflexivity | split; reflexivity]).
Qed.

(** What the script [pre-test-check.ts] ends with, from what [preTestCheck]
    does. *)
Lemma preTestCheck_script_status (s : State World) o s' :
  preTestCheck P s = (o, s') ->
  o = Return (inl 1) \/ o = Return (inr tt) \/ o = Pending ->
  snd (preTestCheck_script P s) = s'
  /\ (exit_status (fst (preTestCheck_script P s)) = Some 1 <-> o = Return (inl 1))
  /\ (exit_status (fst (preTestCheck_script P s)) = Some 0 <->
      o = Return (inr tt) \/ o = Pending).
Proof.
  intros H Ho. unfold preTestCheck_script, run_script, try_catch, bind. rewrite H.
  destruct Ho as [-> | [-> | ->]]; cbn [fst snd ret exit_status];
    (split; [reflexivity |]); split; split; intros Ho;
    try discriminate; try reflexivity; auto;
    destruct Ho as [Ho | Ho]; discriminate.
Qed.

(** What [preTestCheck] does, by what [detectAndRepair] did. *)
Lemma preTestCheck_cases (s : State World) :
  exists o s',
    preTestCheck P s = (o, s')
    /\ (o = Return (inl 1) \/ o = Return (inr tt) \/ o = Pending)
    /\ (forall error s1,
          detectAndRepair P (script_entry pre_test_banner s) = (Throw error, s1) ->
          o = Return (inl 1))
    /\ (forall s1,
          detectAndRepair P (script_entry pre_test_banner s) = (Pending, s1) ->
          o = Pending /\ s' = s1)
    /\ (forall r s1,
          detectAndRepair P (script_entry pre_test_banner s) = (Return r, s1) ->
          (o = Return (inr tt) <->
           stackExists (result r) = true
           /\ (needsRepair (result r) = true -> repairSuccess r = true)
           /\ (drift_left_unrepaired r = true ->
               exists line,
                 fst (answer_question P continue_question (world s1)) = Some line
                 /\ is_yes line = true))
          /\ (o = Pending <->
              stackExists (result r) = true
              /\ (needsRepair (result r) = true -> repairSuccess r = true)
              /\ drift_left_unrepaired r = true
              /\ fst (answer_question P continue_question (world s1)) = None)
          /\ (o = Return (inr tt) -> exit_code r = 0)
          /\ (exists events,
                output s' = (output s1 ++ events)%list
                /\ questions_in events
                   = (if stackExists (result r)
                         && negb (needsRepair (result r) && negb (repairSuccess r))
                         && drift_left_unrepaired r
                      then 1 else 0)
                /\ forallb no_deploy events = true)).
Proof.
  rewrite preTestCheck_entry.
  destruct (terminates_cases (detectAndRepair P) (script_entry pre_test_banner s)
              (terminates_detectAndRepair P))
    as [(r & s1 & H) | [(e & s1 & H) | (s1 & H)]].
  - destruct (answer_question P continue_question (world s1)) as [answer w'] eqn:Hq.
    destruct (check_result_run r s1 answer w' Hq) as (events & Hrun & Hasked & Hnd).
    pose proof (and_then_run (detectAndRepair P) (fun r => check_result P r) _ r s1 H)
      as Hbody.
    cbv beta in Hbody. rewrite Hrun in Hbody. clear Hrun.
    match type of Hbody with
    | _ = (?x, _) => set (o := x) in *
    end.
    assert (Ho : o = Return (inl 1) \/ o = Return (inr tt) \/ o = Pending).
    { subst o. destruct answer as [line |];
        [destruct (passes_check r (is_yes line)); auto |].
      destruct (stackExists (result r)
                && negb (needsRepair (result r) && negb (repairSuccess r))
                && drift_left_unrepaired r); auto.
      destruct (passes_check r false); auto. }
    rewrite (try_catch_quiet _ _ _ _ _ Hbody)
      by (destruct Ho as [-> | [-> | ->]]; discriminate).
    eexists. eexists. split; [reflexivity |].
    split; [exact Ho |].
    split; [intros error s2 H'; congruence |].
    split; [intros s2 H'; congruence |].
    intros r' s2 H'. rewrite H in H'. inversion H'; subst r' s2. rewrite Hq. cbn [fst].
    split; [| split; [| split; [| exists events; repeat split; assumption]]];
      clear Hasked Hnd Hbody Ho H'; subst o; unfold passes_check, exit_code;
      destruct (stackExists (result r)), (needsRepair (result r)), (repairSuccess r),
        (drift_left_unrepaired r), answer as [line |];
      cbn [negb andb orb];
      try (destruct (is_yes line) eqn:Hyes); cbn [negb andb orb];
      try (split; intros Ho); try intros Ho;
      try discriminate; try reflexivity;
      try (destruct Ho as (H1 & H2 & H3); try discriminate;
           try (specialize (H2 eq_refl); discriminate);
           try (destruct (H3 eq_refl) as (line' & Hl & Hy); congruence);
           try (destruct H3 as (H3 & H4); discriminate); fail);
      try (repeat split; try discriminate; auto; intros _; eexists; split; eauto; fail).
  - unfold try_catch. rewrite (and_then_throw _ _ _ _ _ H).
    eexists. eexists. split; [reflexivity |].
    split; [left; reflexivity |].
    split; [reflexivity |].
    split; [intros s2 H'; congruence |].
    intros r s2 H'; congruence.
  - unfold try_catch. rewrite (and_then_wait _ _ _ _ H).
    eexists. eexists. split; [reflexivity |].
    split; [right; right; reflexivity |].
    split; [intros error s2 H'; congruence |].
    split; [intros s2 H'; rewrite H in H'; inversion H'; auto |].
    intros r s2 H'; congruence.
Qed.

End PreTest.

(** X13. [preTestCheck] never throws: it comes to its end, so that the
    tests may start, or ends the process with code 1, or is left waiting at
    a prompt that gets no answer. When [detectAndRepair] throws it exits
    with 1; when [detectAndRepair] is left waiting, so is it. When
    [detectAndRepair] returns, it comes to its end exactly when the stack
    exists, a requested repair has succeeded, and, if drift was found and
    left unrepaired, the user answers yes to going on; it is left waiting
    exactly when it has that question to ask and the input has ended.
    Whenever it comes to its end the exit code of the drift script for the
    same result is 0. After [detectAndRepair] it asks that one question only
    in the case named, and never runs the redeploy command itself. Run as a
    script it ends with code 1 exactly when it called [process.exit(1)], and
    with code 0 otherwise: when it came to its end, and also when it was
    left waiting, the final message not printed. *)
Theorem preTestCheck_verdict {World} (P : Provider World) (s : State World) :
  exists o s',
    preTestCheck P s = (o, s')
    /\ (o = Return (inl 1) \/ o = Return (inr tt) \/ o = Pending)
    /\ (forall error s1,
          detectAndRepair P (script_entry pre_test_banner s) = (Throw error, s1) ->
          o = Return (inl 1))
    /\ (forall s1,
          detectAndRepair P (script_entry pre_test_banner s) = (Pending, s1) ->
          o = Pending /\ s' = s1)
    /\ (forall r s1,
          detectAndRepair P (script_entry pre_test_banner s) = (Return r, s1) ->
          (o = Return (inr tt) <->
           stackExists (result r) = true
           /\ (needsRepair (result r) = true -> repairSuccess r = true)
           /\ (drift_left_unrepaired r = true ->
               exists line,
                 fst (answer_question P continue_question (world s1)) = Some line
                 /\ is_yes line = true))
          /\ (o = Pending <->
              stackExists (result r) = true
              /\ (needsRepair (result r) = true -> repairSuccess r = true)
              /\ drift_left_unrepaired r = true
              /\ fst (answer_question P continue_question (world s1)) = None)
          /\ (o = Return (inr tt) -> exit_code r = 0)
          /\ (exists events,
                output s' = (output s1 ++ events)%list
                /\ questions_in events
                   = (if stackExists (result r)
                         && negb (needsRepair (result r) && negb (repairSuccess r))
                         && drift_left_unrepaired r
                      then 1 else 0)
                /\ forallb no_deploy events = true))
    /\ snd (preTestCheck_script P s) = s'
    /\ (exit_status (fst (preTestCheck_script P s)) = Some 1 <-> o = Return (inl 1))
    /\ (exit_status (fst (preTestCheck_script P s)) = Some 0 <->
        o = Return (inr tt) \/ o = Pending).
Proof.
  destruct (preTestCheck_cases P s) as (o & s' & Hrun & Ho & H3 & H4 & H5).
  exists o, s'.
  split; [exact Hrun |]. split; [exact Ho |]. split; [exact H3 |].
  split; [exact H4 |]. split; [exact H5 |].
  apply (preTestCheck_script_status P s o s' Hrun Ho).
Qed.

Example preTestCheck_declined_twice :
  fst (preTestCheck_script (scripted declined_repair) (new_DriftDetector 0)) = Return 1.
Proof. vm_compute. reflexivity. Qed.

Example preTestCheck_repaired :
  fst (preTestCheck_script (scripted accepted_repair) (new_DriftDetector 0)) = Return 0.
Proof. vm_compute. reflexivity. Qed.

Example preTestCheck_absent_stack :
  fst (preTestCheck_script (scripted absent_stack) (new_DriftDetector 0)) = Return 1.
Proof. vm_compute. reflexivity. Qed.

(** ** When detection fails *)

Lemma quiet_read_read_only ev : quiet_read ev = true -> read_only ev = true.
Proof. unfold quiet_read. intros H. apply andb_true_iff in H. tauto. Qed.

Lemma detection_reports_in_app ev1 ev2 :
  detection_reports_in (ev1 ++ ev2) = detection_reports_in ev1 + detection_reports_in ev2.
Proof. unfold detection_reports_in. rewrite filter_app, length_app. reflexivity. Qed.

(** Quiet reading holds no report of the detection process. *)
Lemma quiet_read_reports events :
  forallb quiet_read events = true ->
  forallb read_only events = true /\ detection_reports_in events = 0.
Proof.
  unfold detection_reports_in.
  induction events as [| ev rest IH]; cbn [forallb filter]; [auto |].
  intros H. apply andb_true_iff in H. destruct H as [Hev Hrest].
  destruct (IH Hrest) as [Hro Hnone].
  unfold quiet_read in Hev. apply andb_true_iff in Hev. destruct Hev as [Hev Hrep].
  rewrite Hev, Hro. destruct (is_detection_report ev); [discriminate | auto].
Qed.

Section Failing.
Context {World : Type}.
Variable P : Provider World.

Lemma Quiet_checkStackExists : Tracks quiet_read (checkStackExists P).
Proof. unfold checkStackExists. prove_tracks. Qed.

Lemma Quiet_startDriftDetection : Tracks quiet_read (startDriftDetection P).
Proof. unfold startDriftDetection, console_error_with. prove_tracks. Qed.

Lemma Quiet_poll id attempts : Tracks quiet_read (poll P id attempts).
Proof. unfold poll, console_error_with. prove_tracks. Qed.

Lemma Quiet_wait_loop fuel :
  forall id attempts, Tracks quiet_read (wait_loop P fuel id attempts).
Proof.
  induction fuel as [| fuel IH]; intros id attempts; rewrite wait_loop_unfold;
    destruct (attempts <? maxAttempts)%nat; try apply Tracks_throw.
  - intros s. exists []. cbn. rewrite app_nil_r. auto.
  - apply Tracks_bind; [apply Quiet_poll |].
    intros [status | attempts']; [apply Tracks_ret | apply IH].
Qed.

Lemma Quiet_waitForDriftDetection id : Tracks quiet_read (waitForDriftDetection P id).
Proof.
  unfold waitForDriftDetection.
  apply Tracks_bind; [apply Tracks_emit; reflexivity | intros _; apply Quiet_wait_loop].
Qed.

Lemma Quiet_getDriftDetails : Tracks quiet_read (getDriftDetails P).
Proof. unfold getDriftDetails, console_error_with. prove_tracks. Qed.

Lemma Quiet_displayDriftReport status a :
  Tracks quiet_read (displayDriftReport P status a).
Proof.
  intros s. destruct (displayDriftReport_prints P status a s) as (events & Hrun & Hlog & _).
  exists events. rewrite Hrun. cbn [snd output rl].
  assert (Hq : forallb quiet_read events = true).
  { rewrite forallb_forall in *. intros ev Hin. specialize (Hlog ev Hin).
    destruct ev; try discriminate; reflexivity. }
  repeat split; [exact Hq |].
  apply replay_no_readline. rewrite forallb_forall in *.
  intros ev Hin. apply read_only_no_terminal, quiet_read_read_only, Hq, Hin.
Qed.

Lemma Reads_refl (s : State World) : Reads s s.
Proof. exists []. rewrite app_nil_r. auto. Qed.

Lemma Reads_trans (s s1 s2 : State World) : Reads s s1 -> Reads s1 s2 -> Reads s s2.
Proof.
  intros (ev1 & Ho1 & Hq1 & Hr1) (ev2 & Ho2 & Hq2 & Hr2).
  exists (ev1 ++ ev2)%list.
  rewrite Ho2, Ho1, app_assoc, forallb_app, Hq1, Hq2. repeat split. congruence.
Qed.

Lemma Reads_emit (s : State World) ev :
  quiet_read ev = true -> Reads s (advance s [ev] (world s)).
Proof. intros Hev. exists [ev]. cbn. rewrite Hev. auto. Qed.

Lemma Tracks_Reads {A} (m : M World A) s :
  Tracks quiet_read m -> Reads s (snd (m s)).
Proof.
  intros Hm. destruct (Hm s) as (events & Ho & HQ & Hr).
  exists events. repeat split; try assumption.
  assert (Hnt : forallb (fun ev => negb (is_readline ev)) events = true).
  { rewrite forallb_forall in *. intros ev Hin.
    apply read_only_no_terminal, quiet_read_read_only, HQ, Hin. }
  rewrite (replay_no_readline _ _ Hnt) in Hr. congruence.
Qed.

(** One quiet step in front of a continuation: the step throws, or hands
    its value on. *)
Lemma read_step {A B} (m : M World A) (k : A -> M World B) s :
  Tracks quiet_read m -> settles m ->
  exists s1,
    Reads s s1
    /\ ((exists e, bind m k s = (Throw e, s1))
        \/ (exists a, m s = (Return a, s1) /\ bind m k s = k a s1)).
Proof.
  intros Hm Hs. pose proof (Tracks_Reads m s Hm) as Hr. unfold bind.
  destruct (Hs s) as [Hfuel Hwait].
  destruct (m s) as [[a | e | | ] s1]; cbn [fst snd] in *; try congruence;
    exists s1; split; eauto.
Qed.

(** The way [detectAndReport] goes up to the prompt: it throws, it finds no
    stack, or it reaches the prompt with the status and the batch of a
    detection that went through, having only read so far. *)
Lemma detection_cases (s : State World)
    (k : DriftStatus -> list ResourceDrift -> M World DetectionReport) :
  let body :=
    (stackExists <- checkStackExists P ;;
     if negb stackExists then
       name <- get_stackName ;;
       emit (console_log ("ℹ️  スタック " ++ name ++ " が存在しません。ドリフト検出は不要です")) ;;
       ret (mkDetectionReport false false None None None)
     else
       detectionId <- startDriftDetection P ;;
       driftStatus <- waitForDriftDetection P detectionId ;;
       emit (console_log (nl ++ "✅ ドリフト検出が完了しました")) ;;
       drifts <- getDriftDetails P ;;
       let analysis := analyzeDrifts drifts in
       displayDriftReport P driftStatus analysis ;;
       k driftStatus drifts) in
  exists s1,
    Reads s s1
    /\ ((exists e, body s = (Throw e, s1))
        \/ body s = (Return (mkDetectionReport false false None None None), s1)
        \/ (exists status batch,
              body s = k status batch s1
              /\ Detected P (stackName s) (world s) status batch (world s1)
              /\ stackName s1 = stackName s)).
Proof.
  cbv zeta.
  destruct (read_step (checkStackExists P)
              (fun stackExists =>
                 if negb stackExists then
                   name <- get_stackName ;;
                   emit (console_log ("ℹ️  スタック " ++ name ++ " が存在しません。ドリフト検出は不要です")) ;;
                   ret (mkDetectionReport false false None None None)
                 else
                   detectionId <- startDriftDetection P ;;
                   driftStatus <- waitForDriftDetection P detectionId ;;
                   emit (console_log (nl ++ "✅ ドリフト検出が完了しました")) ;;
                   drifts <- getDriftDetails P ;;
                   displayDriftReport P driftStatus (analyzeDrifts drifts) ;;
                   k driftStatus drifts)
              s Quiet_checkStackExists (settles_checkStackExists P))
    as (s1 & Hr1 & [(e & H) | ([] & Hc & H)]); rewrite H; clear H; cbn [negb].
  - exists s1. split; [exact Hr1 | eauto].
  - destruct (checkStackExists_true P s s1 Hc) as (n & Hq1 & Hn & Hs1).
    assert (Hname1 : stackName s1 = stackName s) by (rewrite Hs1; reflexivity).
    match goal with
    | |- context [bind (startDriftDetection P) ?k1 s1] =>
        destruct (read_step (startDriftDetection P) k1 s1
                    Quiet_startDriftDetection (settles_startDriftDetection P))
          as (s2 & Hr2 & [(e & H) | (id & Hs & H)])
    end; rewrite H; clear H;
      pose proof (Reads_trans _ _ _ Hr1 Hr2) as Hr12;
      [exists s2; split; [exact Hr12 | eauto] |].
    destruct (startDriftDetection_Return P _ id s2 Hs) as (Hq2 & Hname2 & _).
    match goal with
    | |- context [bind (waitForDriftDetection P id) ?k1 s2] =>
        destruct (read_step (waitForDriftDetection P id) k1 s2
                    (Quiet_waitForDriftDetection id)
                    (settles_waitForDriftDetection P id))
          as (s3 & Hr3 & [(e & H) | (status & Hw & H)])
    end; rewrite H; clear H;
      pose proof (Reads_trans _ _ _ Hr12 Hr3) as Hr13;
      [exists s3; split; [exact Hr13 | eauto] |].
    destruct (wait_returns_world P id s2 status s3 Hw)
      as (j & w3 & Hj & Hrun & Hq3 & Hst & Hname3 & _).
    rewrite (bind_run _ _ s3 _ _ (emit_run _ s3)).
    set (s4 := advance s3 _ (world s3)).
    assert (Hr14 : Reads s s4).
    { apply (Reads_trans _ _ _ Hr13). apply Reads_emit. reflexivity. }
    match goal with
    | |- context [bind (getDriftDetails P) ?k1 s4] =>
        destruct (read_step (getDriftDetails P) k1 s4
                    Quiet_getDriftDetails (settles_getDriftDetails P))
          as (s5 & Hr5 & [(e & H) | (batch & Hg & H)])
    end; rewrite H; clear H;
      pose proof (Reads_trans _ _ _ Hr14 Hr5) as Hr15;
      [exists s5; split; [exact Hr15 | eauto] |].
    destruct (getDriftDetails_Return P _ batch s5 Hg) as (Hq4 & Hname5 & _).
    unfold s4 in Hq4, Hname5. cbn [stackName world advance] in Hq4, Hname5.
    destruct (displayDriftReport_prints P status (analyzeDrifts batch) s5)
      as (lines & Hprint & _ & _).
    rewrite (bind_run _ _ s5 _ _ Hprint).
    eexists. split.
    + apply (Reads_trans _ _ _ Hr15).
      pose proof (Tracks_Reads _ s5 (Quiet_displayDriftReport status (analyzeDrifts batch)))
        as Hr6.
      rewrite Hprint in Hr6. exact Hr6.
    + right; right. exists status, batch. split; [reflexivity |].
      cbn [stackName world snd]. split; [| congruence].
      rewrite Hname1 in Hq2. rewrite Hname3, Hname2, Hname1 in Hq4.
      exists n, (world s1), id, (world s2), j, w3, (world s3).
      repeat split; assumption.
  - eexists. split; [| right; left; reflexivity].
    apply (Reads_trans s s1); [exact Hr1 |].
    apply (Reads_emit s1). reflexivity.
Qed.

End Failing.

(** [askForRepair] never throws: it returns, or is left waiting. *)
Lemma askForRepair_asked {World} (P : Provider World) a (s : State World) :
  (exists b s', askForRepair P a s = (Return b, s'))
  \/ (exists s', askForRepair P a s = (Pending, s')).
Proof.
  destruct (Nat.eq_dec (drifted a) 0) as [Hz | Hnz].
  - rewrite (askForRepair_no_drift P a s Hz). eauto.
  - destruct (answer_question P repair_question (world s)) as [[answer |] w'] eqn:Hq.
    + rewrite (askForRepair_asks P a s answer w' Hnz Hq). eauto.
    + rewrite (askForRepair_unanswered P a s w' Hnz Hq). eauto.
Qed.

(** X14. When [detectAndReport] throws, it has only read: up to the failure
    its output holds no redeploy and no use of the terminal, so the user was
    never asked anything. The error thrown is reported under the label of
    the detection process exactly once: by the line that follows that
    output, and by no line of it (what a failing step reported before, it
    reported under a label of its own). Then the confirmation channel is
    closed if it was open on entry. *)
Theorem detectAndReport_failure
    {World} (P : Provider World) (s s' : State World) (error : JsError) :
  detectAndReport P s = (Throw error, s') ->
  exists events,
    output s' = (output s ++ events
                 ++ detection_error_report error :: cleanup_events (rl s))%list
    /\ forallb read_only events = true
    /\ detection_reports_in events = 0
    /\ detection_reports_in
         (events ++ detection_error_report error :: cleanup_events (rl s)) = 1
    /\ rl s' = None.
Proof.
  intros H. unfold detectAndReport, try_finally, try_catch in H.
  destruct (detection_cases P s
              (fun driftStatus drifts =>
                 shouldRepair <- askForRepair P (analyzeDrifts drifts) ;;
                 ret (mkDetectionReport shouldRepair true (Some driftStatus)
                        (Some (analyzeDrifts drifts)) (Some drifts))))
    as (s1 & (events & Ho & Hquiet & Hrl) & Hcase).
  cbv beta zeta in Hcase, H.
  destruct Hcase as [(e & Hb) | [Hb | (status & batch & Hb & _)]];
    rewrite Hb in H; clear Hb.
  - unfold console_error_with, bind, emit, throw in H.
    cbn [fst snd stackName rl output world] in H.
    rewrite cleanup_state in H. cbn [stackName rl output world] in H.
    inversion H; subst. exists events. cbn [output rl].
    destruct (quiet_read_reports events Hquiet) as [Hro Hnone].
    rewrite Ho, Hrl, <- !app_assoc.
    split; [reflexivity |]. split; [exact Hro |]. split; [exact Hnone |].
    split; [| reflexivity].
    rewrite detection_reports_in_app, Hnone.
    destruct (rl s) as [[] |]; reflexivity.
  - rewrite cleanup_state in H. discriminate.
  - destruct (askForRepair_asked P (analyzeDrifts batch) s1)
      as [(b & s2 & Hask) | (s2 & Hask)].
    + rewrite (bind_run _ _ s1 _ _ Hask) in H. unfold ret in H.
      rewrite cleanup_state in H. discriminate.
    + rewrite (bind_wait _ _ s1 _ Hask) in H. discriminate.
Qed.

Lemma detectAndReport_failure_witness :
  exists events,
    output (snd (detectAndReport (scripted missing_credentials) (new_DriftDetector 0)))
    = (output (new_DriftDetector 0) ++ events
       ++ detection_error_report credentials_error
          :: cleanup_events (rl (new_DriftDetector 0)))%list
    /\ forallb read_only events = true
    /\ detection_reports_in events = 0
    /\ detection_reports_in
         (events ++ detection_error_report credentials_error
                    :: cleanup_events (rl (new_DriftDetector 0))) = 1
    /\ rl (snd (detectAndReport (scripted missing_credentials) (new_DriftDetector 0)))
       = None.
Proof.
  apply (detectAndReport_failure (scripted missing_credentials) (new_DriftDetector 0)
           (snd (detectAndReport (scripted missing_credentials) (new_DriftDetector 0)))
           credentials_error).
  vm_compute. reflexivity.
Defined.

(** A detection that breaks when it is started is reported twice, under two
    labels: by [startDriftDetection], and by [detectAndReport]. *)
Example detectAndReport_failure_labels :
  map (fun ev => (own_writing ev, is_detection_report ev))
    (output (snd (detectAndReport
                    (scripted {| stacks_reply := inr 1;
                                 detect_reply := inl throttled_error;
                                 status_reply := fun _ => inr status_in_progress;
                                 drifts_reply := inr [];
                                 deploy_reply := inr tt;
                                 typed_answer := None |})
                    (new_DriftDetector 0))))
  = [(false, false); (true, false); (false, false); (true, false); (true, true)].
Proof. vm_compute. reflexivity. Qed.

(** X15. When, after [k < maxAttempts] polls in progress, a poll reports
    DETECTION_FAILED, [waitForDriftDetection] throws at once, whichever poll
    it is: it has made [k + 1] polls, it reports the failure and polls no
    more, and the error carries the reported reason, or a fixed text when
    none is reported. *)
Theorem waitForDriftDetection_failed_at_any_poll
    {World} (P : Provider World) (detectionId : string) (s : State World)
    (k : nat) (w1 w2 : World) (status : DriftStatus) :
  k < maxAttempts ->
  InProgressRun P detectionId k (world s) w1 ->
  run_describe_detection_status P detectionId w1 = (inr status, w2) ->
  DetectionStatus_of status = DETECTION_FAILED ->
  exists events,
    waitForDriftDetection P detectionId s
    = (Throw (detection_failed_error status), advance s events w2)
    /\ events = (wait_banner :: poll_rounds detectionId k
                 ++ [status_poll detectionId;
                     poll_error_report (detection_failed_error status)])%list
    /\ polls_in events = k + 1
    /\ (forall reason,
          StatusReason status = Some reason -> reason <> "" ->
          message (detection_failed_error status) = "ドリフト検出が失敗しました: " ++ reason)
    /\ (StatusReason status = None \/ StatusReason status = Some "" ->
          message (detection_failed_error status) = "ドリフト検出が失敗しました: 不明な理由").
Proof.
  intros Hk Hrun Hq Hst. eexists. split; [| split; [reflexivity | split; [| split]]].
  - rewrite (wait_next_poll P detectionId s k w1 Hk Hrun). unfold bind.
    rewrite (poll_failed P detectionId k
               (advance s (wait_banner :: poll_rounds detectionId k) w1)
               status w2 Hq Hst).
    rewrite advance_advance. reflexivity.
  - rewrite polls_in_banner, polls_in_app, polls_in_poll_rounds. reflexivity.
  - intros reason Hr Hne. unfold detection_failed_error; simpl. rewrite Hr.
    destruct reason; [congruence | reflexivity].
  - intros [Hr | Hr]; unfold detection_failed_error; simpl; rewrite Hr; reflexivity.
Qed.

Lemma waitForDriftDetection_failed_at_any_poll_witness :
  exists events,
    waitForDriftDetection
      (scripted {| stacks_reply := inr 1;
                   detect_reply := inr "detection-13";
                   status_reply := fun polls =>
                     if (polls <? 1)%nat then inr status_in_progress
                     else inr (status_failed None);
                   drifts_reply := inr [];
                   deploy_reply := inr tt;
                   typed_answer := Some "" |})
      "detection-13" (new_DriftDetector 0)
    = (Throw (detection_failed_error (status_failed None)),
       advance (new_DriftDetector 0) events 2)
    /\ events = (wait_banner :: poll_rounds "detection-13" 1
                 ++ [status_poll "detection-13";
                     poll_error_report (detection_failed_error (status_failed None))])%list
    /\ polls_in events = 1 + 1
    /\ message (detection_failed_error (status_failed None))
       = "ドリフト検出が失敗しました: 不明な理由".
Proof.
  destruct (waitForDriftDetection_failed_at_any_poll
              (scripted {| stacks_reply := inr 1;
                           detect_reply := inr "detection-13";
                           status_reply := fun polls =>
                             if (polls <? 1)%nat then inr status_in_progress
                             else inr (status_failed None);
                           drifts_reply := inr [];
                           deploy_reply := inr tt;
                           typed_answer := Some "" |})
              "detection-13" (new_DriftDetector 0) 1 1 2 (status_failed None))
    as (events & Hrun & Hev & Hpolls & _ & Hdefault).
  - unfold maxAttempts; lia.
  - apply InProgressRun_S with (w1 := 1) (status := status_in_progress);
      [reflexivity | reflexivity | apply InProgressRun_O].
  - reflexivity.
  - reflexivity.
  - exists events. split; [exact Hrun |]. split; [exact Hev |].
    split; [exact Hpolls |]. apply Hdefault. left. reflexivity.
Defined.

(** ** Analyses of batches put together *)

(** X16. Analysing two batches one after the other is analysing them
    separately and putting the analyses together: the counts add up and the
    lists of deleted and of modified resources are concatenated; the
    analysis of no drift at all is all zero. *)
Theorem analyzeDrifts_app (batch1 batch2 : list ResourceDrift) :
  analyzeDrifts (batch1 ++ batch2)
  = merge_analyses (analyzeDrifts batch1) (analyzeDrifts batch2)
  /\ analyzeDrifts [] = mkDriftAnalysis 0 0 [] [] 0.
Proof.
  split; [| reflexivity].
  unfold analyzeDrifts, merge_analyses; cbn [total drifted deleted modified inSync].
  rewrite !filter_app, !length_app. reflexivity.
Qed.

(** ** The shape of a result *)

Section Shape.
Context {World : Type}.
Variable P : Provider World.

Lemma detectAndReport_shape (s : State World) r s' :
  detectAndReport P s = (Return r, s') ->
  r = absent_report
  \/ (exists status batch,
        r = mkDetectionReport (needsRepair r) true (Some status)
              (Some (analyzeDrifts batch)) (Some batch)
        /\ DetectionStatus_of status = DETECTION_COMPLETE
        /\ (needsRepair r = true -> drifted (analyzeDrifts batch) <> 0)).
Proof.
  intros H. unfold detectAndReport in H.
  apply try_finally_Return in H. destruct H as (s1 & H).
  apply rethrow_Return in H.
  apply bind_Return in H. destruct H as (b & s2 & _ & H).
  destruct b; cbn [negb] in H.
  - right.
    apply bind_Return in H. destruct H as (id & s3 & _ & H).
    apply bind_Return in H. destruct H as (st & s4 & Hw & H).
    apply bind_Return in H. destruct H as (u & s5 & _ & H).
    apply bind_Return in H. destruct H as (batch & s6 & _ & H).
    cbv zeta in H.
    apply bind_Return in H. destruct H as (u' & s7 & _ & H).
    apply bind_Return in H. destruct H as (shouldRepair & s8 & Hask & H).
    inversion H; subst. exists st, batch. cbn [needsRepair].
    split; [reflexivity |]. split.
    + destruct (wait_returns P id s3 st s4 Hw) as (k & w1 & w2 & _ & _ & _ & Hc).
      exact Hc.
    + intros -> Hz. rewrite (askForRepair_no_drift P _ s7 Hz) in Hask. discriminate.
  - left.
    apply bind_Return in H. destruct H as (name & s3 & _ & H).
    apply bind_Return in H. destruct H as (u & s4 & _ & H).
    inversion H; subst. reflexivity.
Qed.

End Shape.

(** X17. Every result that [detectAndRepair] returns is well formed. A
    repair was attempted exactly when it was requested, and succeeded only
    if attempted. Either the stack does not exist, and the result is the bare
    [{needsRepair: false, stackExists: false}] with no repair attempted; or
    it exists, and the result carries a snapshot reported
    DETECTION_COMPLETE, the fetched drifts and the analysis of exactly those
    drifts, with a repair requested only if that analysis found drift. *)
Theorem detectAndRepair_result_shape
    {World} (P : Provider World) (s s' : State World) (r : ReconciliationResult) :
  detectAndRepair P s = (Return r, s') ->
  repairAttempted r = needsRepair (result r)
  /\ (repairSuccess r = true -> repairAttempted r = true)
  /\ ((result r = absent_report /\ repairAttempted r = false /\ repairSuccess r = false)
      \/ (exists status batch,
            stackExists (result r) = true
            /\ driftStatus (result r) = Some status
            /\ drifts (result r) = Some batch
            /\ analysis (result r) = Some (analyzeDrifts batch)
            /\ DetectionStatus_of status = DETECTION_COMPLETE
            /\ (needsRepair (result r) = true -> drifted (analyzeDrifts batch) <> 0)
            /\ drift_left_unrepaired r
               = negb (drifted (analyzeDrifts batch) =? 0)%nat
                 && negb (needsRepair (result r)))).
Proof.
  intros H.
  destruct (detectAndRepair_result P s r s' H) as ((s1 & Hreport) & Hatt & Hsucc).
  split; [exact Hatt |]. split; [exact Hsucc |].
  destruct (detectAndReport_shape P s (result r) s1 Hreport)
    as [Habsent | (status & batch & Hshape & Hcomplete & Hdrift)].
  - left. split; [exact Habsent |].
    rewrite Habsent in Hatt. cbn in Hatt. split; [exact Hatt |].
    destruct (repairSuccess r); [| reflexivity].
    specialize (Hsucc eq_refl). congruence.
  - right. exists status, batch.
    unfold drift_left_unrepaired. rewrite Hshape.
    cbn [stackExists driftStatus drifts analysis needsRepair].
    repeat split; try assumption.
    destruct (drifted (analyzeDrifts batch)); reflexivity.
Qed.

Lemma detectAndRepair_result_shape_witness :
  repairAttempted
    (mkReconciliationResult
       (mkDetectionReport true true (Some (status_complete STACK_DRIFTED 1))
          (Some (analyzeDrifts [workgroup_1])) (Some [workgroup_1]))
       true true)
  = true
  /\ exists status batch,
       driftStatus
         (mkDetectionReport true true (Some (status_complete STACK_DRIFTED 1))
            (Some (analyzeDrifts [workgroup_1])) (Some [workgroup_1]))
       = Some status
       /\ drifts
            (mkDetectionReport true true (Some (status_complete STACK_DRIFTED 1))
               (Some (analyzeDrifts [workgroup_1])) (Some [workgroup_1]))
          = Some batch
       /\ analysis
            (mkDetectionReport true true (Some (status_complete STACK_DRIFTED 1))
               (Some (analyzeDrifts [workgroup_1])) (Some [workgroup_1]))
          = Some (analyzeDrifts batch)
       /\ DetectionStatus_of status = DETECTION_COMPLETE
       /\ drifted (analyzeDrifts batch) <> 0.
Proof.
  assert (H : detectAndRepair (scripted accepted_repair) (new_DriftDetector 0)
              = (Return
                   (mkReconciliationResult
                      (mkDetectionReport true true (Some (status_complete STACK_DRIFTED 1))
                         (Some (analyzeDrifts [workgroup_1])) (Some [workgroup_1]))
                      true true),
                 snd (detectAndRepair (scripted accepted_repair) (new_DriftDetector 0))))
    by (vm_compute; reflexivity).
  destruct (detectAndRepair_result_shape (scripted accepted_repair) (new_DriftDetector 0)
              _ _ H)
    as (Hatt & _ & [(Habsent & _) | (status & batch & _ & Hst & Hdr & Han & Hc & Hneeds & _)]).
  - discriminate Habsent.
  - split; [exact Hatt |]. exists status, batch.
    split; [exact Hst |]. split; [exact Hdr |]. split; [exact Han |].
    split; [exact Hc |]. apply Hneeds. reflexivity.
Defined.

(** ** A prompt that gets no answer *)

Section Waiting.
Context {World : Type}.
Variable P : Provider World.

(** [detectAndReport] is left waiting exactly when the detection goes
    through, finds drift, and the question whether to repair gets no
    answer. *)
Lemma detectAndReport_waits (s : State World) :
  (exists s', detectAndReport P s = (Pending, s')) <->
  (exists status batch w5 w6,
     Detected P (stackName s) (world s) status batch w5
     /\ drifted (analyzeDrifts batch) <> 0
     /\ answer_question P repair_question w5 = (None, w6)).
Proof.
  split.
  - intros (s' & H). unfold detectAndReport, try_finally, try_catch in H.
    destruct (detection_cases P s
                (fun driftStatus drifts =>
                   shouldRepair <- askForRepair P (analyzeDrifts drifts) ;;
                   ret (mkDetectionReport shouldRepair true (Some driftStatus)
                          (Some (analyzeDrifts drifts)) (Some drifts))))
      as (s1 & _ & Hcase).
    cbv beta zeta in Hcase, H.
    destruct Hcase as [(e & Hb) | [Hb | (status & batch & Hb & Hdet & _)]];
      rewrite Hb in H; clear Hb.
    + unfold console_error_with, bind, emit, throw in H.
      cbn [fst snd stackName rl output world] in H.
      rewrite cleanup_state in H. discriminate.
    + rewrite cleanup_state in H. discriminate.
    + destruct (Nat.eq_dec (drifted (analyzeDrifts batch)) 0) as [Hz | Hnz].
      * rewrite (bind_run _ _ s1 _ _ (askForRepair_no_drift P _ s1 Hz)) in H.
        unfold ret in H. rewrite cleanup_state in H. discriminate.
      * destruct (answer_question P repair_question (world s1)) as [[answer |] w6] eqn:Hq.
        -- rewrite (bind_run _ _ s1 _ _ (askForRepair_asks P _ s1 answer w6 Hnz Hq)) in H.
           unfold ret in H. rewrite cleanup_state in H. discriminate.
        -- exists status, batch, (world s1), w6. auto.
  - intros (status & batch & w5 & w6 & Hdet & Hnz & Hq).
    destruct (detection_steps P s status batch w5
                (fun driftStatus drifts =>
                   shouldRepair <- askForRepair P (analyzeDrifts drifts) ;;
                   ret (mkDetectionReport shouldRepair true (Some driftStatus)
                          (Some (analyzeDrifts drifts)) (Some drifts)))
                Hdet) as (events & _ & Hrun).
    unfold detectAndReport, try_finally, try_catch.
    cbv beta zeta in Hrun |- *. rewrite Hrun.
    rewrite (bind_wait _ _ _ _
               (askForRepair_unanswered P _ (advance s events w5) w6 Hnz Hq)).
    eexists. reflexivity.
Qed.

(** [detectAndRepair] is left waiting exactly when [detectAndReport] is:
    [repairDrift] asks nothing. *)
Lemma detectAndRepair_waits (s s1 : State World) :
  detectAndRepair P s = (Pending, s1) <-> detectAndReport P s = (Pending, s1).
Proof.
  unfold detectAndRepair, bind.
  destruct (detectAndReport P s) as [[r | e | | ] s2]; try (split; discriminate).
  - destruct (needsRepair r).
    + destruct (repairDrift_returns P s2) as (b & s3 & Hrun). rewrite Hrun.
      split; discriminate.
    + split; discriminate.
  - split; intros H; inversion H; reflexivity.
Qed.

(** Nothing of the driver runs once [detectAndRepair] is left waiting. *)
Lemma driver_waiting (s s1 : State World) :
  detectAndRepair P s = (Pending, s1) -> driver P s = (Pending, s1).
Proof. intros H. unfold driver, try_catch, bind at 1. rewrite H. reflexivity. Qed.

End Waiting.

(** C5, amended. The process of the script always ends with code 0 or 1.
    The code is 0 in two cases: when [detectAndRepair] returns a result
    whose stack exists and for which either no repair was requested or the
    repair succeeded; and when [detectAndRepair] never settles, which
    happens exactly when the detection goes through, finds drift, and the
    question whether to repair gets no answer because the input has ended:
    then neither callback of the driver runs, nothing more is printed, and
    the process ends by itself. The code is 1 otherwise, also when
    [detectAndRepair] throws. For an existing stack a repair is requested
    only if the analysis found drift, so a drift-free stack exits with 0; a
    repair is attempted exactly when requested. *)
Theorem driver_exit_code {World} (P : Provider World) (w : World) :
  exists code,
    exit_status (fst (main P w)) = Some code
    /\ (code = 0 \/ code = 1)
    /\ (code = 0 <->
        (exists r s1,
           detectAndRepair P (new_DriftDetector w) = (Return r, s1)
           /\ stackExists (result r) = true
           /\ (needsRepair (result r) = false \/ repairSuccess r = true))
        \/ (exists s1, detectAndRepair P (new_DriftDetector w) = (Pending, s1)))
    /\ ((exists s1, detectAndRepair P (new_DriftDetector w) = (Pending, s1)) <->
        (exists status batch w5 w6,
           Detected P "IcebergCdkStack" w status batch w5
           /\ drifted (analyzeDrifts batch) <> 0
           /\ answer_question P repair_question w5 = (None, w6)))
    /\ (forall s1,
          detectAndRepair P (new_DriftDetector w) = (Pending, s1) ->
          main P w = (Pending, s1))
    /\ (forall r s1,
          detectAndRepair P (new_DriftDetector w) = (Return r, s1) ->
          repairAttempted r = needsRepair (result r)
          /\ (stackExists (result r) = true ->
              exists batch,
                analysis (result r) = Some (analyzeDrifts batch)
                /\ (drifted (analyzeDrifts batch) = 0 ->
                    needsRepair (result r) = false))).
Proof.
  unfold main.
  assert (Hfacts : forall r s1,
            detectAndRepair P (new_DriftDetector w) = (Return r, s1) ->
            repairAttempted r = needsRepair (result r)
            /\ (stackExists (result r) = true ->
                exists batch,
                  analysis (result r) = Some (analyzeDrifts batch)
                  /\ (drifted (analyzeDrifts batch) = 0 ->
                      needsRepair (result r) = false))).
  { intros r s1 H.
    destruct (detectAndRepair_result P _ r s1 H) as ((s2 & Hreport) & Hatt & _).
    split; [exact Hatt |].
    intros Hexists.
    destruct (detectAndReport_existing P _ _ s2 Hreport Hexists)
      as (batch & _ & Ha & Hz).
    exists batch. auto. }
  assert (Hwaits :
            (exists s1, detectAndRepair P (new_DriftDetector w) = (Pending, s1)) <->
            (exists status batch w5 w6,
               Detected P "IcebergCdkStack" w status batch w5
               /\ drifted (analyzeDrifts batch) <> 0
               /\ answer_question P repair_question w5 = (None, w6))).
  { rewrite <- (detectAndReport_waits P (new_DriftDetector w)).
    split; intros (s1 & H); exists s1; apply detectAndRepair_waits, H. }
  destruct (terminates_cases (detectAndRepair P) (new_DriftDetector w)
              (terminates_detectAndRepair P))
    as [(r & s1 & H) | [(e & s1 & H) | (s1 & H)]].
  - destruct (driver_returned P _ r s1 H) as (s' & Hd).
    exists (exit_code r). rewrite Hd.
    split; [reflexivity |]. split; [apply exit_code_values |].
    split; [| split; [exact Hwaits | split; [intros s2 H'; congruence | exact Hfacts]]].
    split.
    + intros Hz. left. exists r, s1. split; [exact H |]. apply exit_code_zero, Hz.
    + intros [(r' & s1' & H' & Hok) | (s1' & H')]; [| congruence].
      rewrite H in H'. inversion H'; subst. apply exit_code_zero, Hok.
  - destruct (driver_caught P _ e s1 H) as (s' & Hd).
    exists 1. rewrite Hd.
    split; [reflexivity |]. split; [auto |].
    split; [| split; [exact Hwaits | split; [intros s2 H'; congruence | exact Hfacts]]].
    split; [discriminate |].
    intros [(r' & s1' & H' & _) | (s1' & H')]; congruence.
  - rewrite (driver_waiting P _ s1 H).
    exists 0.
    split; [reflexivity |]. split; [auto |].
    split; [| split; [exact Hwaits | split; [| exact Hfacts]]].
    + split; [intros _; right; exists s1; exact H | reflexivity].
    + intros s2 H'. rewrite H in H'. inversion H'; subst. reflexivity.
Qed.

Lemma driver_exit_code_witness :
  exists code,
    exit_status (fst (main (scripted accepted_repair) 0)) = Some code
    /\ (code = 0 \/ code = 1)
    /\ (code = 0 <->
        (exists r s1,
           detectAndRepair (scripted accepted_repair) (new_DriftDetector 0) = (Return r, s1)
           /\ stackExists (result r) = true
           /\ (needsRepair (result r) = false \/ repairSuccess r = true))
        \/ (exists s1, detectAndRepair (scripted accepted_repair) (new_DriftDetector 0) = (Pending, s1)))
    /\ ((exists s1, detectAndRepair (scripted accepted_repair) (new_DriftDetector 0) = (Pending, s1)) <->
        (exists status batch w5 w6,
           Detected (scripted accepted_repair) "IcebergCdkStack" 0 status batch w5
           /\ drifted (analyzeDrifts batch) <> 0
           /\ answer_question (scripted accepted_repair) repair_question w5 = (None, w6)))
    /\ (forall s1,
          detectAndRepair (scripted accepted_repair) (new_DriftDetector 0) = (Pending, s1) ->
          main (scripted accepted_repair) 0 = (Pending, s1))
    /\ (forall r s1,
          detectAndRepair (scripted accepted_repair) (new_DriftDetector 0) = (Return r, s1) ->
          repairAttempted r = needsRepair (result r)
          /\ (stackExists (result r) = true ->
              exists batch,
                analysis (result r) = Some (analyzeDrifts batch)
                /\ (drifted (analyzeDrifts batch) = 0 ->
                    needsRepair (result r) = false))).
Proof. exact (driver_exit_code (scripted accepted_repair) 0). Defined.

(** A drifted stack and an input that has ended: the script shows the
    report, asks, and ends with code 0 without a final result. *)
Example unanswered_prompt_exit :
  fst (main (scripted unanswered_prompt) 0) = Pending
  /\ exit_status (fst (main (scripted unanswered_prompt) 0)) = Some 0
  /\ rl (snd (main (scripted unanswered_prompt) 0)) = Some stdio_interface
  /\ last (output (snd (main (scripted unanswered_prompt) 0))) readline_close
     = readline_question repair_question.
Proof. vm_compute. repeat split. Qed.

Example preTestCheck_unanswered :
  fst (preTestCheck_script (scripted unanswered_prompt) (new_DriftDetector 0)) = Pending
  /\ exit_status (fst (preTestCheck_script (scripted unanswered_prompt) (new_DriftDetector 0)))
     = Some 0.
Proof. vm_compute. repeat split. Qed.

(** ** The theorems above at work on the scripted collaborators *)

Lemma waitForDriftDetection_always_bounded_witness :
  exists events w',
    snd (waitForDriftDetection (scripted healthy_stack) "detection-11" (new_DriftDetector 0))
    = advance (new_DriftDetector 0) events w'
    /\ 1 <= polls_in events <= maxAttempts
    /\ DetectionStatus_of (status_complete STACK_IN_SYNC 0) = DETECTION_COMPLETE.
Proof.
  destruct (waitForDriftDetection_always_bounded (scripted healthy_stack) "detection-11"
              (new_DriftDetector 0))
    as (events & w' & Hs & _ & _ & Hpolls & _ & _ & Hcomplete).
  exists events, w'. split; [exact Hs |]. split; [exact Hpolls |].
  apply Hcomplete. vm_compute. reflexivity.
Defined.

Lemma detectAndRepair_redeploys_on_consent_witness :
  exists events,
    output (snd (detectAndRepair (scripted declined_repair) (new_DriftDetector 0)))
    = (output (new_DriftDetector 0) ++ events)%list
    /\ existsb is_deploy events = false.
Proof.
  destruct (detectAndRepair_redeploys_on_consent (scripted declined_repair)
              (new_DriftDetector 0)) as (events & Ho & Hiff & _).
  exists events. split; [exact Ho |].
  destruct (existsb is_deploy events); [| reflexivity].
  destruct (proj1 Hiff eq_refl) as (r & Hr & Hneeds).
  vm_compute in Hr. inversion Hr; subst r. discriminate Hneeds.
Defined.

Lemma postDeployVerify_verdict_witness :
  exists s',
    postDeployVerify (scripted healthy_stack) (new_DriftDetector 0) = (Return (inr tt), s').
Proof.
  destruct (postDeployVerify_verdict (scripted healthy_stack) (new_DriftDetector 0))
    as (o & s' & Hrun & _ & Hiff & _).
  exists s'. rewrite Hrun. f_equal. f_equal. apply Hiff.
  exists (status_complete STACK_IN_SYNC 0), [glue_database], 4.
  split; [| left; reflexivity].
  exists 1, 0, "detection-11", 0, 3, 3, 4.
  split; [reflexivity |]. split; [lia |]. split; [reflexivity |].
  split; [unfold maxAttempts; lia |]. split.
  - apply InProgressRun_S with (w1 := 1) (status := status_in_progress);
      [reflexivity | reflexivity |].
    apply InProgressRun_S with (w1 := 2) (status := status_in_progress);
      [reflexivity | reflexivity |].
    apply InProgressRun_S with (w1 := 3) (status := status_in_progress);
      [reflexivity | reflexivity |].
    apply InProgressRun_O.
  - split; [reflexivity |]. split; reflexivity.
Defined.

Lemma preTestCheck_verdict_witness :
  exists s',
    preTestCheck (scripted accepted_repair) (new_DriftDetector 0) = (Return (inr tt), s')
    /\ exit_status (fst (preTestCheck_script (scripted accepted_repair) (new_DriftDetector 0)))
       = Some 0.
Proof.
  destruct (preTestCheck_verdict (scripted accepted_repair) (new_DriftDetector 0))
    as (o & s' & Hrun & _ & _ & _ & Hret & _ & _ & Hzero).
  assert (Hdr : detectAndRepair (scripted accepted_repair)
                  (script_entry pre_test_banner (new_DriftDetector 0))
                = (Return
                     (mkReconciliationResult
                        (mkDetectionReport true true
                           (Some (status_complete STACK_DRIFTED 1))
                           (Some (analyzeDrifts [workgroup_1]))
                           (Some [workgroup_1]))
                        true true),
                   snd (detectAndRepair (scripted accepted_repair)
                          (script_entry pre_test_banner (new_DriftDetector 0)))))
    by (vm_compute; reflexivity).
  assert (Ho : o = Return (inr tt)).
  { apply (proj1 (Hret _ _ Hdr)).
    split; [reflexivity |]. split; [reflexivity | discriminate]. }
  exists s'. split; [rewrite Hrun, Ho; reflexivity |].
  apply Hzero. left. exact Ho.
Defined.
